(** * quenbyako/core: environment decoding, parser registry, lifecycle
      orchestration and the fail-fast job scheduler.

    A shallow embedding of
      - internal/param_registry.go   (parser registry, text-unmarshaler adapter)
      - contrib/runtime/env/*.go     (structural decoder)
      - contrib/runtime/run.go       (Configure / Acquire / Shutdown orchestration)
      - scheduler.go                 (RunJobs)
      - contrib/secrets/multi.go     (multiEngine: GetSecret, Close)
      - version.go                   (NewVersion and the accessors)
    together with the parts of the Go standard library these files call
    (strings.Split, strconv.ParseInt, errors.Is, errors.Join, encoding/hex,
    a fragment of package reflect).

    Go strings are byte sequences: they are modelled by [string], whose
    characters are 8-bit [ascii] values. Machine integers are [Z] with the
    wrap-around written out. A Go panic is the [Panic] outcome of [Result]. *)

From Stdlib Require Import ZArith Ascii String List Bool Lia Permutation.
From Stdlib Require Import DecimalString.
From stdpp Require Import base option list strings gmap.

Set Warnings "-register-all".
Set Default Proof Using "Type".

Local Open Scope string_scope.
Local Open Scope Z_scope.

(* ===================================================================== *)
(** * Outcomes of Go code that may panic *)
(* ===================================================================== *)

Inductive Result (A : Type) : Type :=
| Ok (a : A)
| Panic (msg : string).
Arguments Ok {A} a.
Arguments Panic {A} msg.

Definition rbind {A B : Type} (m : Result A) (k : A -> Result B) : Result B :=
  match m with
  | Ok a => k a
  | Panic msg => Panic msg
  end.

Notation "'let*' x ':=' m 'in' k" := (rbind m (fun x => k))
  (at level 10, x name, m at level 100, k at level 200).
Notation "'let*' ' p ':=' m 'in' k" := (rbind m (fun p => k))
  (at level 10, p strict pattern, m at level 100, k at level 200).

Definition isPanic {A : Type} (r : Result A) : bool :=
  match r with Ok _ => false | Panic _ => true end.

(* ===================================================================== *)
(** * Package unicode/utf8 *)
(* ===================================================================== *)

Module utf8.

Definition rune := Z.
Definition RuneError : rune := 65533.     (* U+FFFD *)

Definition byteZ (c : ascii) : Z := Z.of_N (N_of_ascii c).
Definition Zbyte (z : Z) : ascii := ascii_of_N (Z.to_N (z mod 256)).

Definition inRange (lo hi b : Z) : bool := (lo <=? b) && (b <=? hi).

(** The [first] table of the Go implementation, as (size, accept range of
    the second byte); size 1 with [ok = false] is an invalid leading byte. *)
Definition first (b : Z) : nat * (Z * Z) * bool :=
  if b <? 128 then (1%nat, (0, 0), true)
  else if b <? 194 then (1%nat, (0, 0), false)
  else if b <? 224 then (2%nat, (128, 191), true)
  else if b =? 224 then (3%nat, (160, 191), true)
  else if b <? 237 then (3%nat, (128, 191), true)
  else if b =? 237 then (3%nat, (128, 159), true)
  else if b <? 240 then (3%nat, (128, 191), true)
  else if b =? 240 then (4%nat, (144, 191), true)
  else if b <? 244 then (4%nat, (128, 191), true)
  else if b =? 244 then (4%nat, (128, 143), true)
  else (1%nat, (0, 0), false).

(** [DecodeRuneInString s] is the first rune of [s] and its width in bytes;
    an invalid encoding decodes to [RuneError] with width 1, the empty
    string to [RuneError] with width 0. *)
Definition DecodeRuneInString (s : string) : rune * nat :=
  match s with
  | EmptyString => (RuneError, 0%nat)
  | String c0 t0 =>
    let s0 := byteZ c0 in
    match first s0 with
    | (1%nat, _, true) => (s0, 1%nat)
    | (1%nat, _, false) => (RuneError, 1%nat)
    | (sz, (lo, hi), _) =>
      match t0 with
      | EmptyString => (RuneError, 1%nat)
      | String c1 t1 =>
        let s1 := byteZ c1 in
        if (String.length s <? sz)%nat then (RuneError, 1%nat)
        else if negb (inRange lo hi s1) then (RuneError, 1%nat)
        else if (sz <=? 2)%nat
             then (Z.lor (Z.shiftl (Z.land s0 31) 6) (Z.land s1 63), 2%nat)
        else match t1 with
        | EmptyString => (RuneError, 1%nat)
        | String c2 t2 =>
          let s2 := byteZ c2 in
          if negb (inRange 128 191 s2) then (RuneError, 1%nat)
          else if (sz <=? 3)%nat
               then (Z.lor (Z.lor (Z.shiftl (Z.land s0 15) 12)
                                  (Z.shiftl (Z.land s1 63) 6))
                           (Z.land s2 63), 3%nat)
          else match t2 with
          | EmptyString => (RuneError, 1%nat)
          | String c3 _ =>
            let s3 := byteZ c3 in
            if negb (inRange 128 191 s3) then (RuneError, 1%nat)
            else (Z.lor (Z.lor (Z.lor (Z.shiftl (Z.land s0 7) 18)
                                      (Z.shiftl (Z.land s1 63) 12))
                               (Z.shiftl (Z.land s2 63) 6))
                        (Z.land s3 63), 4%nat)
          end
        end
      end
    end
  end.

(** [EncodeRune]: the UTF-8 encoding of a rune; surrogates and values out of
    range are written as [RuneError]. *)
Definition encode3 (r : rune) : string :=
  String (Zbyte (Z.lor 224 (Z.shiftr r 12)))
    (String (Zbyte (Z.lor 128 (Z.land (Z.shiftr r 6) 63)))
      (String (Zbyte (Z.lor 128 (Z.land r 63))) EmptyString)).

Definition EncodeRune (r : rune) : string :=
  if (0 <=? r) && (r <=? 127) then String (Zbyte r) EmptyString
  else if (0 <=? r) && (r <=? 2047) then
    String (Zbyte (Z.lor 192 (Z.shiftr r 6)))
      (String (Zbyte (Z.lor 128 (Z.land r 63))) EmptyString)
  else if (r <? 0) || (1114111 <? r) || ((55296 <=? r) && (r <=? 57343))
    then encode3 RuneError
  else if r <=? 65535 then encode3 r
  else
    String (Zbyte (Z.lor 240 (Z.shiftr r 18)))
      (String (Zbyte (Z.lor 128 (Z.land (Z.shiftr r 12) 63)))
        (String (Zbyte (Z.lor 128 (Z.land (Z.shiftr r 6) 63)))
          (String (Zbyte (Z.lor 128 (Z.land r 63))) EmptyString))).

End utf8.

(* ===================================================================== *)
(** * Package strings *)
(* ===================================================================== *)

Module strings.

Fixpoint HasPrefix (s prefix : string) : bool :=
  match prefix, s with
  | EmptyString, _ => true
  | String p prefix', String c s' =>
      if Ascii.eqb p c then HasPrefix s' prefix' else false
  | String _ _, EmptyString => false
  end.

Fixpoint drop (n : nat) (s : string) : string :=
  match n, s with
  | O, _ => s
  | S n', String _ s' => drop n' s'
  | S _, EmptyString => EmptyString
  end.

Fixpoint take (n : nat) (s : string) : string :=
  match n, s with
  | O, _ => EmptyString
  | S n', String c s' => String c (take n' s')
  | S _, EmptyString => EmptyString
  end.

(** [Contains s sep] for a non-empty [sep]: some suffix of [s] starts with
    [sep]. *)
Fixpoint Contains (s sep : string) : bool :=
  HasPrefix s sep ||
  match s with
  | EmptyString => false
  | String _ s' => Contains s' sep
  end.

(** The splitting loop of [genSplit] for a non-empty separator, scanning
    left to right. [limit] is the number of cuts still allowed ([None]: no
    bound), [skip] the number of bytes of an already matched separator still
    to be passed over. The result is the part under construction and the
    parts after it. *)
Fixpoint splitLoop (sep : string) (limit : option nat) (skip : nat)
    (s : string) : string * list string :=
  match s with
  | EmptyString => (EmptyString, [])
  | String c s' =>
    match skip with
    | S k => splitLoop sep limit k s'
    | O =>
      let cut := match limit with Some O => false | _ => HasPrefix s sep end in
      if cut then
        let limit' := match limit with Some (S n) => Some n | l => l end in
        let '(h, t) := splitLoop sep limit' (String.length sep - 1)%nat s' in
        (EmptyString, h :: t)
      else
        let '(h, t) := splitLoop sep limit O s' in
        (String c h, t)
    end
  end.

(** [explode s n]: [s] cut into UTF-8 sequences, at most [n] of them
    ([None]: no bound), the last one holding the rest of [s]. The fuel is the
    byte length of [s], an upper bound on its rune count. *)
Fixpoint explodeLoop (fuel : nat) (limit : option nat) (s : string)
    : list string :=
  match fuel with
  | O => []
  | S fuel' =>
    match s with
    | EmptyString => []
    | _ =>
      match limit with
      | Some O => []
      | Some (S O) => [s]
      | _ =>
        let size := snd (utf8.DecodeRuneInString s) in
        let limit' := match limit with Some (S n) => Some n | l => l end in
        take size s :: explodeLoop fuel' limit' (drop size s)
      end
    end
  end.

Definition explode (s : string) (limit : option nat) : list string :=
  explodeLoop (String.length s) limit s.

(** [Split s sep = genSplit s sep 0 (-1)]. *)
Definition Split (s sep : string) : list string :=
  match sep with
  | EmptyString => explode s None
  | _ => let '(h, t) := splitLoop sep None O s in h :: t
  end.

(** [SplitN s sep n] for [n > 0]. *)
Definition SplitN (s sep : string) (n : nat) : list string :=
  match n with
  | O => []
  | S m =>
    match sep with
    | EmptyString => explode s (Some n)
    | _ => let '(h, t) := splitLoop sep (Some m) O s in h :: t
    end
  end.

End strings.

(* ===================================================================== *)
(** * Package reflect: type descriptors *)
(* ===================================================================== *)

Module reflect.

Inductive Kind : Set :=
| KInvalid | KBool
| KInt | KInt8 | KInt16 | KInt32 | KInt64
| KUint | KUint8 | KUint16 | KUint32 | KUint64 | KUintptr
| KFloat32 | KFloat64 | KComplex64 | KComplex128
| KArray | KChan | KFunc | KInterface | KMap | KPointer | KSlice
| KString | KStruct | KUnsafePointer.

Global Instance Kind_eq_dec : EqDecision Kind.
Proof. solve_decision. Defined.

(** The predeclared types of a basic kind ([bool], [int], ..., [string]). *)
Inductive basic : Set :=
| BBool
| BInt | BInt8 | BInt16 | BInt32 | BInt64
| BUint | BUint8 | BUint16 | BUint32 | BUint64 | BUintptr
| BFloat32 | BFloat64 | BComplex64 | BComplex128
| BString | BUnsafePointer.

Global Instance basic_eq_dec : EqDecision basic.
Proof. solve_decision. Defined.

Definition basicKind (b : basic) : Kind :=
  match b with
  | BBool => KBool
  | BInt => KInt | BInt8 => KInt8 | BInt16 => KInt16
  | BInt32 => KInt32 | BInt64 => KInt64
  | BUint => KUint | BUint8 => KUint8 | BUint16 => KUint16
  | BUint32 => KUint32 | BUint64 => KUint64 | BUintptr => KUintptr
  | BFloat32 => KFloat32 | BFloat64 => KFloat64
  | BComplex64 => KComplex64 | BComplex128 => KComplex128
  | BString => KString | BUnsafePointer => KUnsafePointer
  end.

(** A type descriptor ([reflect.Type]). A defined type carries its name and
    its underlying type; interface and function types are identified by
    their name, their method sets are given by the program (see
    [Program.Implements] below). A struct field carries its name, whether it
    is exported, its type and its tag, the tag already split into its
    [key:"value"] pairs. Defined types are finite trees here: a type that
    mentions itself is not represented. *)
Inductive rtype : Type :=
| TBasic (b : basic)
| TNamed (name : string) (underlying : rtype)
| TPtr (elem : rtype)
| TSlice (elem : rtype)
| TArray (len : nat) (elem : rtype)
| TChan (elem : rtype)
| TMap (key elem : rtype)
| TStruct (fields : list StructField)
| TInterface (name : string)
| TFunc (name : string)
with StructField : Type :=
| mkStructField (Name : string) (exported : bool) (Type_ : rtype)
    (Tag : list (string * string)).

Definition fieldName (f : StructField) : string :=
  match f with mkStructField n _ _ _ => n end.
Definition fieldExported (f : StructField) : bool :=
  match f with mkStructField _ e _ _ => e end.
Definition fieldType (f : StructField) : rtype :=
  match f with mkStructField _ _ t _ => t end.
Definition fieldTag (f : StructField) : list (string * string) :=
  match f with mkStructField _ _ _ tag => tag end.

(** [StructTag.Lookup] and [StructTag.Get]. *)
Fixpoint TagLookup (tag : list (string * string)) (key : string)
    : option string :=
  match tag with
  | [] => None
  | (k, v) :: rest => if String.eqb k key then Some v else TagLookup rest key
  end.

Definition TagGet (tag : list (string * string)) (key : string) : string :=
  match TagLookup tag key with Some v => v | None => EmptyString end.

Fixpoint Kind_of (t : rtype) : Kind :=
  match t with
  | TBasic b => basicKind b
  | TNamed _ u => Kind_of u
  | TPtr _ => KPointer
  | TSlice _ => KSlice
  | TArray _ _ => KArray
  | TChan _ => KChan
  | TMap _ _ => KMap
  | TStruct _ => KStruct
  | TInterface _ => KInterface
  | TFunc _ => KFunc
  end.

(** [Type.Elem]: the element type of an array, channel, map, pointer or
    slice type; it panics on every other kind. *)
Fixpoint Elem (t : rtype) : Result rtype :=
  match t with
  | TNamed _ u => Elem u
  | TPtr e | TSlice e | TArray _ e | TChan e | TMap _ e => Ok e
  | _ => Panic "reflect: Elem of invalid type"
  end.

(** [Type.Key]: the key type of a map type. *)
Fixpoint Key (t : rtype) : Result rtype :=
  match t with
  | TNamed _ u => Key u
  | TMap k _ => Ok k
  | _ => Panic "reflect: Key of non-map type"
  end.

Fixpoint underlying (t : rtype) : rtype :=
  match t with
  | TNamed _ u => underlying u
  | _ => t
  end.

Definition fieldsOf (t : rtype) : list StructField :=
  match underlying t with
  | TStruct fs => fs
  | _ => []
  end.

(** Defined types: the predeclared ones and those introduced by a type
    declaration. *)
Definition isNamed (t : rtype) : bool :=
  match t with
  | TBasic _ | TNamed _ _ | TInterface _ => true
  | _ => false
  end.

Definition tag_eqb (a b : list (string * string)) : bool :=
  bool_decide (a = b).

(** Type identity. *)
Fixpoint rtype_eqb (a b : rtype) {struct a} : bool :=
  match a, b with
  | TBasic x, TBasic y => bool_decide (x = y)
  | TNamed n u, TNamed m v => String.eqb n m && rtype_eqb u v
  | TPtr x, TPtr y => rtype_eqb x y
  | TSlice x, TSlice y => rtype_eqb x y
  | TArray n x, TArray m y => Nat.eqb n m && rtype_eqb x y
  | TChan x, TChan y => rtype_eqb x y
  | TMap k x, TMap l y => rtype_eqb k l && rtype_eqb x y
  | TStruct fs, TStruct gs =>
    (fix all2 (fs gs : list StructField) {struct fs} : bool :=
       match fs, gs with
       | [], [] => true
       | f :: fs', g :: gs' => field_eqb f g && all2 fs' gs'
       | _, _ => false
       end) fs gs
  | TInterface n, TInterface m => String.eqb n m
  | TFunc n, TFunc m => String.eqb n m
  | _, _ => false
  end
with field_eqb (f g : StructField) {struct f} : bool :=
  match f, g with
  | mkStructField n e t tag, mkStructField n' e' t' tag' =>
    String.eqb n n' && Bool.eqb e e' && rtype_eqb t t' && tag_eqb tag tag'
  end.

(** [n] layers of pointer indirection around [t]. *)
Fixpoint PtrN (n : nat) (t : rtype) : rtype :=
  match n with
  | O => t
  | S n' => TPtr (PtrN n' t)
  end.

End reflect.
Export reflect.

(* ===================================================================== *)
(** * Error values, packages errors and fmt *)
(* ===================================================================== *)

(** Sentinel errors: package-level variables compared by identity. *)
Inductive sentinel : Set :=
| Canceled               (* context.Canceled *)
| DeadlineExceeded       (* context.DeadlineExceeded *)
| ErrSyntax              (* strconv.ErrSyntax *)
| ErrRange               (* strconv.ErrRange *)
| ErrNotStructPtr        (* env.ErrNotStructPtr *)
| ErrValueNotSet         (* env.ErrValueNotSet *)
| OtherSentinel (name : string).

Global Instance sentinel_eq_dec : EqDecision sentinel.
Proof. solve_decision. Defined.

(** An [error] value that is not nil. The constructors are the error types
    that occur in the modelled sources; [wrapError] is what [fmt.Errorf]
    returns for a format with one [%w] verb. An error type of the caller's
    own is an [opaqueError] with the errors it unwraps to; an error type that
    defines an [Is] method of its own is not represented. *)
Inductive error : Type :=
| sentinelError (s : sentinel)
| wrapError (format : string) (args : list string) (err : error)
| joinError (errs : list error)
| NumError (Func Num : string) (Err : sentinel)
| FieldError (Key : string) (Type_ : rtype) (Err : option error)
| InvalidMapItemFormatError (Item KVSeparator : string)
| UnmarshalFuncError (Type_ : rtype) (Err : error)
| opaqueError (name : string) (unwraps : list error).

Module errors.

(** [errors.Is err target] for a sentinel [target] and a non-nil [err]:
    the tree of [Unwrap] results is searched depth-first.
    [*UnmarshalFuncError] has no [Unwrap] method, [*FieldError] and
    [*strconv.NumError] have one. *)
Fixpoint Is (err : error) (target : sentinel) {struct err} : bool :=
  match err with
  | sentinelError s => bool_decide (s = target)
  | wrapError _ _ e => Is e target
  | joinError es =>
    (fix any (es : list error) : bool :=
       match es with
       | [] => false
       | e :: es' => Is e target || any es'
       end) es
  | NumError _ _ s => bool_decide (s = target)
  | FieldError _ _ (Some e) => Is e target
  | FieldError _ _ None => false
  | InvalidMapItemFormatError _ _ => false
  | UnmarshalFuncError _ _ => false
  | opaqueError _ es =>
    (fix any (es : list error) : bool :=
       match es with
       | [] => false
       | e :: es' => Is e target || any es'
       end) es
  end.

(** [errors.Is] on a possibly nil error; the target is never nil here. *)
Definition IsOpt (err : option error) (target : sentinel) : bool :=
  match err with
  | None => false
  | Some e => Is e target
  end.

(** [errors.Join]: nil values are dropped; the result is nil when nothing
    is left. *)
Definition Join (errs : list (option error)) : option error :=
  match omap id errs with
  | [] => None
  | es => Some (joinError es)
  end.

End errors.

Module fmt.

(** [fmt.Errorf(format, args..., err)] with a single [%w] for [err]: the
    message is kept as the format and the other arguments, not rendered. *)
Definition Errorf (format : string) (args : list string) (err : error)
    : error :=
  wrapError format args err.

(** [%v] of an index. *)
Definition showNat (n : nat) : string :=
  NilEmpty.string_of_uint (Nat.to_uint n).

End fmt.

(* ===================================================================== *)
(** * Package strconv *)
(* ===================================================================== *)

Module strconv.

Definition syntaxError (fn str : string) : error := NumError fn str ErrSyntax.
Definition rangeError (fn str : string) : error := NumError fn str ErrRange.

Definition maxUint64 : Z := 2 ^ 64 - 1.

Definition isDigit (c : ascii) : bool :=
  (48 <=? utf8.byteZ c) && (utf8.byteZ c <=? 57).

(** The digit loop of [ParseUint] for base 10: [n] is the value read so
    far. The loop leaves at the first byte that is not a digit (syntax
    error) or that makes the value exceed [maxVal] (range error). The
    multiplication and the addition are those of [uint64]. *)
Fixpoint parseUintLoop (s0 : string) (maxVal : Z) (n : Z) (s : string)
    : Z * option error :=
  match s with
  | EmptyString => (n, None)
  | String c s' =>
    if negb (isDigit c) then (0, Some (syntaxError "ParseUint" s0))
    else
      let d := utf8.byteZ c - 48 in
      let cutoff := maxUint64 / 10 + 1 in
      if cutoff <=? n then (maxVal, Some (rangeError "ParseUint" s0))
      else
        let n10 := (n * 10) mod 2 ^ 64 in
        let n1 := (n10 + d) mod 2 ^ 64 in
        if (n1 <? n10) || (maxVal <? n1)
        then (maxVal, Some (rangeError "ParseUint" s0))
        else parseUintLoop s0 maxVal n1 s'
  end.

(** [strconv.ParseUint(s, 10, bitSize)] for [0 < bitSize <= 64]. *)
Definition ParseUint (s : string) (bitSize : Z) : Z * option error :=
  match s with
  | EmptyString => (0, Some (syntaxError "ParseUint" s))
  | _ => parseUintLoop s (2 ^ bitSize - 1) 0 s
  end.

Definition isRangeError (e : option error) : bool :=
  match e with
  | Some (NumError _ _ ErrRange) => true
  | _ => false
  end.

(** [strconv.ParseInt(s, 10, bitSize)] for [0 < bitSize <= 64]. *)
Definition ParseInt (s0 : string) (bitSize : Z) : Z * option error :=
  match s0 with
  | EmptyString => (0, Some (syntaxError "ParseInt" s0))
  | String c rest =>
    let neg := Ascii.eqb c "-" in
    let s := if Ascii.eqb c "+" || neg then rest else s0 in
    let '(un, err) := ParseUint s bitSize in
    if bool_decide (err <> None) && negb (isRangeError err)
    then (0, Some (syntaxError "ParseInt" s0))
    else
      let cutoff := 2 ^ (bitSize - 1) in
      if negb neg && (cutoff <=? un)
      then (cutoff - 1, Some (rangeError "ParseInt" s0))
      else if neg && (cutoff <? un)
      then (- cutoff, Some (rangeError "ParseInt" s0))
      else ((if neg then - un else un), None)
  end.

(** [strconv.ParseBool]. *)
Definition ParseBool (str : string) : bool * option error :=
  if existsb (String.eqb str) ["1"; "t"; "T"; "TRUE"; "true"; "True"]
  then (true, None)
  else if existsb (String.eqb str) ["0"; "f"; "F"; "FALSE"; "false"; "False"]
  then (false, None)
  else (false, Some (syntaxError "ParseBool" str)).

End strconv.

(* ===================================================================== *)
(** * Package reflect: values *)
(* ===================================================================== *)

(** A Go value together with its dynamic type. A pointer is the cell it
    points to ([None]: nil); the decoder only follows pointers of the record
    it fills and pointers it has allocated itself, so cells are not shared.
    A map is the list of its [SetMapIndex] writes, the latest last. Values
    of kinds the decoder never inspects (functions, channels, complex
    numbers, library structs with hidden fields) are [VOpaque]. *)
Inductive value : Type :=
| VBool (t : rtype) (b : bool)
| VInt (t : rtype) (n : Z)
| VFloat (t : rtype) (bits : Z)
| VString (t : rtype) (s : string)
| VPtr (t : rtype) (target : option value)
| VSlice (t : rtype) (elems : option (list value))
| VArray (t : rtype) (elems : list value)
| VMap (t : rtype) (entries : option (list (value * value)))
| VStruct (t : rtype) (fields : list value)
| VIface (t : rtype) (dyn : option value)
| VOpaque (t : rtype) (repr : string).

Definition typeOf (v : value) : rtype :=
  match v with
  | VBool t _ | VInt t _ | VFloat t _ | VString t _ | VPtr t _
  | VSlice t _ | VArray t _ | VMap t _ | VStruct t _ | VIface t _
  | VOpaque t _ => t
  end.

(** The same data under another type of identical underlying type
    (the result of a conversion between such types). *)
Definition retag (typ : rtype) (v : value) : value :=
  match v with
  | VBool _ b => VBool typ b
  | VInt _ n => VInt typ n
  | VFloat _ x => VFloat typ x
  | VString _ s => VString typ s
  | VPtr _ p => VPtr typ p
  | VSlice _ l => VSlice typ l
  | VArray _ l => VArray typ l
  | VMap _ m => VMap typ m
  | VStruct _ fs => VStruct typ fs
  | VIface _ d => VIface typ d
  | VOpaque _ r => VOpaque typ r
  end.

(** [zeroAs t u]: the zero value of type [t], whose underlying type is [u]. *)
Fixpoint zeroAs (t u : rtype) {struct u} : value :=
  match u with
  | TBasic BBool => VBool t false
  | TBasic BString => VString t EmptyString
  | TBasic (BFloat32 | BFloat64) => VFloat t 0
  | TBasic (BComplex64 | BComplex128 | BUnsafePointer) => VOpaque t EmptyString
  | TBasic _ => VInt t 0
  | TNamed _ u' => zeroAs t u'
  | TPtr _ => VPtr t None
  | TSlice _ => VSlice t None
  | TArray n e => VArray t (repeat (zeroAs e e) n)
  | TChan _ => VOpaque t EmptyString
  | TMap _ _ => VMap t None
  | TStruct fs =>
    VStruct t
      ((fix zeros (fs : list StructField) : list value :=
          match fs with
          | [] => []
          | mkStructField _ _ ft _ :: fs' => zeroAs ft ft :: zeros fs'
          end) fs)
  | TInterface _ => VIface t None
  | TFunc _ => VOpaque t EmptyString
  end.

(** [reflect.Zero(t)], also [reflect.New(t).Elem()]. *)
Definition Zero (t : rtype) : value := zeroAs t t.

(** [reflect.New(t)]: a pointer to a fresh zero value of [t]. *)
Definition New (t : rtype) : value := VPtr (TPtr t) (Some (Zero t)).

(** The loop [p := reflect.New(out.Type()); p.Elem().Set(out); out = p],
    run [n] times. *)
Fixpoint wrapPointers (n : nat) (out : value) : value :=
  match n with
  | O => out
  | S n' => wrapPointers n' (VPtr (TPtr (typeOf out)) (Some out))
  end.

(** Removing [n] layers of indirection; [None] on a nil pointer or on a
    value that is no pointer. *)
Fixpoint derefN (n : nat) (v : value) : option value :=
  match n with
  | O => Some v
  | S n' =>
    match v with
    | VPtr _ (Some w) => derefN n' w
    | _ => None
    end
  end.

(** Two's complement wrap-around of [n] to [bits] bits. *)
Definition wrapSigned (bits n : Z) : Z :=
  (n + 2 ^ (bits - 1)) mod 2 ^ bits - 2 ^ (bits - 1).
Definition wrapUnsigned (bits n : Z) : Z := n mod 2 ^ bits.

(** [Type.AssignableTo]: identical types, or identical underlying types
    when one of the two is not a defined type. Assignment to an interface
    type is decided by the method sets, given by [implements]. *)
Definition AssignableTo (implements : rtype -> rtype -> bool)
    (src dst : rtype) : bool :=
  rtype_eqb src dst
  || (rtype_eqb (underlying src) (underlying dst)
      && (negb (isNamed src) || negb (isNamed dst))
      && negb (bool_decide (Kind_of dst = KInterface)))
  || (bool_decide (Kind_of dst = KInterface) && implements src dst).

(** [Value.Convert] between the types a parser result and a field can have:
    a value is converted to a type of identical underlying type, to a pointer
    type whose element has the same underlying type as its own element, and
    to an interface type its type implements; an integer is converted to any
    integer type with wrap-around. The other conversions of the language
    (between integers, floats and strings, strings and byte slices) do not
    arise from the results of [GetParseFunc] and are outside this model:
    they are reported as the panic Go raises for types that do not
    convert. *)
Definition isIntKind (k : Kind) : option (bool * option Z) :=
  match k with
  | KInt => Some (true, None) | KInt8 => Some (true, Some 8)
  | KInt16 => Some (true, Some 16) | KInt32 => Some (true, Some 32)
  | KInt64 => Some (true, Some 64)
  | KUint => Some (false, None) | KUint8 => Some (false, Some 8)
  | KUint16 => Some (false, Some 16) | KUint32 => Some (false, Some 32)
  | KUint64 => Some (false, Some 64) | KUintptr => Some (false, None)
  | _ => None
  end.

Definition wrapTo (IntSize : Z) (k : Kind) (n : Z) : Z :=
  match isIntKind k with
  | Some (true, w) => wrapSigned (default IntSize w) n
  | Some (false, w) => wrapUnsigned (default IntSize w) n
  | None => n
  end.

Definition Convert (IntSize : Z) (implements : rtype -> rtype -> bool)
    (v : option value) (typ : rtype) : Result value :=
  match v with
  | None => Panic "reflect: call of reflect.Value.Convert on zero Value"
  | Some v =>
    let src := typeOf v in
    if bool_decide (Kind_of typ = KInterface) then
      if implements src typ then
        Ok (VIface typ (Some v))
      else Panic "reflect.Value.Convert: value of type cannot be converted"
    else if rtype_eqb (underlying src) (underlying typ) then Ok (retag typ v)
    else
      match src, typ, v with
      | TPtr a, TPtr b, _ =>
        if rtype_eqb (underlying a) (underlying b) then Ok (retag typ v)
        else Panic "reflect.Value.Convert: value of type cannot be converted"
      | _, _, VInt _ n =>
        match isIntKind (Kind_of typ) with
        | Some _ => Ok (VInt typ (wrapTo IntSize (Kind_of typ) n))
        | None =>
          Panic "reflect.Value.Convert: value of type cannot be converted"
        end
      | _, _, _ =>
        Panic "reflect.Value.Convert: value of type cannot be converted"
      end
  end.

(* ===================================================================== *)
(** * The program around the library *)
(* ===================================================================== *)

(** What the modelled files take from the program that uses them and from
    libraries outside the repository: the width of [int], the method sets
    ([Type.Implements]), the [UnmarshalText] methods of the program's types,
    and the library functions whose results are only passed on.

    [UnmarshalTextValue t raw] is a method with a value receiver, called on
    a copy of the zero value of [t]: the copy is dropped, only the returned
    error is seen by the caller. [UnmarshalTextPtr t raw v] is a method with
    a pointer receiver, called on a pointer to [v]; it returns the value the
    pointer holds afterwards. *)
Record Program : Type := {
  IntSize : Z;
  Implements : rtype -> rtype -> bool;
  UnmarshalTextValue : rtype -> string -> option error;
  UnmarshalTextPtr : rtype -> string -> value -> value * option error;
  strconv_ParseFloat : string -> Z -> Z * option error;
  url_Parse : string -> value * option error;
  time_ParseDuration : string -> Z * option error;
  time_LoadLocation : string -> value * option error;
  slog_Level_UnmarshalText : string -> Z * option error;
  strings_ToUpper : string -> string;
  unicode_IsLower : utf8.rune -> bool;
  unicode_IsUpper : utf8.rune -> bool;
  unicode_IsDigit : utf8.rune -> bool;
  unicode_ToUpper : utf8.rune -> utf8.rune
}.

(** [func(context.Context, string) (any, error)]. One decode call hands the
    same context to every parser, so a parser is a function of the raw text;
    [None] as a value is the nil interface. *)
Definition parserFunc : Type := string -> Result (option value * option error).

(** Calling a function value that may be nil. *)
Definition callParser (f : option parserFunc) (raw : string)
    : Result (option value * option error) :=
  match f with
  | Some g => g raw
  | None => Panic "invalid memory address or nil pointer dereference"
  end.

(* ===================================================================== *)
(** * internal/std_parsers.go *)
(* ===================================================================== *)

Module std_parsers.
Section WithProgram.
Context (P : Program).

Definition url_URL : rtype := TNamed "url.URL" (TStruct []).
Definition time_Duration : rtype := TNamed "time.Duration" (TBasic BInt64).
Definition time_Location : rtype := TNamed "time.Location" (TStruct []).
Definition slog_Level : rtype := TNamed "slog.Level" (TBasic BInt).
Definition os_File : rtype := TNamed "os.File" (TStruct []).
Definition fs_File : rtype := TInterface "fs.File".

Definition parseURL : parserFunc := fun v =>
  match url_Parse P v with
  | (_, Some err) => Ok (None, Some (fmt.Errorf "parse url: %w" [] err))
  | (u, None) => Ok (Some u, None)
  end.

Definition parseDuration : parserFunc := fun v =>
  match time_ParseDuration P v with
  | (_, Some err) => Ok (None, Some (fmt.Errorf "parse duration: %w" [] err))
  | (d, None) => Ok (Some (VInt time_Duration d), None)
  end.

Definition parseLocation : parserFunc := fun v =>
  match time_LoadLocation P v with
  | (_, Some err) => Ok (None, Some (fmt.Errorf "parse location: %w" [] err))
  | (loc, None) => Ok (Some loc, None)
  end.

Definition LevelDebug : Z := -4.
Definition LevelInfo : Z := 0.
Definition LevelWarn : Z := 4.
Definition LevelError : Z := 8.

Definition parseLogLevel : parserFunc := fun input =>
  let up := strings_ToUpper P input in
  let level n := Ok (Some (VInt slog_Level n), None) in
  if String.eqb up "TRACE" then level (LevelDebug - 4)
  else if String.eqb up "DEBUG" then level LevelDebug
  else if String.eqb up "INFO" then level LevelInfo
  else if String.eqb up "WARN" then level LevelWarn
  else if String.eqb up "ERROR" then level LevelError
  else if String.eqb up "FATAL" then level (LevelError + 4)
  else if String.eqb up "PANIC" then level (LevelError + 8)
  else
    match slog_Level_UnmarshalText P input with
    | (_, Some err) => Ok (None, Some (fmt.Errorf "parse log level: %w" [] err))
    | (l, None) => level l
    end.

End WithProgram.
End std_parsers.

(* ===================================================================== *)
(** * internal/param_registry.go *)
(* ===================================================================== *)

Module internal.
Section WithProgram.
Context (P : Program).

Definition basicValue (b : basic) (n : Z) : value :=
  VInt (TBasic b) (wrapTo (IntSize P) (basicKind b) n).

Definition parseIntAs (b : basic) (bitSize : Z) : parserFunc := fun v =>
  let '(i, err) := strconv.ParseInt v bitSize in
  Ok (Some (basicValue b i), err).

Definition parseUintAs (b : basic) (bitSize : Z) : parserFunc := fun v =>
  let '(i, err) := strconv.ParseUint v bitSize in
  Ok (Some (basicValue b i), err).

(** [defaultBuiltInParsers]: the parser of a kind, if the table has one. *)
Definition defaultBuiltInParsers (k : Kind) : option parserFunc :=
  match k with
  | KBool => Some (fun v =>
      let '(b, err) := strconv.ParseBool v in
      Ok (Some (VBool (TBasic BBool) b), err))
  | KString => Some (fun v => Ok (Some (VString (TBasic BString) v), None))
  | KInt => Some (parseIntAs BInt 32)
  | KInt16 => Some (parseIntAs BInt16 16)
  | KInt32 => Some (parseIntAs BInt32 32)
  | KInt64 => Some (parseIntAs BInt64 64)
  | KInt8 => Some (parseIntAs BInt8 8)
  | KUint => Some (parseUintAs BUint 32)
  | KUint16 => Some (parseUintAs BUint16 16)
  | KUint32 => Some (parseUintAs BUint32 32)
  | KUint64 => Some (parseUintAs BUint64 64)
  | KUint8 => Some (parseUintAs BUint8 8)
  | KFloat64 => Some (fun v =>
      let '(f, err) := strconv_ParseFloat P v 64 in
      Ok (Some (VFloat (TBasic BFloat64) f), err))
  | KFloat32 => Some (fun v =>
      let '(f, err) := strconv_ParseFloat P v 32 in
      Ok (Some (VFloat (TBasic BFloat32) f), err))
  | _ => None
  end.

(** [envRegistry]: a map from type descriptors to parsers, some of them nil.
    Keys are unique ([RegisterEnvParser] refuses a second entry). *)
Definition Registry : Type := list (rtype * option parserFunc).

Definition envRegistry : Registry := [
  (std_parsers.slog_Level, Some (std_parsers.parseLogLevel P));
  (std_parsers.url_URL, Some (std_parsers.parseURL P));
  (std_parsers.time_Duration, Some (std_parsers.parseDuration P));
  (std_parsers.time_Location, Some (std_parsers.parseLocation P));
  (TPtr std_parsers.os_File, None);
  (std_parsers.fs_File, None)
].

(** [f, ok := reg[typ]]. *)
Fixpoint registryLookup (reg : Registry) (typ : rtype)
    : option (option parserFunc) :=
  match reg with
  | [] => None
  | (t, f) :: rest =>
    if rtype_eqb t typ then Some f else registryLookup rest typ
  end.

Definition RegisterEnvParser (reg : Registry) (typ : rtype)
    (parseFunc : parserFunc) : Result Registry :=
  match registryLookup reg typ with
  | Some _ => Panic "parser already registered"
  | None => Ok (reg ++ [(typ, Some parseFunc)])%list
  end.

Definition ErrUnmarshalFunc (typ : rtype) (err : error) : error :=
  UnmarshalFuncError typ err.

Definition unmarshalTyp : rtype := TInterface "encoding.TextUnmarshaler".

Definition valueTextUnmarshaler (base : rtype) (depth : nat) : parserFunc :=
  fun raw =>
    let value := Zero base in
    (* value.Interface().(encoding.TextUnmarshaler): the zero value of an
       interface type is nil and fails the assertion *)
    let ok := Implements P base unmarshalTyp
              && negb (bool_decide (Kind_of base = KInterface)) in
    if negb ok then Panic "unreachable"
    else
      match UnmarshalTextValue P base raw with
      | Some err => Ok (None, Some (ErrUnmarshalFunc (typeOf value) err))
      | None =>
        match depth with
        | O => Ok (Some value, None)
        | _ => Ok (Some (wrapPointers depth value), None)
        end
      end.

Definition ptrTextUnmarshaler (base : rtype) (depth : nat) : parserFunc :=
  fun raw =>
    let ok := Implements P (TPtr base) unmarshalTyp in
    if negb ok then Panic "unreachable"
    else
      let '(target, err) := UnmarshalTextPtr P base raw (Zero base) in
      let value := VPtr (TPtr base) (Some target) in
      match err with
      | Some err => Ok (None, Some (ErrUnmarshalFunc (typeOf value) err))
      | None =>
        match depth with
        | O => Ok (Some target, None)
        | S O => Ok (Some value, None)
        | S d => Ok (Some (wrapPointers d value), None)
        end
      end.

(** The loop [for base.Kind() == reflect.Pointer { base = base.Elem();
    depth++ }]. *)
Fixpoint unpackPointers (t : rtype) : rtype * nat :=
  match t with
  | TPtr e => let '(b, d) := unpackPointers e in (b, S d)
  | TNamed _ u =>
    match Kind_of u with
    | KPointer => unpackPointers u
    | _ => (t, O)
    end
  | _ => (t, O)
  end.

Definition handleTextUnmarshaler (typ : rtype) : option parserFunc :=
  let '(base, depth) := unpackPointers typ in
  if Implements P base unmarshalTyp
  then Some (valueTextUnmarshaler base depth)
  else if Implements P (TPtr base) unmarshalTyp
  then Some (ptrTextUnmarshaler base depth)
  else None.

(** The result [(f, ptrDepth, ok)] of [GetParseFunc]. *)
Definition lookupResult : Type := option parserFunc * nat * bool.

(** The body of the [for] loop of [GetParseFunc] with the current [typ] and
    [depth]; [inner] is the type the function was called with, which the
    loop tests and never changes. The recursion follows [typ = typ.Elem()],
    see [getParseFuncLoop_eq]. *)
Fixpoint getParseFuncLoop (reg : Registry) (inner typ : rtype) (depth : nat)
    {struct typ} : Result lookupResult :=
  match registryLookup reg typ with
  | Some f => Ok (f, depth, true)
  | None =>
    match handleTextUnmarshaler typ with
    | Some f => Ok (Some f, depth, true)
    | None =>
      match defaultBuiltInParsers (Kind_of typ) with
      | Some f => Ok (Some f, depth, true)
      | None =>
        if negb (bool_decide (Kind_of inner = KPointer))
        then Ok (None, O, false)
        else
          (fix elem (t : rtype) : Result lookupResult :=
             match t with
             | TNamed _ u => elem u
             | TPtr e | TSlice e | TArray _ e | TChan e | TMap _ e =>
               getParseFuncLoop reg inner e (S depth)
             | _ => Panic "reflect: Elem of invalid type"
             end) typ
      end
    end
  end.

Definition GetParseFunc (reg : Registry) (typ : rtype) : Result lookupResult :=
  getParseFuncLoop reg typ typ O.

End WithProgram.
End internal.

(* ===================================================================== *)
(** * contrib/runtime/env *)
(* ===================================================================== *)

Module env.

Definition tagName : string := "env".
Definition tagPrefix : string := "prefix".
Definition tagDefault : string := "default".
Definition tagSeparator : string := "envSeparator".
Definition tagKVSeparator : string := "envKeyValSeparator".

Definition errInvalidMapItemFormat (item kvSeparator : string) : error :=
  InvalidMapItemFormatError item kvSeparator.

Definition errField (key : string) (typ : rtype) (err : option error)
    : error :=
  FieldError key typ err.

(** [parseParams]. The observer [onSet] is a callback of the caller: the
    model records whether it is set and logs the calls made to it. *)
Record parseParams : Type := {
  environment : gmap string string;
  prefix : string;
  onSet : bool
}.

Definition keyWithPrefix (p : parseParams) (key : string) : string :=
  String.append (prefix p) key.

Definition getEnv (p : parseParams) (key : string) : option string :=
  environment p !! String.append (prefix p) key.

(** One call [onSet(tag, value, isDefault)]. *)
Definition SetEvent : Type := string * value * bool.

Record fieldParams : Type := {
  key : string;
  DefaultValue : string;
  separator : string;
  kvSeparator : string;
  defaultSet : bool;
  ignored : bool
}.

(** What a decoding step leaves behind: the value now stored in the place it
    was given, the field errors it returns, and the observer calls it made. *)
Record decoded : Type := {
  dval : value;
  derrs : list error;
  dlog : list SetEvent
}.

Definition clNone : Z := 0.
Definition clLower : Z := Z.shiftl 1 1.
Definition clUpper : Z := Z.shiftl 1 2.
Definition clDigit : Z := Z.shiftl 1 3.
Definition clUnderscore : Z := Z.shiftl 1 4.

Definition is_ (c other : Z) : bool := negb (Z.land c other =? 0).

Definition tagOption (key : string) : string * list string :=
  match strings.Split key "," with
  | [] => (EmptyString, [])
  | o :: opts => (o, opts)
  end.

Section WithProgram.
Context (P : Program) (reg : internal.Registry).

Definition classOf (r : utf8.rune) : Z :=
  if r =? 95 then clUnderscore
  else if unicode_IsLower P r then clLower
  else if unicode_IsUpper P r then clUpper
  else if unicode_IsDigit P r then clDigit
  else clNone.

(** The [for i, r := range s] loop of [toEnvName]: [rest] is [s[i:]], [b]
    the text built so far. The fuel is the byte length of [s]. *)
Fixpoint toEnvNameLoop (fuel : nat) (rest b : string) (prevClass : Z)
    : string :=
  match fuel, rest with
  | S fuel', String _ tail =>
    let '(r, w) := utf8.DecodeRuneInString rest in
    let next := strings.drop w rest in
    let c := classOf r in
    if (c =? clUnderscore) || (c =? clNone) then
      if (0 <? String.length b)%nat && negb (prevClass =? clUnderscore)
      then toEnvNameLoop fuel' next (String.append b "_") clUnderscore
      else toEnvNameLoop fuel' next b prevClass
    else
      let nextLower :=
        if is_ c clUpper then
          match tail with
          | String nc _ => unicode_IsLower P (utf8.byteZ nc)
          | EmptyString => false
          end
        else false in
      let needSep :=
        (0 <? String.length b)%nat && negb (prevClass =? clUnderscore)
        && ((is_ prevClass clLower && is_ c clUpper)
            || (is_ prevClass clUpper && is_ c clUpper && nextLower)
            || (is_ prevClass (Z.lor clLower clUpper) && is_ c clDigit)
            || (is_ prevClass clDigit && is_ c (Z.lor clLower clUpper))) in
      let b1 := if needSep then String.append b "_" else b in
      let b2 :=
        if is_ c clDigit then String.append b1 (utf8.EncodeRune r)
        else String.append b1 (utf8.EncodeRune (unicode_ToUpper P r)) in
      toEnvNameLoop fuel' next b2 c
  | _, _ => b
  end.

Definition toEnvName (s : string) : string :=
  toEnvNameLoop (String.length s) s EmptyString clNone.

Definition structTagPrefix (prefix : string) (field : StructField) : string :=
  String.append prefix (TagGet (fieldTag field) tagPrefix).

Definition parseFieldParams (field : StructField) (prefix : string)
    : Result fieldParams :=
  let '(key, tags) := tagOption (TagGet (fieldTag field) tagName) in
  let key := if String.eqb key "" then toEnvName (fieldName field) else key in
  let key := if negb (String.eqb key "-") then String.append prefix key
             else key in
  let dflt := TagLookup (fieldTag field) tagDefault in
  let result := {|
    key := key;
    DefaultValue := default EmptyString dflt;
    separator := default "," (TagLookup (fieldTag field) tagSeparator);
    kvSeparator := default ":" (TagLookup (fieldTag field) tagKVSeparator);
    defaultSet := bool_decide (dflt <> None);
    ignored := String.eqb key "-"
  |} in
  if forallb (String.eqb "") tags then Ok result
  else Panic "unsupported tag option".

(** The target of a pointer value; [None] for a nil pointer. *)
Definition ptrTarget (v : value) : option value :=
  match v with
  | VPtr _ tgt => tgt
  | _ => None
  end.

(** The element loop of [setSlice]: [i] is the index of the first of
    [parts], [errs] the element errors so far, [result] the elements
    assigned so far. The parser runs on every part; once [errs] is not
    empty nothing more is assigned. *)
Fixpoint setSliceLoop (parserFunc : option parserFunc) (ptrDepth : nat)
    (itemType : rtype) (i : nat) (parts : list string)
    (errs : list error) (result : list value)
    : Result (list error * list value) :=
  match parts with
  | [] => Ok (errs, result)
  | part :: parts' =>
    let* '(r, err) := callParser parserFunc part in
    let errs :=
      match err with
      | Some e => (errs ++ [fmt.Errorf "index %v: %w" [fmt.showNat i] e])%list
      | None => errs
      end in
    match errs with
    | _ :: _ =>
      setSliceLoop parserFunc ptrDepth itemType (S i) parts' errs result
    | [] =>
      match r with
      | None => Panic "reflect: call of reflect.Value.Type on zero Value"
      | Some r =>
        let v := wrapPointers ptrDepth r in
        if AssignableTo (Implements P) (typeOf v) itemType then
          setSliceLoop parserFunc ptrDepth itemType (S i) parts' errs
            (<[i := v]> result)
        else Panic "reflect.Set: value is not assignable to type"
      end
    end
  end.

Definition setSlice (typ : rtype) (field : value) (value : string)
    (f : fieldParams) (p : parseParams) : Result decoded :=
  if negb (bool_decide (Kind_of typ = KSlice)) then Panic "field is not a slice"
  else
    let* itemType := Elem typ in
    let* '(parserFunc, ptrDepth, ok) := internal.GetParseFunc P reg itemType in
    if negb ok then Panic "no parser found"
    else
      let parts := strings.Split value (separator f) in
      let result := repeat (Zero itemType) (List.length parts) in
      let* '(errs, result) :=
        setSliceLoop parserFunc ptrDepth itemType O parts [] result in
      match errs with
      | [] => Ok {| dval := VSlice typ (Some result); derrs := []; dlog := [] |}
      | [err] =>
        Ok {| dval := field;
              derrs := [errField (keyWithPrefix p (key f)) typ (Some err)];
              dlog := [] |}
      | _ =>
        let err := errors.Join (map Some errs) in
        Ok {| dval := field;
              derrs := [errField (keyWithPrefix p (key f)) typ err];
              dlog := [] |}
      end.

(** What the body of the entry loop of [setMap] does with one part: it
    leaves the function at once (a part without the key/value separator),
    it appends an error and continues, or it writes one entry. *)
Inductive mapStep : Type :=
| MalformedEntry
| EntryError (err : error)
| EntryOk (k v : value).

Definition setMapEntry (keyParserFunc elemParserFunc : option parserFunc)
    (keyType elemType : rtype) (kvSep part : string) : Result mapStep :=
  match strings.SplitN part kvSep 2 with
  | [k; e] =>
    let* '(kv, err) := callParser keyParserFunc k in
    match err with
    | Some err => Ok (EntryError (fmt.Errorf "key %q: %w" [k] err))
    | None =>
      let* '(ev, err) := callParser elemParserFunc e in
      match err with
      | Some err => Ok (EntryError (fmt.Errorf "value %q: %w" [e] err))
      | None =>
        let* kc := Convert (IntSize P) (Implements P) kv keyType in
        let* ec := Convert (IntSize P) (Implements P) ev elemType in
        Ok (EntryOk kc ec)
      end
    end
  | _ => Ok MalformedEntry
  end.

(** The entry loop of [setMap]: [inl part] when it was left at the
    malformed [part], otherwise the collected errors and the map writes. *)
Fixpoint setMapLoop (keyParserFunc elemParserFunc : option parserFunc)
    (keyType elemType : rtype) (kvSep : string) (parts : list string)
    (errs : list error) (result : list (value * value))
    : Result (string + list error * list (value * value)) :=
  match parts with
  | [] => Ok (inr (errs, result))
  | part :: parts' =>
    let* step := setMapEntry keyParserFunc elemParserFunc keyType elemType
                   kvSep part in
    match step with
    | MalformedEntry => Ok (inl part)
    | EntryError err =>
      setMapLoop keyParserFunc elemParserFunc keyType elemType kvSep parts'
        (errs ++ [err])%list result
    | EntryOk k v =>
      setMapLoop keyParserFunc elemParserFunc keyType elemType kvSep parts'
        errs (result ++ [(k, v)])%list
    end
  end.

Definition setMap (typ : rtype) (field : value) (value : string)
    (f : fieldParams) (p : parseParams) : Result decoded :=
  let parts := strings.Split value (separator f) in
  let* keyType := Key typ in
  let* elemType := Elem typ in
  let* '(keyParserFunc, _, ok) := internal.GetParseFunc P reg keyType in
  if negb ok then Panic "no parser found for map key type"
  else
    let* '(elemParserFunc, _, ok) := internal.GetParseFunc P reg elemType in
    if negb ok then Panic "no parser found for map elem type"
    else
      let* r := setMapLoop keyParserFunc elemParserFunc keyType elemType
                  (kvSeparator f) parts [] [] in
      match r with
      | inl part =>
        Ok {| dval := field;
              derrs := [errField (keyWithPrefix p (key f)) typ
                          (Some (errInvalidMapItemFormat part
                                   (kvSeparator f)))];
              dlog := [] |}
      | inr ([], result) =>
        Ok {| dval := VMap typ (Some result); derrs := []; dlog := [] |}
      | inr ([err], _) =>
        Ok {| dval := field;
              derrs := [errField (keyWithPrefix p (key f)) typ (Some err)];
              dlog := [] |}
      | inr (errs, _) =>
        let err := errors.Join (map Some errs) in
        Ok {| dval := field;
              derrs := [errField (keyWithPrefix p (key f)) typ err];
              dlog := [] |}
      end.

(** The number of struct levels nested in a type. *)
Fixpoint structDepth (t : rtype) : nat :=
  match t with
  | TBasic _ | TInterface _ | TFunc _ => O
  | TNamed _ u => structDepth u
  | TPtr e | TSlice e | TArray _ e | TChan e => structDepth e
  | TMap k e => Nat.max (structDepth k) (structDepth e)
  | TStruct fs =>
    S ((fix deepest (fs : list StructField) : nat :=
          match fs with
          | [] => O
          | mkStructField _ _ ft _ :: fs' =>
            Nat.max (structDepth ft) (deepest fs')
          end) fs)
  end.

Definition unchanged (v : value) : decoded :=
  {| dval := v; derrs := []; dlog := [] |}.

(** The loop of [setStruct] over the fields [fs] of the struct type and the
    field values [vs]; [fieldFn] is [setStructField]. *)
Fixpoint setStructLoop
    (fieldFn : value -> StructField -> parseParams -> string -> Result decoded)
    (p : parseParams) (prefix : string)
    (fs : list StructField) (vs : list value)
    : Result (list value * list error * list SetEvent) :=
  match fs with
  | [] => Ok ([], [], [])
  | refTypeField :: fs' =>
    let refField :=
      match vs with
      | v :: _ => v
      | [] => Zero (fieldType refTypeField)
      end in
    let* d := fieldFn refField refTypeField p
                (structTagPrefix prefix refTypeField) in
    let* '(vs', errs, log) := setStructLoop fieldFn p prefix fs' (tail vs) in
    Ok (dval d :: vs', (derrs d ++ errs)%list, (dlog d ++ log)%list)
  end.

Definition setStructWith
    (fieldFn : value -> StructField -> parseParams -> string -> Result decoded)
    (typ : rtype) (v : value) (p : parseParams) (prefix : string)
    : Result decoded :=
  let vs := match v with VStruct _ vs => vs | _ => [] end in
  let* '(vs', errs, log) := setStructLoop fieldFn p prefix (fieldsOf typ) vs in
  Ok {| dval := VStruct typ vs'; derrs := errs; dlog := log |}.

(** [setStructField]; [valueFn] is [setValue]. The type of the place [v] is
    the declared type of the field. *)
Definition setStructFieldWith
    (valueFn : rtype -> value -> parseParams -> fieldParams -> string
               -> Result decoded)
    (v : value) (tags : StructField) (p : parseParams) (prefix : string)
    : Result decoded :=
  let typ := fieldType tags in
  if negb (fieldExported tags) then Ok (unchanged v)
  else
    let* params := parseFieldParams tags prefix in
    if ignored params then Ok (unchanged v)
    else if bool_decide (Kind_of typ = KPointer)
            && bool_decide (ptrTarget v = None) then
      let* elemT := Elem typ in
      let fresh := Zero elemT in
      if bool_decide (Kind_of elemT = KStruct) then
        let* d := valueFn elemT fresh p params prefix in
        Ok {| dval := VPtr typ (Some (dval d));
              derrs := derrs d; dlog := dlog d |}
      else valueFn typ (VPtr typ (Some fresh)) p params prefix
    else valueFn typ v p params prefix.

(** [setValue]. The mutual recursion of [setValue], [setStruct] and
    [setStructField] descends one struct level per round; [fuel] bounds the
    number of rounds. *)
Fixpoint setValue (fuel : nat) (typ : rtype) (v : value) (p : parseParams)
    (f : fieldParams) (prefix : string) {struct fuel} : Result decoded :=
  match fuel with
  | O => Panic "out of fuel"
  | S fuel' =>
    let found := getEnv p (key f) in
    let unset :=
      match found with
      | Some s => String.eqb s ""
      | None => true
      end in
    if unset && negb (defaultSet f) then
      Ok {| dval := v;
            derrs := [errField (keyWithPrefix p (key f)) typ
                        (Some (sentinelError ErrValueNotSet))];
            dlog := [] |}
    else
      let value := if unset then DefaultValue f else default EmptyString found in
      let usingDefault := unset in
      (* if v.Kind() == reflect.Pointer { ...; v = v.Elem() } *)
      let* '(typ1, v1, store) :=
        if bool_decide (Kind_of typ = KPointer) then
          let* elemT := Elem typ in
          Ok (elemT, default (Zero elemT) (ptrTarget v),
              fun t => VPtr typ (Some t))
        else Ok (typ, v, fun t => t) in
      let* '(parserFunc, ptrDepth, ok) := internal.GetParseFunc P reg typ1 in
      if ok then
        let* '(val, err) := callParser parserFunc value in
        match err with
        | Some err =>
          Ok {| dval := store v1;
                derrs := [errField (keyWithPrefix p (key f)) typ1 (Some err)];
                dlog := [] |}
        | None =>
          let* value := Convert (IntSize P) (Implements P) val typ1 in
          Ok {| dval := store value;
                derrs := [];
                dlog := if onSet p
                        then [(keyWithPrefix p (key f), value, usingDefault)]
                        else [] |}
        end
      else
        let* d :=
          match Kind_of typ1 with
          | KStruct =>
            setStructWith (setStructFieldWith (setValue fuel')) typ1 v1 p prefix
          | KSlice => setSlice typ1 v1 value f p
          | KMap => setMap typ1 v1 value f p
          | _ => Panic "no parser found"
          end in
        Ok {| dval := store (dval d); derrs := derrs d; dlog := dlog d |}
  end.

Definition setStructField (fuel : nat) :=
  setStructFieldWith (setValue fuel).

Definition setStruct (fuel : nat) :=
  setStructWith (setStructField fuel).

(** [parseInternal]: [v] is the [any] argument; the result is what [v]
    holds afterwards, the returned error and the observer calls. *)
Definition parseInternal (v : option value) (opts : parseParams)
    (prefix : string) : Result (option value * option error * list SetEvent) :=
  match v with
  | Some (VPtr t (Some ref)) =>
    if negb (bool_decide (Kind_of (typeOf ref) = KStruct))
    then Ok (v, Some (sentinelError ErrNotStructPtr), [])
    else
      let* d := setStruct (S (structDepth (typeOf ref))) (typeOf ref) ref
                  opts prefix in
      let fields := derrs d in
      let err :=
        match fields with
        | [] => None
        | [e] => Some e
        | _ => errors.Join (map Some fields)
        end in
      Ok (Some (VPtr t (Some (dval d))), err, dlog d)
  | _ => Ok (v, Some (sentinelError ErrNotStructPtr), [])
  end.

(** [Parse] with the options already applied to [p]. *)
Definition Parse (v : option value) (p : parseParams)
    : Result (option value * option error * list SetEvent) :=
  parseInternal v p EmptyString.

(** [ParseAs[T]] with the options already applied to [p]: [Parse] runs on a
    pointer to a fresh variable [t] of type [T]; when it returns an error,
    [*new(T)] is returned in place of [t]. *)
Definition ParseAs (T : rtype) (p : parseParams)
    : Result (value * option error * list SetEvent) :=
  let t := Zero T in
  let* '(v, err, log) := Parse (Some (VPtr (TPtr T) (Some t))) p in
  match err with
  | Some err => Ok (Zero T, Some err, log)
  | None =>
    match v with
    | Some (VPtr _ (Some t')) => Ok (t', None, log)
    | _ => Ok (t, None, log)
    end
  end.

End WithProgram.
End env.

(* ===================================================================== *)
(** * contrib/runtime/run.go: the lifecycle part of [Run] *)
(* ===================================================================== *)

Module runtime.

(** The first loop of [Run]: the map [environ] built from [os.Environ()].
    An entry is cut at its first "="; an entry without "=" is dropped, and a
    later entry for a key replaces an earlier one. *)
Definition environ (envRaw : list string) : gmap string string :=
  fold_left
    (fun environ e =>
       match strings.SplitN e "=" 2 with
       | [k; v] => <[k := v]> environ
       | _ => environ
       end)
    envRaw ∅.

(** What the orchestrator does that can be seen from outside: the lifecycle
    methods it calls (on the metric server, or on the parameter of index
    [i]) with the error each call returned, the action, and the lines it
    writes to stderr. *)
Inductive Event : Type :=
| MetricConfigure
| MetricAcquire (err : option error)
| MetricShutdown (err : option error)
| CallConfigure (i : nat) (err : option error)
| CallAcquire (i : nat) (err : option error)
| CallShutdown (i : nat) (err : option error)
| CallAction
| Stderr (format : string) (err : error).

Section WithWorld.
(** [World] is everything the lifecycle methods can read and change
    (sockets, servers, the parameters' own fields). *)
Context {World : Type}.

(** [core.EnvParam]. *)
Record EnvParam : Type := {
  Configure : World -> World * option error;
  Acquire : World -> World * option error;
  Shutdown : World -> World * option error
}.

(** [*promhttpWrapper]: [configure] stores the logger and returns nil;
    [acquire] and [shutdown] talk to the network. *)
Record promhttpWrapper : Type := {
  acquire : World -> World * option error;
  shutdown : World -> World * option error
}.

Definition ExitCode : Type := Z.

(** The state threaded through [Run]: the world and the events so far. *)
Definition St : Type := World * list Event.

(** [for _, v := range configurations { if err := v.M(...); err != nil {
    errs = append(errs, wrap(err)) } }], for the method [M]. *)
Fixpoint forEachParam (call : nat -> option error -> Event)
    (method : EnvParam -> World -> World * option error)
    (wrap : error -> error) (i : nat) (configurations : list EnvParam)
    (st : St) (errs : list error) : St * list error :=
  match configurations with
  | [] => (st, errs)
  | v :: rest =>
    let '(w, tr) := st in
    let '(w', err) := method v w in
    let errs' :=
      match err with
      | Some e => (errs ++ [wrap e])%list
      | None => errs
      end in
    forEachParam call method wrap (S i) rest
      (w', (tr ++ [call i err])%list) errs'
  end.

(** [for _, err := range errs { fmt.Fprintf(os.Stderr, format, err) }]. *)
Definition printAll (format : string) (errs : list error) (st : St) : St :=
  let '(w, tr) := st in (w, (tr ++ map (Stderr format) errs)%list).

(** [Run] from the comment [// configuring] to its end. [metricServer] is
    nil ([None]) when no metrics address is configured; its [configure]
    method assigns to a field of its receiver. *)
Definition Run (metricServer : option promhttpWrapper)
    (configurations : list EnvParam)
    (action : World -> ExitCode * World) (w : World)
    : Result (ExitCode * St) :=
  match metricServer with
  | None => Panic "invalid memory address or nil pointer dereference"
  | Some m =>
    (* configuring *)
    let st : St := (w, [MetricConfigure]) in
    let configErrs : list error := [] in
    let '(st, configErrs) :=
      forEachParam CallConfigure Configure (fun e => e) O configurations
        st configErrs in
    match configErrs with
    | _ :: _ => Ok (1, printAll "configuration error: %v" configErrs st)
    | [] =>
      let '(w, tr) := st in
      let '(w, err) := acquire m w in
      let st : St := (w, (tr ++ [MetricAcquire err])%list) in
      let acquireErrs :=
        match err with
        | Some e => [fmt.Errorf "acquiring metric server: %w" [] e]
        | None => []
        end in
      let '(st, acquireErrs) :=
        forEachParam CallAcquire Acquire
          (fmt.Errorf "acquiring %T: %w" []) O configurations
          st acquireErrs in
      match acquireErrs with
      | _ :: _ => Ok (1, printAll "acquiring resources: %v" acquireErrs st)
      | [] =>
        let '(w, tr) := st in
        let '(code, w) := action w in
        let tr := (tr ++ [CallAction])%list in
        let '(w, err) := shutdown m w in
        let st : St := (w, (tr ++ [MetricShutdown err])%list) in
        let shutdownErrs :=
          match err with
          | Some e => [fmt.Errorf "shutting down metric server: %w" [] e]
          | None => []
          end in
        let '(st, shutdownErrs) :=
          forEachParam CallShutdown Shutdown (fun e => e) O configurations
            st shutdownErrs in
        match shutdownErrs with
        | _ :: _ => Ok (1, printAll "shutdown error: %v" shutdownErrs st)
        | [] => Ok (code, st)
        end
      end
    end
  end.

End WithWorld.
Arguments EnvParam : clear implicits.
Arguments promhttpWrapper : clear implicits.

Definition isShutdown (e : Event) : bool :=
  match e with CallShutdown _ _ | MetricShutdown _ => true | _ => false end.
Definition isAction (e : Event) : bool :=
  match e with CallAction => true | _ => false end.

Definition count (f : Event -> bool) (tr : list Event) : nat :=
  List.length (List.filter f tr).

End runtime.

(* ===================================================================== *)
(** * scheduler.go *)
(* ===================================================================== *)

Module scheduler.

Definition omitContextErr (err : option error) : option error :=
  if errors.IsOpt err Canceled || errors.IsOpt err DeadlineExceeded
  then None
  else err.

(** Where the goroutine of one job stands in
    [if err := omitContextErr(job(jobCtx)); err != nil { lock; append;
    unlock; cancel() }; wg.Done()]. From [Returned] on, the value the job
    function returned is kept. *)
Inductive goroutine : Type :=
| Running
| Returned (r : option error)
| Appended (r : option error)
| CancelCalled (r : option error)
| Finished (r : option error).

(** The shared state of one [RunJobs] call: the goroutines, the slice
    [errs] (guarded by [errsMux]), whether [jobCtx] is cancelled, the
    [WaitGroup] counter, and the value [RunJobs] returned, once it has. *)
Record state : Type := {
  goroutines : list goroutine;
  errs : list error;
  cancelled : bool;
  wg : nat;
  result : option (option error)
}.

(** One atomic step of the interleaving: the job function of goroutine [i]
    returns [r]; goroutine [i] runs its next statement; the caller's
    context is cancelled; [wg.Wait] returns in the main goroutine. *)
Inductive event : Type :=
| JobReturns (i : nat) (r : option error)
| Advance (i : nat)
| CallerCancels
| WaitReturns.

Definition setGoroutine (i : nat) (g : goroutine) (st : state) : state :=
  {| goroutines := <[i := g]> (goroutines st);
     errs := errs st; cancelled := cancelled st;
     wg := wg st; result := result st |}.

Definition step (st : state) (ev : event) : option state :=
  match ev with
  | JobReturns i r =>
    match goroutines st !! i with
    | Some Running => Some (setGoroutine i (Returned r) st)
    | _ => None
    end
  | Advance i =>
    match goroutines st !! i with
    | Some (Returned r) =>
      match omitContextErr r with
      | Some err =>
        Some {| goroutines := <[i := Appended r]> (goroutines st);
                errs := (errs st ++ [err])%list;
                cancelled := cancelled st;
                wg := wg st; result := result st |}
      | None =>
        Some {| goroutines := <[i := Finished r]> (goroutines st);
                errs := errs st; cancelled := cancelled st;
                wg := Nat.pred (wg st); result := result st |}
      end
    | Some (Appended r) =>
      Some {| goroutines := <[i := CancelCalled r]> (goroutines st);
              errs := errs st; cancelled := true;
              wg := wg st; result := result st |}
    | Some (CancelCalled r) =>
      Some {| goroutines := <[i := Finished r]> (goroutines st);
              errs := errs st; cancelled := cancelled st;
              wg := Nat.pred (wg st); result := result st |}
    | _ => None
    end
  | CallerCancels =>
    Some {| goroutines := goroutines st; errs := errs st; cancelled := true;
            wg := wg st; result := result st |}
  | WaitReturns =>
    match wg st, result st with
    | O, None =>
      Some {| goroutines := goroutines st; errs := errs st;
              cancelled := true; wg := wg st;
              result := Some (errors.Join (map Some (errs st))) |}
    | _, _ => None
    end
  end.

Fixpoint exec (st : state) (evs : list event) : option state :=
  match evs with
  | [] => Some st
  | ev :: evs' =>
    match step st ev with
    | Some st' => exec st' evs'
    | None => None
    end
  end.

(** [RunJobs(ctx, jobs...)] with [n] jobs, at the point where every
    goroutine has been started and the main goroutine is in [wg.Wait]. *)
Definition RunJobs (n : nat) : state :=
  {| goroutines := repeat Running n; errs := []; cancelled := false;
     wg := n; result := None |}.

End scheduler.
(* ===================================================================== *)
(** * contrib/secrets/multi.go *)
(* ===================================================================== *)

Module secrets.

(** [io.ErrClosedPipe]. *)
Definition ErrClosedPipe : sentinel := OtherSentinel "io: read/write on closed pipe".

(** [secrets.Secret]: the two implementations of package secrets, and
    those of the storages. *)
Inductive Secret : Type :=
| emptySecret
| plainSecret (data : string)
| storedSecret (name : string).

Definition NewEmptySecret : Secret := emptySecret.
Definition NewPlainSecret (data : string) : Secret := plainSecret data.

(** The fields of [*url.URL] that [GetSecret] reads. *)
Record URL : Type := { Scheme : string; Opaque : string }.

Section WithWorld.
(** [World] is what the storages can read and change; [url.Parse] and
    [dataurl.DecodeString] are library functions. *)
Context {World : Type}
        (url_Parse : string -> URL * option error)
        (dataurl_DecodeString : string -> string * option error).

(** [secrets.Engine]. *)
Record Engine : Type := {
  GetSecret : string -> World -> World * (option Secret * option error);
  Close : World -> World * option error
}.

(** [multiEngine]; [closed] is read and written atomically, the model is
    that of calls that do not overlap. *)
Record multiEngine : Type := {
  closed : bool;
  storages : gmap string Engine
}.

Definition multiEngine_GetSecret (e : multiEngine) (addr : string) (w : World)
    : World * (option Secret * option error) :=
  if closed e then (w, (None, Some (sentinelError ErrClosedPipe)))
  else if String.eqb addr "" then (w, (Some NewEmptySecret, None))
  else if strings.HasPrefix addr "data:" then
    match dataurl_DecodeString addr with
    | (_, Some err) => (w, (None, Some (fmt.Errorf "decoding data URL: %w" [] err)))
    | (data, None) => (w, (Some (NewPlainSecret data), None))
    end
  else
    match url_Parse addr with
    | (_, Some err) =>
      (w, (None, Some (fmt.Errorf "parsing secret URL %q: %w" [addr] err)))
    | (key, None) =>
      match storages e !! Scheme key with
      | None => (w, (None, Some (opaqueError "no storage for scheme %q" [])))
      | Some storage =>
        let '(w, (secret, err)) := GetSecret storage (Opaque key) w in
        match err with
        | Some err =>
          (w, (None,
               Some (fmt.Errorf "failed to get secret from storage: %w" [] err)))
        | None => (w, (secret, None))
        end
      end
    end.

(** The loop of [Close] over the storages named by [order], the order in
    which [range] visits the map. *)
Fixpoint closeAll (e : multiEngine) (order : list string) (w : World)
    (errs : list error) : World * list error :=
  match order with
  | [] => (w, errs)
  | k :: rest =>
    match storages e !! k with
    | None => closeAll e rest w errs
    | Some s =>
      let '(w, err) := Close s w in
      closeAll e rest w
        (match err with Some err => errs ++ [err] | None => errs end)%list
    end
  end.

Definition multiEngine_Close (order : list string) (e : multiEngine)
    (w : World) : multiEngine * World * option error :=
  if negb (closed e)
  then ({| closed := true; storages := storages e |}, w, None)
  else
    let '(w, errs) := closeAll e order w [] in
    (e, w, errors.Join (map Some errs)).

End WithWorld.
Arguments Engine : clear implicits.
Arguments multiEngine : clear implicits.

End secrets.


(* ===================================================================== *)
(** * Package encoding/hex *)
(* ===================================================================== *)

Module hex.

Definition hextable : string := "0123456789abcdef".

(** [fromHexChar]: the value of a hexadecimal digit. *)
Definition fromHexChar (c : ascii) : option Z :=
  let b := utf8.byteZ c in
  if (48 <=? b) && (b <=? 57) then Some (b - 48)
  else if (97 <=? b) && (b <=? 102) then Some (b - 97 + 10)
  else if (65 <=? b) && (b <=? 70) then Some (b - 65 + 10)
  else None.

Definition InvalidByteError : error := opaqueError "encoding/hex: invalid byte" [].
Definition ErrLength : error :=
  sentinelError (OtherSentinel "encoding/hex: odd length hex string").

(** [hex.DecodeString]: the bytes decoded before the error, and the error. *)
Fixpoint DecodeString (s : string) : string * option error :=
  match s with
  | EmptyString => (EmptyString, None)
  | String p EmptyString =>
    match fromHexChar p with
    | None => (EmptyString, Some InvalidByteError)
    | Some _ => (EmptyString, Some ErrLength)
    end
  | String p (String q rest) =>
    match fromHexChar p, fromHexChar q with
    | Some a, Some b =>
      let '(data, err) := DecodeString rest in
      (String (utf8.Zbyte (Z.lor (Z.shiftl a 4) b)) data, err)
    | _, _ => (EmptyString, Some InvalidByteError)
    end
  end.

Definition digit (n : Z) : ascii :=
  match String.get (Z.to_nat n) hextable with
  | Some c => c
  | None => "0"%char
  end.

(** [hex.EncodeToString]. *)
Fixpoint EncodeToString (src : string) : string :=
  match src with
  | EmptyString => EmptyString
  | String v rest =>
    String (digit (Z.shiftr (utf8.byteZ v) 4))
      (String (digit (Z.land (utf8.byteZ v) 15)) (EncodeToString rest))
  end.

End hex.

(* ===================================================================== *)
(** * version.go *)
(* ===================================================================== *)

Module version.

Definition DefaultVersion : string := "v0.0.0-dev".
Definition DefaultCommit : string := "none".
Definition DefaultDate : string := "unknown".

Definition sha1_Size : nat := 20.

(** [copy(hash[:], src)] into the zero value of [[sha1.Size]byte]. *)
Definition copyHash (src : string) : string :=
  let taken := strings.take sha1_Size src in
  String.append taken
    (string_of_list_ascii
       (repeat zero (sha1_Size - String.length taken))).

Section WithLibraries.
(** [semver.IsValid], [time.Time] with its zero value, and [time.Parse],
    [Time.Format] for the layout [time.RFC3339]. *)
Context (semver_IsValid : string -> bool)
        {Time : Type} (zeroTime : Time)
        (time_Parse : string -> Time * option error)
        (time_Format : Time -> string).

Record AppVersion : Type := {
  date : Time;
  versionRaw : string;
  commitRaw : string;
  dateRaw : string;
  version : string;
  commit : string;
  versionValid : bool;
  commitValid : bool;
  dateValid : bool
}.

Definition buildVersion (v : string) : string * bool := (v, semver_IsValid v).

Definition buildCommitHash (h : string) : string * bool :=
  match hex.DecodeString h with
  | (_, Some _) => (copyHash h, false)
  | (data, None) => (copyHash data, Nat.eqb (String.length data) sha1_Size)
  end.

Definition buildDate (d : string) : Time * bool :=
  match time_Parse d with
  | (_, Some _) => (zeroTime, false)
  | (date, None) => (date, true)
  end.

Definition NewVersion (versionRaw commitRaw dateRaw : string) : AppVersion :=
  let versionRaw := if String.eqb versionRaw "" then DefaultVersion
                    else versionRaw in
  let commitRaw := if String.eqb commitRaw "" then DefaultCommit
                   else commitRaw in
  let dateRaw := if String.eqb dateRaw "" then DefaultDate else dateRaw in
  let '(version, versionValid) := buildVersion versionRaw in
  let '(commit, commitHashValid) := buildCommitHash commitRaw in
  let '(date, dateValid) := buildDate dateRaw in
  {| versionRaw := versionRaw; commitRaw := commitRaw; dateRaw := dateRaw;
     version := version; commit := commit; date := date;
     versionValid := versionValid; commitValid := commitHashValid;
     dateValid := dateValid |}.

Definition Valid (v : AppVersion) : bool :=
  versionValid v && commitValid v && dateValid v.

Definition Version (v : AppVersion) : string * bool :=
  (version v, versionValid v).

Definition CommitHash (v : AppVersion) : string * bool :=
  (commit v, commitValid v).

Definition Date (v : AppVersion) : Time * bool := (date v, dateValid v).

Definition ShortHash (v : AppVersion) : string * bool :=
  (strings.take 7 (commit v), commitValid v).

Definition VersionCommit (v : AppVersion) : string * bool :=
  let '(version, versionValid) := Version v in
  let '(commitShort, commitValid) := ShortHash v in
  (String.append version (String.append "#" (hex.EncodeToString commitShort)),
   versionValid && commitValid).

Definition String_ (v : AppVersion) : string :=
  let res := String.append (versionRaw v) "-" in
  let res :=
    let '(hashShort, ok) := ShortHash v in
    if ok then String.append res (hex.EncodeToString hashShort)
    else String.append res (commitRaw v) in
  let res := String.append res "-" in
  let '(date, ok) := Date v in
  if ok then String.append res (time_Format date)
  else String.append res (dateRaw v).

End WithLibraries.
End version.


(* ===================================================================== *)
(** * Definitions used to state the properties *)
(* ===================================================================== *)

(** Decimal numerals, as the specification reads them: a non-empty run of
    digits, for a signed number after an optional sign. *)
Module decimal.
Fixpoint allDigits (s : string) : bool :=
  match s with
  | EmptyString => true
  | String c s' => strconv.isDigit c && allDigits s'
  end.
Fixpoint valueFrom (n : Z) (s : string) : Z :=
  match s with
  | EmptyString => n
  | String c s' => valueFrom (10 * n + (utf8.byteZ c - 48)) s'
  end.
Definition isUnsigned (s : string) : bool :=
  match s with
  | EmptyString => false
  | _ => allDigits s
  end.
Definition isSigned (s : string) : bool :=
  match s with
  | EmptyString => false
  | String c rest =>
    if Ascii.eqb c "+" || Ascii.eqb c "-" then isUnsigned rest else isUnsigned s
  end.
Definition unsignedValue (s : string) : Z := valueFrom 0 s.
Definition signedValue (s : string) : Z :=
  match s with
  | EmptyString => 0
  | String c rest =>
    if Ascii.eqb c "-" then - unsignedValue rest
    else if Ascii.eqb c "+" then unsignedValue rest
    else unsignedValue s
  end.
Definition isDecimal (signed : bool) (s : string) : bool :=
  if signed then isSigned s else isUnsigned s.
Definition valueOf (signed : bool) (s : string) : Z :=
  if signed then signedValue s else unsignedValue s.
Definition fits32 (signed : bool) (n : Z) : bool :=
  if signed then (- 2 ^ 31 <=? n) && (n <=? 2 ^ 31 - 1)
  else (0 <=? n) && (n <=? 2 ^ 32 - 1).
End decimal.

Section LifecycleTraces.
Import runtime.

(** The events of one phase: one call per parameter, in order, each with
    the error it returned. *)
Fixpoint phaseEvents (call : nat -> option error -> Event) (i : nat)
    (rs : list (option error)) : list Event :=
  match rs with
  | [] => []
  | r :: rs' => call i r :: phaseEvents call (S i) rs'
  end.

End LifecycleTraces.

Section Interleavings.
Import scheduler.

(** The error a goroutine has appended to [errs] so far. *)
Definition appended (g : goroutine) : option error :=
  match g with
  | Appended r | CancelCalled r | Finished r => omitContextErr r
  | Running | Returned _ => None
  end.

Definition isFinished (g : goroutine) : bool :=
  match g with Finished _ => true | _ => false end.

Definition pending (gs : list goroutine) : nat :=
  List.length (List.filter (fun g => negb (isFinished g)) gs).

Record Inv (n : nat) (st : state) : Prop := {
  inv_length : List.length (goroutines st) = n;
  inv_wg : wg st = pending (goroutines st);
  inv_errs : Permutation (errs st) (omap appended (goroutines st));
  inv_result : forall res, result st = Some res ->
     pending (goroutines st) = O /\ res = errors.Join (map Some (errs st))
}.

(** The schedule that runs the jobs one after the other. *)
Definition runToEnd (i : nat) (r : option error) : list event :=
  JobReturns i r :: Advance i ::
  match omitContextErr r with
  | Some _ => [Advance i; Advance i]
  | None => []
  end.

Fixpoint sequential (i : nat) (rs : list (option error)) : list event :=
  match rs with
  | [] => []
  | r :: rs' => (runToEnd i r ++ sequential (S i) rs')%list
  end.

End Interleavings.





(** The text a field is decoded from and whether it is the default: the
    value of its variable when that is set and not empty, otherwise its
    default when it declares one. *)
Definition resolveText (p : env.parseParams) (f : env.fieldParams)
    : option (string * bool) :=
  match env.getEnv p (env.key f) with
  | Some (String c s) => Some (String c s, false)
  | _ => if env.defaultSet f then Some (env.DefaultValue f, true) else None
  end.

(** The results of decoding the fields [fs] one by one into the places
    [vs], as [setStruct] visits them. *)
Fixpoint fieldResults
    (fieldFn : value -> StructField -> env.parseParams -> string
               -> Result env.decoded)
    (p : env.parseParams) (prefix : string)
    (fs : list StructField) (vs : list value) (ds : list env.decoded) : Prop :=
  match fs, ds with
  | [], [] => True
  | f :: fs', d :: ds' =>
    fieldFn (match vs with v :: _ => v | [] => Zero (fieldType f) end) f p
      (env.structTagPrefix prefix f) = Ok d
    /\ fieldResults fieldFn p prefix fs' (tail vs) ds'
  | _, _ => False
  end.

(** [parseInternal]'s switch on the number of field errors. *)
Definition aggregate (errs : list error) : option error :=
  match errs with
  | [] => None
  | [e] => Some e
  | e1 :: e2 :: es => Some (joinError (e1 :: e2 :: es))
  end.

(* ===================================================================== *)
(** * More definitions used to state properties *)
(* ===================================================================== *)

(** The outcome [d] of decoding, stored behind a pointer of type [typ]. *)
Definition storedBehind (typ : rtype) (d : env.decoded) : env.decoded :=
  {| env.dval := VPtr typ (Some (env.dval d));
     env.derrs := env.derrs d; env.dlog := env.dlog d |}.

(** A field error whose key begins with [pre]; an observer call whose tag
    begins with [pre]. *)
Definition keyedUnder (pre : string) (e : error) : bool :=
  match e with
  | FieldError k _ _ => strings.HasPrefix k pre
  | _ => false
  end.

Definition taggedUnder (pre : string) (ev : env.SetEvent) : bool :=
  strings.HasPrefix (fst (fst ev)) pre.

(** The field errors behind the error [Parse] returns: the error itself,
    or the errors that were joined. *)
Definition fieldErrors (err : option error) : list error :=
  match err with
  | Some (joinError es) => es
  | Some e => [e]
  | None => []
  end.

(** The options [p] without the variables that are set to the empty
    text. *)
Definition withoutEmpty (p : env.parseParams) : env.parseParams :=
  {| env.environment :=
       filter (fun kv => snd kv <> EmptyString) (env.environment p);
     env.prefix := env.prefix p;
     env.onSet := env.onSet p |}.

(** Every error and every observer call of an outcome carries a key that
    begins with [pre]. *)
Definition KeysUnder (pre : string) (d : env.decoded) : Prop :=
  Forall (fun e => keyedUnder pre e = true) (env.derrs d) /\
  Forall (fun ev => taggedUnder pre ev = true) (env.dlog d).

Section MoreLifecycleTraces.
Import runtime.

(** More events to count in a trace. *)
Definition isConfigureOf (i : nat) (e : Event) : bool :=
  match e with CallConfigure j _ => Nat.eqb i j | _ => false end.

Definition isAcquire (e : Event) : bool :=
  match e with CallAcquire _ _ | MetricAcquire _ => true | _ => false end.

(** The errors the shutdown phase collects from the result [r] of the
    metric server and the results [rs] of the parameters. *)
Definition shutdownErrors (r : option error) (rs : list (option error))
    : list error :=
  (match r with
   | Some e => [fmt.Errorf "shutting down metric server: %w" [] e]
   | None => []
   end ++ omap id rs)%list.

End MoreLifecycleTraces.

Section Cancellation.
Import scheduler.




End Cancellation.

(** Shapes of a generated variable name. *)
Definition isUnderscore (a : ascii) : bool := Ascii.eqb a "_".

Definition startsWithUnderscore (s : string) : bool :=
  match s with
  | String a _ => isUnderscore a
  | EmptyString => false
  end.

Fixpoint endsWithUnderscore (s : string) : bool :=
  match s with
  | EmptyString => false
  | String a EmptyString => isUnderscore a
  | String _ t => endsWithUnderscore t
  end.

Fixpoint hasDoubleUnderscore (s : string) : bool :=
  match s with
  | String a t => (isUnderscore a && startsWithUnderscore t) || hasDoubleUnderscore t
  | EmptyString => false
  end.

Fixpoint hasUnderscore (s : string) : bool :=
  match s with
  | String a t => isUnderscore a || hasUnderscore t
  | EmptyString => false
  end.

(** What the loop of [toEnvName] keeps of the text it has built: it does
    not begin with an underscore, holds no two underscores in a row, and
    ends with an underscore only when the class of the last rune read is
    [clUnderscore]. *)
Definition wellFormed (b : string) (prevClass : Z) : Prop :=
  startsWithUnderscore b = false /\
  hasDoubleUnderscore b = false /\
  (endsWithUnderscore b = true -> prevClass = env.clUnderscore).

(** Hexadecimal texts. *)
Fixpoint allHex (s : string) : bool :=
  match s with
  | EmptyString => true
  | String c s' =>
    match hex.fromHexChar c with Some _ => allHex s' | None => false end
  end.

(** A hexadecimal digit in lower case. *)
Definition lowerHexChar (c : ascii) : ascii :=
  let b := utf8.byteZ c in
  if (65 <=? b) && (b <=? 70) then utf8.Zbyte (b + 32) else c.

Fixpoint lowerHex (s : string) : string :=
  match s with
  | EmptyString => EmptyString
  | String c s' => String (lowerHexChar c) (lowerHex s')
  end.


(* ===================================================================== *)
(** * A program to run the decoder on *)
(* ===================================================================== *)

Module example.

(** [type LogLevel int8] with [func (l *LogLevel) UnmarshalText], as in
    env_test.go: "debug" is -1, "info" is 0, anything else an error. *)
Definition LogLevel : rtype := TNamed "LogLevel" (TBasic BInt8).

(** A type whose [UnmarshalText] has a value receiver and accepts every
    text. *)
Definition Label : rtype := TNamed "Label" (TBasic BString).

Definition unknownLevel : error := sentinelError (OtherSentinel "unknown level").

(** A 64-bit program whose only text-decodable types are [LogLevel]
    (pointer receiver) and [Label] (value receiver). The library functions
    it does not use are stubs; the character classes are those of ASCII. *)
Definition program : Program := {|
  IntSize := 64;
  Implements := fun t u =>
    rtype_eqb u internal.unmarshalTyp
    && (rtype_eqb t (TPtr LogLevel) || rtype_eqb t Label
        || rtype_eqb t (TPtr Label));
  UnmarshalTextValue := fun _ _ => None;
  UnmarshalTextPtr := fun _ raw v =>
    if String.eqb raw "debug" then (VInt LogLevel (-1), None)
    else if String.eqb raw "info" then (VInt LogLevel 0, None)
    else (v, Some unknownLevel);
  strconv_ParseFloat := fun _ _ => (0, None);
  url_Parse := fun _ => (VOpaque std_parsers.url_URL EmptyString, None);
  time_ParseDuration := fun _ => (0, None);
  time_LoadLocation := fun _ =>
    (VOpaque std_parsers.time_Location EmptyString, None);
  slog_Level_UnmarshalText := fun _ => (0, None);
  strings_ToUpper := fun s => s;
  unicode_IsLower := fun r => (97 <=? r) && (r <=? 122);
  unicode_IsUpper := fun r => (65 <=? r) && (r <=? 90);
  unicode_IsDigit := fun r => (48 <=? r) && (r <=? 57);
  unicode_ToUpper := fun r => if (97 <=? r) && (r <=? 122) then r - 32 else r
|}.

Definition registry : internal.Registry := internal.envRegistry program.

(** [struct { Port int `env:"PORT"`; Host string `env:"HOST"
    default:"0.0.0.0"` }]. *)
Definition Config : rtype := TNamed "Config" (TStruct [
  mkStructField "Port" true (TBasic BInt) [("env", "PORT")];
  mkStructField "Host" true (TBasic BString)
    [("env", "HOST"); ("default", "0.0.0.0")]
]).

Definition withEnvironment (e : gmap string string) : env.parseParams :=
  {| env.environment := e; env.prefix := EmptyString; env.onSet := true |}.

Definition bothSet : gmap string string :=
  <["PORT" := "3000"]> (<["HOST" := "localhost"]> ∅).

Definition hostAbsent : gmap string string := <["PORT" := "3000"]> ∅.

(** [struct { Foo struct { Number int `env:"NUMBER"` } }], the nested
    record of TestParsesEnvInnerFails. *)
Definition Inner : rtype :=
  TStruct [mkStructField "Number" true (TBasic BInt) [("env", "NUMBER")]].

Definition Outer : rtype :=
  TNamed "config" (TStruct [mkStructField "Foo" true Inner []]).

Definition numberSet : gmap string string := <["NUMBER" := "12"]> ∅.

(** A struct type no parser is registered for. *)
Definition Plain : rtype := TNamed "Plain" (TStruct []).

(** [struct { Ports []int `env:"PORTS"` }] and
    [struct { Limits map[string]int `env:"LIMITS"` }]. *)
Definition intSlice : rtype := TSlice (TBasic BInt).
Definition stringIntMap : rtype := TMap (TBasic BString) (TBasic BInt).

Definition fieldNamed (k : string) : env.fieldParams :=
  {| env.key := k; env.DefaultValue := EmptyString; env.separator := ",";
     env.kvSeparator := ":"; env.defaultSet := false; env.ignored := false |}.

(** Resources for the orchestrator: the world is the list of resources
    that are open. Parameter [i] opens resource [i] in [Acquire] and closes
    it in [Shutdown]; [failing] cannot open its resource. *)
Definition opening (i : nat) : runtime.EnvParam (list nat) := {|
  runtime.Configure := fun w => (w, None);
  runtime.Acquire := fun w => ((w ++ [i])%list, None);
  runtime.Shutdown := fun w => (List.filter (fun j => negb (Nat.eqb i j)) w, None)
|}.



Definition metrics : runtime.promhttpWrapper (list nat) := {|
  runtime.acquire := fun w => (w, None);
  runtime.shutdown := fun w => (w, None)
|}.

Definition action : list nat -> runtime.ExitCode * list nat :=
  fun w => (0, w).

Definition boom : error := sentinelError (OtherSentinel "boom").

(** [struct { Name string `env:"NAME"`; Count int `env:"COUNT"` }]: two
    fields without defaults. *)
Definition Required : rtype := TNamed "Required" (TStruct [
  mkStructField "Name" true (TBasic BString) [("env", "NAME")];
  mkStructField "Count" true (TBasic BInt) [("env", "COUNT")]
]).

Definition levelField (n : nat) : StructField :=
  mkStructField "Level" true (PtrN n LogLevel) [("env", "LEVEL")].

Definition labelField : StructField :=
  mkStructField "Label" true Label [("env", "LABEL")].

(** Two jobs: the first fails with [boom], the second returns
    [context.Canceled]; their goroutines are interleaved. *)
Definition schedule : list scheduler.event := [
  scheduler.JobReturns 0 (Some boom);
  scheduler.JobReturns 1 (Some (sentinelError Canceled));
  scheduler.Advance 0;
  scheduler.Advance 1;
  scheduler.Advance 0;
  scheduler.Advance 0;
  scheduler.WaitReturns
].

Definition afterSchedule : scheduler.state := {|
  scheduler.goroutines :=
    [scheduler.Finished (Some boom);
     scheduler.Finished (Some (sentinelError Canceled))];
  scheduler.errs := [boom];
  scheduler.cancelled := true;
  scheduler.wg := O;
  scheduler.result := Some (Some (joinError [boom]))
|}.

End example.
(* ===================================================================== *)
(** * More inputs *)
(* ===================================================================== *)

Module sample.

(** [struct { Port int `env:"PORT,required"` }]. *)
Definition optionField : StructField :=
  mkStructField "Port" true (TBasic BInt) [("env", "PORT,required")].

Definition WithOption : rtype := TNamed "WithOption" (TStruct [optionField]).

(** [Done chan int `env:"-"`]. *)
Definition dashField : StructField :=
  mkStructField "Done" true (TChan (TBasic BInt)) [("env", "-")].

(** [Port *int `env:"PORT"`], [Port **int `env:"PORT"`] and so on. *)
Definition portField (n : nat) : StructField :=
  mkStructField "Port" true (PtrN n (TBasic BInt)) [("env", "PORT")].

(** [Ports []*int `env:"PORTS"`]. *)
Definition pointerSlice : rtype := TSlice (TPtr (TBasic BInt)).

(** [File fs.File `env:"FILE"`]. *)
Definition fileField : StructField :=
  mkStructField "File" true std_parsers.fs_File [("env", "FILE")].

(** HOST is set to the empty text. *)
Definition hostEmpty : gmap string string :=
  <["PORT" := "3000"]> (<["HOST" := ""]> ∅).

Definition withPrefix (prefix : string) (e : gmap string string)
    : env.parseParams :=
  {| env.environment := e; env.prefix := prefix; env.onSet := true |}.

Definition badAddress : error := sentinelError (OtherSentinel "bad address").

(** A parameter whose Configure fails. *)
Definition rejecting : runtime.EnvParam (list nat) := {|
  runtime.Configure := fun w => (w, Some badAddress);
  runtime.Acquire := fun w => (w, None);
  runtime.Shutdown := fun w => (w, None)
|}.


(** A secret engine over one storage; the world is the list of the
    storages that were closed. *)
Definition vault : secrets.Engine (list string) := {|
  secrets.GetSecret := fun key w => (w, (Some (secrets.storedSecret key), None));
  secrets.Close := fun w => ((w ++ ["vault"])%list, None)
|}.

Definition engine : secrets.multiEngine (list string) := {|
  secrets.closed := false;
  secrets.storages := <["vault" := vault]> ∅
|}.

Definition parseURL (addr : string) : secrets.URL * option error :=
  ({| secrets.Scheme := "vault"; secrets.Opaque := addr |}, None).

Definition decodeDataURL (addr : string) : string * option error :=
  (addr, None).

End sample.

(* ===================================================================== *)
(** * The library models on small inputs *)
(* ===================================================================== *)

Example Split_commas :
  strings.Split "a,b,,c" "," = ["a"; "b"; ""; "c"].
Proof. reflexivity. Qed.

Example Split_empty_text : strings.Split "" "," = [""].
Proof. reflexivity. Qed.

Example Split_empty_separator : strings.Split "abc" "" = ["a"; "b"; "c"].
Proof. reflexivity. Qed.

Example Split_overlapping : strings.Split "aaa" "aa" = [""; "a"].
Proof. reflexivity. Qed.

Example SplitN_first_separator_only :
  strings.SplitN "k:v:w" ":" 2 = ["k"; "v:w"].
Proof. reflexivity. Qed.

Example SplitN_no_separator : strings.SplitN "kv" ":" 2 = ["kv"].
Proof. reflexivity. Qed.

Example ParseInt_max : strconv.ParseInt "2147483647" 32 = (2147483647, None).
Proof. reflexivity. Qed.

Example ParseInt_min :
  strconv.ParseInt "-2147483648" 32 = (-2147483648, None).
Proof. reflexivity. Qed.

Example ParseInt_over :
  strconv.ParseInt "2147483648" 32
  = (2147483647, Some (NumError "ParseInt" "2147483648" ErrRange)).
Proof. reflexivity. Qed.

Example ParseInt_not_a_number :
  strconv.ParseInt "not-a-number" 32
  = (0, Some (NumError "ParseInt" "not-a-number" ErrSyntax)).
Proof. reflexivity. Qed.

Example ParseUint_sign :
  strconv.ParseUint "-547" 32
  = (0, Some (NumError "ParseUint" "-547" ErrSyntax)).
Proof. reflexivity. Qed.

Example ParseUint_64_bits :
  strconv.ParseUint "18446744073709551616" 64
  = (18446744073709551615,
     Some (NumError "ParseUint" "18446744073709551616" ErrRange)).
Proof. reflexivity. Qed.

(** Entries of the table of TestToEnv. *)
Example toEnvName_table :
  map (env.toEnvName example.program)
    ["Foo"; "FooBar"; "FOOBar"; "Foo____Bar"; "fooBar"; "HTTPPort";
     "_PortHTTP"]
  = ["FOO"; "FOO_BAR"; "FOO_BAR"; "FOO_BAR"; "FOO_BAR"; "HTTP_PORT";
     "PORT_HTTP"].
Proof. vm_compute. reflexivity. Qed.

(** A second parser for a registered type is refused. *)
Lemma RegisterEnvParser_duplicate reg typ f g :
  internal.registryLookup reg typ = Some f ->
  internal.RegisterEnvParser reg typ g = Panic "parser already registered".
Proof. intros H. unfold internal.RegisterEnvParser. rewrite H. reflexivity. Qed.

(* ===================================================================== *)
(** * Type identity *)
(* ===================================================================== *)

Lemma rtype_eqb_refl : forall t, rtype_eqb t t = true.
Proof.
  fix IH 1. intros t. destruct t as [b|n u|e|e|n e|e|k e|fs|n|n]; simpl.
  - apply bool_decide_eq_true. reflexivity.
  - rewrite String.eqb_refl, IH. reflexivity.
  - apply IH.
  - apply IH.
  - rewrite Nat.eqb_refl, IH. reflexivity.
  - apply IH.
  - rewrite !IH. reflexivity.
  - revert fs. fix IHfs 1. intros [|f fs]; [reflexivity|].
    destruct f as [n e t tag]. simpl.
    rewrite String.eqb_refl, eqb_reflx, IH. simpl.
    unfold tag_eqb. rewrite bool_decide_eq_true_2 by reflexivity. simpl.
    apply IHfs.
  - apply String.eqb_refl.
  - apply String.eqb_refl.
Qed.

(* ===================================================================== *)
(** * errors.Join *)
(* ===================================================================== *)

Lemma omap_id_Some {A} (es : list A) : omap id (map Some es) = es.
Proof. induction es as [|e es IH]; simpl; [done | f_equal; exact IH]. Qed.

Lemma Join_map_Some (es : list error) :
  errors.Join (map Some es) =
  match es with [] => None | e :: l => Some (joinError (e :: l)) end.
Proof. unfold errors.Join. rewrite omap_id_Some. destruct es; done. Qed.


(* ===================================================================== *)
(** * strconv: the parsers read decimal numerals *)
(* ===================================================================== *)

Lemma isDigit_range c :
  strconv.isDigit c = true -> 0 <= utf8.byteZ c - 48 <= 9.
Proof. unfold strconv.isDigit. intros H. apply andb_true_iff in H as [H1 H2]. lia. Qed.

Lemma valueFrom_ge s : forall n,
  0 <= n -> decimal.allDigits s = true -> n <= decimal.valueFrom n s.
Proof.
  induction s as [|c s IH]; intros n Hn Hd; simpl in *; [lia|].
  apply andb_true_iff in Hd as [Hc Hs].
  pose proof (isDigit_range c Hc).
  specialize (IH (10 * n + (utf8.byteZ c - 48)) ltac:(lia) Hs). lia.
Qed.

Lemma parseUintLoop_spec s0 maxVal s : forall n,
  0 <= maxVal < 2 ^ 64 -> 0 <= n <= maxVal ->
  decimal.allDigits s = true ->
  strconv.parseUintLoop s0 maxVal n s =
    if decimal.valueFrom n s <=? maxVal
    then (decimal.valueFrom n s, None)
    else (maxVal, Some (strconv.rangeError "ParseUint" s0)).
Proof.
  induction s as [|c s IH]; intros n Hm Hn Hd; simpl in *.
  - destruct (Z.leb_spec n maxVal); [done | lia].
  - apply andb_true_iff in Hd as [Hc Hs]. rewrite Hc. simpl.
    pose proof (isDigit_range c Hc) as Hdr.
    set (d := utf8.byteZ c - 48) in *.
    assert (Hcut : strconv.maxUint64 / 10 + 1 = 1844674407370955162) by reflexivity.
    rewrite Hcut.
    assert (H64 : 2 ^ 64 = 18446744073709551616) by reflexivity.
    pose proof (valueFrom_ge s (10 * n + d) ltac:(lia) Hs) as Hge.
    destruct (Z.leb_spec 1844674407370955162 n) as [Hbig|Hsmall].
    + destruct (Z.leb_spec (decimal.valueFrom (10 * n + d) s) maxVal); [lia | done].
    + rewrite (Z.mod_small (n * 10)) by lia.
      destruct (Z.lt_ge_cases (n * 10 + d) (2 ^ 64)) as [Hfit|Hover].
      * rewrite (Z.mod_small (n * 10 + d)) by lia.
        destruct (Z.ltb_spec (n * 10 + d) (n * 10)); [lia|]. simpl.
        destruct (Z.ltb_spec maxVal (n * 10 + d)) as [Hgt|Hle].
        -- destruct (Z.leb_spec (decimal.valueFrom (10 * n + d) s) maxVal); [lia | done].
        -- replace (n * 10 + d) with (10 * n + d) by lia.
           apply IH; [lia | lia | done].
      * assert (Hw : (n * 10 + d) mod 2 ^ 64 = n * 10 + d - 2 ^ 64).
        { symmetry. apply Z.mod_unique with (q := 1); lia. }
        rewrite Hw.
        destruct (Z.ltb_spec (n * 10 + d - 2 ^ 64) (n * 10)); [|lia]. simpl.
        destruct (Z.leb_spec (decimal.valueFrom (10 * n + d) s) maxVal); [lia | done].
Qed.

Lemma ParseUint_spec s bitSize :
  0 < bitSize <= 64 -> decimal.isUnsigned s = true ->
  strconv.ParseUint s bitSize =
    if decimal.unsignedValue s <=? 2 ^ bitSize - 1
    then (decimal.unsignedValue s, None)
    else (2 ^ bitSize - 1, Some (strconv.rangeError "ParseUint" s)).
Proof.
  intros Hb Hs. destruct s as [|c s]; [done|].
  unfold strconv.ParseUint, decimal.unsignedValue.
  assert (0 < 2 ^ bitSize <= 2 ^ 64).
  { split; [apply Z.pow_pos_nonneg; lia | apply Z.pow_le_mono_r; lia]. }
  apply parseUintLoop_spec; [lia | lia | done].
Qed.

Lemma ParseInt_spec s bitSize :
  1 < bitSize <= 64 -> decimal.isSigned s = true ->
  strconv.ParseInt s bitSize =
    let v := decimal.signedValue s in
    if (- 2 ^ (bitSize - 1) <=? v) && (v <=? 2 ^ (bitSize - 1) - 1)
    then (v, None)
    else ((if v <? 0 then - 2 ^ (bitSize - 1) else 2 ^ (bitSize - 1) - 1),
          Some (strconv.rangeError "ParseInt" s)).
Proof.
  intros Hb' Hs. destruct s as [|c rest]; [done|].
  assert (Hb : 0 < bitSize <= 64) by lia.
  assert (Hpow : 2 ^ bitSize = 2 * 2 ^ (bitSize - 1)).
  { rewrite <- Z.pow_succ_r by lia. f_equal. lia. }
  assert (Hpos : 2 <= 2 ^ (bitSize - 1)).
  { change 2 with (2 ^ 1) at 1. apply Z.pow_le_mono_r; lia. }
  unfold strconv.ParseInt, decimal.isSigned, decimal.signedValue in *.
  destruct (Ascii.eqb_spec c "-") as [->|Hminus].
  - simpl in Hs |- *.
    rewrite (ParseUint_spec rest bitSize Hb Hs).
    pose proof (valueFrom_ge rest 0 ltac:(lia)) as Hge.
    assert (0 <= decimal.unsignedValue rest).
    { apply Hge. destruct rest; [done|]. exact Hs. }
    set (un := decimal.unsignedValue rest) in *.
    destruct (Z.leb_spec un (2 ^ bitSize - 1)); simpl.
    + destruct (Z.ltb_spec (2 ^ (bitSize - 1)) un);
        destruct (Z.leb_spec (- 2 ^ (bitSize - 1)) (- un));
        destruct (Z.leb_spec (- un) (2 ^ (bitSize - 1) - 1));
        destruct (Z.ltb_spec (- un) 0); simpl; try lia; try done.
    + destruct (Z.ltb_spec (2 ^ (bitSize - 1)) (2 ^ bitSize - 1));
        destruct (Z.leb_spec (- 2 ^ (bitSize - 1)) (- un));
        destruct (Z.leb_spec (- un) (2 ^ (bitSize - 1) - 1));
        destruct (Z.ltb_spec (- un) 0); simpl; try lia; try done.
  - assert (Hu : decimal.isUnsigned
                   (if Ascii.eqb c "+" || false then rest else String c rest) = true).
    { destruct (Ascii.eqb c "+"); simpl in *; exact Hs. }
    assert (Hv : (if Ascii.eqb c "+" then decimal.unsignedValue rest
                  else decimal.unsignedValue (String c rest))
                 = decimal.unsignedValue
                     (if Ascii.eqb c "+" || false then rest else String c rest)).
    { destruct (Ascii.eqb c "+"); reflexivity. }
    cbv zeta. rewrite Hv.
    set (s := if Ascii.eqb c "+" || false then rest else String c rest) in *.
    rewrite (ParseUint_spec s bitSize Hb Hu).
    assert (0 <= decimal.unsignedValue s).
    { apply (valueFrom_ge s 0 ltac:(lia)). destruct s; [done|]. exact Hu. }
    set (un := decimal.unsignedValue s) in *.
    destruct (Z.leb_spec un (2 ^ bitSize - 1)); simpl.
    + destruct (Z.leb_spec (2 ^ (bitSize - 1)) un);
        destruct (Z.leb_spec (- 2 ^ (bitSize - 1)) un);
        destruct (Z.leb_spec un (2 ^ (bitSize - 1) - 1));
        destruct (Z.ltb_spec un 0); simpl; try lia; try done.
    + destruct (Z.leb_spec (2 ^ (bitSize - 1)) (2 ^ bitSize - 1));
        destruct (Z.leb_spec (- 2 ^ (bitSize - 1)) un);
        destruct (Z.leb_spec un (2 ^ (bitSize - 1) - 1));
        destruct (Z.ltb_spec un 0); simpl; try lia; try done.
Qed.

Section Lookup.
Context (P : Program) (reg : internal.Registry).

Lemma getParseFuncLoop_eq inner typ depth :
  internal.getParseFuncLoop P reg inner typ depth =
  match internal.registryLookup reg typ with
  | Some f => Ok (f, depth, true)
  | None =>
    match internal.handleTextUnmarshaler P typ with
    | Some f => Ok (Some f, depth, true)
    | None =>
      match internal.defaultBuiltInParsers P (Kind_of typ) with
      | Some f => Ok (Some f, depth, true)
      | None =>
        if negb (bool_decide (Kind_of inner = KPointer))
        then Ok (None, O, false)
        else
          let* e := Elem typ in
          internal.getParseFuncLoop P reg inner e (S depth)
      end
    end
  end.
Proof.
  destruct typ; simpl; try reflexivity.
  repeat (match goal with |- context [match ?x with _ => _ end] =>
            destruct x; try reflexivity end).
  clear. induction typ; simpl; try reflexivity. exact IHtyp.
Qed.

Lemma Kind_basic_underlying typ b :
  Kind_of typ = basicKind b -> underlying typ = TBasic b.
Proof.
  induction typ; simpl; intros H; try (destruct b; discriminate); auto.
  destruct b0, b; simpl in H; try discriminate; reflexivity.
Qed.

Lemma GetParseFunc_builtin typ g :
  internal.registryLookup reg typ = None ->
  internal.handleTextUnmarshaler P typ = None ->
  internal.defaultBuiltInParsers P (Kind_of typ) = Some g ->
  internal.GetParseFunc P reg typ = Ok (Some g, O, true).
Proof.
  intros H1 H2 H3. unfold internal.GetParseFunc.
  rewrite getParseFuncLoop_eq, H1, H2, H3. reflexivity.
Qed.

Lemma rtype_eqb_refl_basic b : rtype_eqb (TBasic b) (TBasic b) = true.
Proof. simpl. apply bool_decide_eq_true. reflexivity. Qed.

(** [setValue] on a place whose kind is not pointer, when the field has a
    text to decode and a parser is found for its type. *)
Lemma setValue_parsed fuel typ v p f prefix raw isDefault g d val err :
  Kind_of typ <> KPointer ->
  resolveText p f = Some (raw, isDefault) ->
  internal.GetParseFunc P reg typ = Ok (Some g, d, true) ->
  g raw = Ok (val, err) ->
  env.setValue P reg (S fuel) typ v p f prefix =
  match err with
  | Some e =>
    Ok {| env.dval := v;
          env.derrs := [env.errField (env.keyWithPrefix p (env.key f)) typ (Some e)];
          env.dlog := [] |}
  | None =>
    let* value := Convert (IntSize P) (Implements P) val typ in
    Ok {| env.dval := value; env.derrs := [];
          env.dlog := if env.onSet p
                      then [(env.keyWithPrefix p (env.key f), value, isDefault)]
                      else [] |}
  end.
Proof.
  intros Hk Hres Hg Hrun. unfold resolveText in Hres. simpl.
  destruct (env.getEnv p (env.key f)) as [[|c s]|];
    destruct (env.defaultSet f); simpl in *;
    inversion Hres; subst; clear Hres;
    rewrite bool_decide_eq_false_2 by exact Hk; simpl;
    rewrite Hg; simpl; rewrite Hrun; simpl; destruct err; reflexivity.
Qed.

(** [setValue] when the variable is absent or empty and the field has no
    default: the place is left as it is, whatever its type. *)
Lemma setValue_unset fuel typ v p f prefix :
  resolveText p f = None ->
  env.setValue P reg (S fuel) typ v p f prefix =
    Ok {| env.dval := v;
          env.derrs := [env.errField (env.keyWithPrefix p (env.key f)) typ
                          (Some (sentinelError ErrValueNotSet))];
          env.dlog := [] |}.
Proof.
  unfold resolveText. intros Hres. simpl.
  destruct (env.getEnv p (env.key f)) as [[|c s]|];
    destruct (env.defaultSet f); simpl in *; done.
Qed.

Lemma resolveText_set p f s :
  env.getEnv p (env.key f) = Some s -> s <> EmptyString ->
  resolveText p f = Some (s, false).
Proof.
  intros H Hs. unfold resolveText. rewrite H. destruct s; done.
Qed.

End Lookup.

Lemma isSigned_nonempty s : decimal.isSigned s = true -> s <> EmptyString.
Proof. destruct s; [discriminate | discriminate]. Qed.
Lemma isUnsigned_nonempty s : decimal.isUnsigned s = true -> s <> EmptyString.
Proof. destruct s; [discriminate | discriminate]. Qed.

Lemma wrapSigned_small bits n :
  bits = 32 \/ bits = 64 -> - 2 ^ 31 <= n <= 2 ^ 31 - 1 ->
  wrapSigned bits n = n.
Proof.
  intros [-> | ->] H; unfold wrapSigned; simpl Z.sub;
    rewrite Z.mod_small; lia.
Qed.

Lemma wrapUnsigned_small bits n :
  bits = 32 \/ bits = 64 -> 0 <= n <= 2 ^ 32 - 1 ->
  wrapUnsigned bits n = n.
Proof.
  intros [-> | ->] H; unfold wrapUnsigned; rewrite Z.mod_small; lia.
Qed.


(* ===================================================================== *)
(** * The orchestrator: traces of [Run] *)
(* ===================================================================== *)

Section Orchestrator.
Import runtime.
Context {World : Type}.
Implicit Types (cfgs : list (EnvParam World)) (tr : list Event).

Lemma forEachParam_spec call method wrap cfgs : forall i w tr errs,
  exists w' rs,
    List.length rs = List.length cfgs /\
    forEachParam call method wrap i cfgs (w, tr) errs =
      ((w', (tr ++ phaseEvents call i rs)%list),
       (errs ++ omap (fmap wrap) rs)%list).
Proof.
  induction cfgs as [|v rest IH]; intros i w tr errs; simpl.
  - exists w, []. rewrite !app_nil_r. done.
  - destruct (method v w) as [w1 err] eqn:Hm.
    destruct (IH (S i) w1 (tr ++ [call i err])%list
                (match err with Some e => (errs ++ [wrap e])%list | None => errs end))
      as (w' & rs & Hlen & Heq).
    exists w', (err :: rs). split; [simpl; lia|].
    rewrite Heq. simpl. rewrite <- !app_assoc. simpl.
    destruct err; simpl; rewrite <- ?app_assoc; reflexivity.
Qed.

Lemma count_app f tr1 tr2 :
  count f (tr1 ++ tr2) = (count f tr1 + count f tr2)%nat.
Proof. unfold count. rewrite List.filter_app, List.length_app. reflexivity. Qed.

Lemma count_none f tr :
  (forall e, In e tr -> f e = false) -> count f tr = O.
Proof.
  unfold count. induction tr as [|e tr IH]; intros H; simpl; [done|].
  rewrite (H e) by (left; reflexivity). apply IH.
  intros e' He'. apply H. right. exact He'.
Qed.

Lemma phaseEvents_In call i rs e :
  In e (phaseEvents call i rs) -> exists k r, e = call k r.
Proof.
  revert i. induction rs as [|r rs IH]; intros i; simpl; [done|].
  intros [<- | H]; [eauto | eapply IH; eauto].
Qed.

Lemma phaseEvents_In_inv call i rs k r :
  (forall a b x y, call a x = call b y -> a = b /\ x = y) ->
  In (call k r) (phaseEvents call i rs) -> In r rs.
Proof.
  intros Hinj. revert i. induction rs as [|r0 rs IH]; intros i; simpl; [done|].
  intros [H | H]; [left; apply Hinj in H as [_ ?]; done | right; eauto].
Qed.





Lemma In_map_Stderr fmt errs ev :
  In ev (map (Stderr fmt) errs) -> exists e, ev = Stderr fmt e.
Proof. intros H. apply in_map_iff in H as (e & <- & _). eauto. Qed.

Lemma count_phase_other f call i rs :
  (forall k r, f (call k r) = false) -> count f (phaseEvents call i rs) = O.
Proof.
  intros H. apply count_none. intros e He.
  apply phaseEvents_In in He as (k & r & ->). apply H.
Qed.

Lemma count_Stderr f fmt errs :
  (forall e, f (Stderr fmt e) = false) -> count f (map (Stderr fmt) errs) = O.
Proof.
  intros H. apply count_none. intros e He.
  apply In_map_Stderr in He as (e' & ->). apply H.
Qed.

End Orchestrator.

(* ===================================================================== *)
(** * The scheduler: an invariant of every interleaving *)
(* ===================================================================== *)

Section Scheduler.
Import scheduler.

Lemma pending_repeat n : pending (repeat Running n) = n.
Proof. unfold pending. induction n; simpl; [done | lia]. Qed.

Lemma omap_appended_repeat n : omap appended (repeat Running n) = [].
Proof. induction n; simpl; done. Qed.

Lemma Inv_init n : Inv n (RunJobs n).
Proof.
  split; simpl.
  - apply repeat_length.
  - symmetry. apply pending_repeat.
  - rewrite omap_appended_repeat. constructor.
  - discriminate.
Qed.

Lemma split_at (gs : list goroutine) i g :
  gs !! i = Some g ->
  gs = (take i gs ++ g :: drop (S i) gs)%list /\
  forall g', <[i := g']> gs = (take i gs ++ g' :: drop (S i) gs)%list.
Proof.
  intros H. split.
  - symmetry. apply take_drop_middle. exact H.
  - intros g'. apply insert_take_drop. eapply lookup_lt_Some. exact H.
Qed.

Lemma pending_app gs1 gs2 :
  pending (gs1 ++ gs2) = (pending gs1 + pending gs2)%nat.
Proof. unfold pending. rewrite List.filter_app, List.length_app. done. Qed.

Lemma pending_cons g gs :
  pending (g :: gs) = ((if isFinished g then O else 1) + pending gs)%nat.
Proof. unfold pending. simpl. destruct (isFinished g); simpl; lia. Qed.

Lemma pending_zero_no_lookup gs i g :
  pending gs = O -> gs !! i = Some g -> isFinished g = true.
Proof.
  intros Hp Hl. apply split_at in Hl as [Heq _]. rewrite Heq in Hp.
  rewrite pending_app, pending_cons in Hp. destruct (isFinished g); [done | lia].
Qed.

Ltac at_index H :=
  let Heq := fresh "Heq" in
  let Hins := fresh "Hins" in
  apply split_at in H as [Heq Hins].

Lemma Inv_step n st ev st' :
  Inv n st -> step st ev = Some st' -> Inv n st'.
Proof.
  intros [Hlen Hwg Herrs Hres] Hstep.
  destruct ev as [i r | i | | ]; simpl in Hstep.
  - destruct (goroutines st !! i) as [g|] eqn:Hi; [|discriminate].
    destruct g; try discriminate. inversion Hstep; subst; clear Hstep.
    pose proof Hi as Hi'. at_index Hi.
    split; simpl.
    + rewrite length_insert. done.
    + rewrite Hwg, Hins. rewrite Heq at 1.
      rewrite !pending_app, !pending_cons. done.
    + rewrite Hins. rewrite Heq in Herrs.
      rewrite omap_app in Herrs |- *. simpl in *. done.
    + intros res Hr. destruct (Hres res Hr) as [Hp _].
      pose proof (pending_zero_no_lookup _ _ _ Hp Hi'). discriminate.
  - destruct (goroutines st !! i) as [g|] eqn:Hi; [|discriminate].
    pose proof Hi as Hi'. at_index Hi.
    assert (Hnores : isFinished g = false -> forall res, result st = Some res -> False).
    { intros Hf res Hr. destruct (Hres res Hr) as [Hp _].
      pose proof (pending_zero_no_lookup _ _ _ Hp Hi'). congruence. }
    destruct g as [|r|r|r|r]; try discriminate.
    + destruct (omitContextErr r) as [err|] eqn:Hom;
        inversion Hstep; subst; clear Hstep; split; simpl.
      * rewrite length_insert. done.
      * rewrite Hwg, Hins. rewrite Heq at 1.
        rewrite !pending_app, !pending_cons. done.
      * rewrite Hins. rewrite Heq in Herrs.
        rewrite omap_app in Herrs |- *. simpl in *. rewrite Hom.
        rewrite Herrs, <- app_assoc. apply Permutation_app_head.
        apply (Permutation_app_comm _ [err]).
      * intros res Hr. exfalso. eapply Hnores; eauto.
      * rewrite length_insert. done.
      * rewrite Hwg, Hins. rewrite Heq at 1.
        rewrite !pending_app, !pending_cons. simpl. lia.
      * rewrite Hins. rewrite Heq in Herrs.
        rewrite omap_app in Herrs |- *. simpl in *. rewrite Hom. done.
      * intros res Hr. exfalso. eapply Hnores; eauto.
    + inversion Hstep; subst; clear Hstep; split; simpl.
      * rewrite length_insert. done.
      * rewrite Hwg, Hins. rewrite Heq at 1.
        rewrite !pending_app, !pending_cons. done.
      * rewrite Hins. rewrite Heq in Herrs.
        rewrite omap_app in Herrs |- *. simpl in *. done.
      * intros res Hr. exfalso. eapply Hnores; eauto.
    + inversion Hstep; subst; clear Hstep; split; simpl.
      * rewrite length_insert. done.
      * rewrite Hwg, Hins. rewrite Heq at 1.
        rewrite !pending_app, !pending_cons. simpl. lia.
      * rewrite Hins. rewrite Heq in Herrs.
        rewrite omap_app in Herrs |- *. simpl in *. done.
      * intros res Hr. exfalso. eapply Hnores; eauto.
  - inversion Hstep; subst; clear Hstep. split; simpl; done.
  - destruct (wg st) eqn:Hw; [|discriminate].
    destruct (result st) eqn:Hr; [discriminate|].
    inversion Hstep; subst; clear Hstep. split; simpl; try done.
    intros res [= <-]. split; [congruence | done].
Qed.

Lemma Inv_exec n evs : forall st st',
  Inv n st -> exec st evs = Some st' -> Inv n st'.
Proof.
  induction evs as [|ev evs IH]; intros st st' Hinv Hex; simpl in Hex.
  - congruence.
  - destruct (step st ev) as [st1|] eqn:Hs; [|discriminate].
    eapply IH; [eapply Inv_step; eauto | done].
Qed.

Lemma all_finished gs :
  pending gs = O -> exists rs, gs = map Finished rs.
Proof.
  induction gs as [|g gs IH]; intros H.
  - exists []. done.
  - rewrite pending_cons in H. destruct g as [| | | |r]; simpl in H; try lia.
    destruct (IH H) as [rs ->]. exists (r :: rs). done.
Qed.

Lemma omap_appended_Finished rs :
  omap appended (map Finished rs) = omap omitContextErr rs.
Proof.
  induction rs as [|r rs IH]; [done|]. cbn.
  destruct (omitContextErr r); cbn; f_equal; exact IH.
Qed.

Lemma omap_nil_iff {A B} (f : A -> option B) l :
  omap f l = [] <-> forall x, In x l -> f x = None.
Proof.
  induction l as [|a l IH]; simpl.
  - split; [intros _ x [] | done].
  - destruct (f a) eqn:Hfa; simpl.
    + split; [discriminate|]. intros H. specialize (H a (or_introl eq_refl)). congruence.
    + rewrite IH. split.
      * intros H x [<- | Hx]; [done | eauto].
      * intros H x Hx. apply H. right. done.
Qed.

Lemma exec_app evs1 : forall st evs2,
  exec st (evs1 ++ evs2) =
  match exec st evs1 with
  | Some st' => exec st' evs2
  | None => None
  end.
Proof.
  induction evs1 as [|ev evs1 IH]; intros st evs2; simpl; [done|].
  destruct (step st ev); [apply IH | done].
Qed.

Lemma sequential_exec rest : forall finished errs0 c,
  exists c',
    exec {| goroutines := (map Finished finished ++ repeat Running (List.length rest))%list;
            errs := errs0; cancelled := c; wg := List.length rest;
            result := None |}
         (sequential (List.length finished) rest)
    = Some {| goroutines := map Finished (finished ++ rest);
              errs := (errs0 ++ omap omitContextErr rest)%list;
              cancelled := c'; wg := O; result := None |}.
Proof.
  induction rest as [|r rest IH]; intros finished errs0 c.
  - exists c. simpl. rewrite !app_nil_r. done.
  - assert (Hlook : forall g tl,
      (map Finished finished ++ g :: tl)%list !! List.length finished = Some g).
    { intros g tl. rewrite lookup_app_r by (rewrite length_map; lia).
      rewrite length_map, Nat.sub_diag. done. }
    assert (Hins : forall g g' tl,
      <[List.length finished := g']> (map Finished finished ++ g :: tl)%list
      = (map Finished finished ++ g' :: tl)%list).
    { intros g g' tl.
      replace (List.length finished) with (List.length (map Finished finished) + 0)%nat
        at 1 by (rewrite length_map; lia).
      rewrite insert_app_r. done. }
    assert (Hnext : forall tl,
      (map Finished finished ++ Finished r :: tl)%list
      = (map Finished (finished ++ [r]) ++ tl)%list).
    { intros tl. rewrite map_app, <- app_assoc. done. }
    simpl sequential. unfold runToEnd.
    destruct (omitContextErr r) as [err|] eqn:Hom.
    + destruct (IH (finished ++ [r])%list (errs0 ++ [err])%list true) as [c' Hc'].
      exists c'. simpl. rewrite Hlook. unfold setGoroutine. simpl.
      rewrite Hins, Hlook, Hom. simpl. rewrite Hins, Hlook. simpl.
      rewrite Hins, Hlook. simpl. rewrite Hins, Hnext.
      rewrite length_app in Hc'. simpl in Hc'.
      replace (S (List.length finished)) with (List.length finished + 1)%nat by lia.
      rewrite Hc'. rewrite <- !app_assoc. simpl. done.
    + destruct (IH (finished ++ [r])%list errs0 c) as [c' Hc'].
      exists c'. simpl. rewrite Hlook. unfold setGoroutine. simpl.
      rewrite Hins, Hlook, Hom. simpl. rewrite Hins, Hnext.
      rewrite length_app in Hc'. simpl in Hc'.
      replace (S (List.length finished)) with (List.length finished + 1)%nat by lia.
      rewrite Hc'. rewrite <- !app_assoc. simpl. done.
Qed.

(** C4. In every interleaving of the goroutines of [RunJobs] with [n] jobs:
    when [RunJobs] has returned [res], every job function has returned;
    [errs] holds, in some order, exactly the returned errors that are
    neither [context.Canceled] nor [context.DeadlineExceeded]; [res] is
    their join, and it is nil exactly when no job returned such an error.
    And whatever the [n] jobs return, some interleaving lets [RunJobs]
    return. *)
Theorem C4_RunJobs_waits_for_all_and_joins_non_context_errors (n : nat) :
  (forall evs st res,
     exec (RunJobs n) evs = Some st -> result st = Some res ->
     exists rs,
       List.length rs = n /\
       goroutines st = map Finished rs /\
       Permutation (errs st) (omap omitContextErr rs) /\
       res = match errs st with [] => None | es => Some (joinError es) end /\
       (res = None <-> forall r, In r rs -> omitContextErr r = None))
  /\
  (forall rs, List.length rs = n ->
     exists evs st,
       exec (RunJobs n) evs = Some st /\
       goroutines st = map Finished rs /\
       result st = Some (errors.Join (map Some (omap omitContextErr rs)))).
Proof.
  split.
  - intros evs st res Hex Hres.
    pose proof (Inv_exec n evs _ _ (Inv_init n) Hex) as [Hlen Hwg Herrs Hr].
    destruct (Hr res Hres) as [Hp ->].
    destruct (all_finished _ Hp) as [rs Hrs].
    exists rs. rewrite Hrs in Hlen, Herrs. rewrite length_map in Hlen.
    rewrite omap_appended_Finished in Herrs.
    repeat split; try done.
    + apply Join_map_Some.
    + rewrite Join_map_Some. intros Hnil.
      destruct (errs st) eqn:He; [|discriminate].
      apply Permutation_nil in Herrs. apply omap_nil_iff. done.
    + intros Hall. apply omap_nil_iff in Hall. rewrite Hall in Herrs.
      apply Permutation_sym, Permutation_nil in Herrs. rewrite Herrs. done.
  - intros rs <-.
    destruct (sequential_exec rs [] [] false) as [c' Hseq]. simpl in Hseq.
    exists (sequential O rs ++ [WaitReturns])%list. eexists.
    rewrite exec_app. unfold RunJobs. rewrite Hseq. simpl.
    split; [reflexivity|]. simpl. done.
Qed.
End Scheduler.

(* ===================================================================== *)
(** * Sequence and map fields *)
(* ===================================================================== *)

Lemma Contains_empty_sep s : strings.Contains s EmptyString = true.
Proof. destruct s; reflexivity. Qed.

Lemma splitLoop_no_cut sep s : forall skip,
  snd (strings.splitLoop sep (Some O) skip s) = [].
Proof.
  induction s as [|c s IH]; intros skip; simpl; [done|].
  destruct skip; [|apply IH].
  specialize (IH O). destruct (strings.splitLoop sep (Some O) O s). done.
Qed.

Lemma splitLoop_first_cut sep s :
  strings.Contains s sep = false ->
  snd (strings.splitLoop sep (Some 1%nat) O s) = [].
Proof.
  induction s as [|c s IH]; intros H; [done|].
  change (strings.Contains (String c s) sep)
    with (strings.HasPrefix (String c s) sep || strings.Contains s sep) in H.
  apply orb_false_iff in H as [Hp Hc].
  cbn [strings.splitLoop]. rewrite Hp.
  specialize (IH Hc). destruct (strings.splitLoop sep (Some 1%nat) O s). done.
Qed.

(** A part that does not contain the separator is not cut in two. *)
Lemma SplitN_without_separator part sep :
  strings.Contains part sep = false ->
  List.length (strings.SplitN part sep 2) = 1%nat.
Proof.
  intros H. destruct sep as [|c sep].
  - rewrite Contains_empty_sep in H. discriminate.
  - unfold strings.SplitN.
    pose proof (splitLoop_first_cut (String c sep) part H) as Ht.
    destruct (strings.splitLoop (String c sep) (Some 1%nat) O part) as [h t].
    simpl in Ht. subst t. done.
Qed.

Section Composite.
Context (P : Program) (reg : internal.Registry).






End Composite.

(* ===================================================================== *)
(** * The text-unmarshaler adapter *)
(* ===================================================================== *)

Section Adapter.
Context (P : Program) (reg : internal.Registry).

Lemma unpackPointers_base base :
  Kind_of base <> KPointer -> internal.unpackPointers base = (base, O).
Proof.
  destruct base; simpl; try done.
  intros H. destruct (Kind_of base); done.
Qed.

Lemma unpackPointers_PtrN n base :
  Kind_of base <> KPointer ->
  internal.unpackPointers (PtrN n base) = (base, n).
Proof.
  intros H. induction n as [|n IH]; simpl.
  - apply unpackPointers_base. exact H.
  - rewrite IH. reflexivity.
Qed.

Lemma typeOf_wrapPointers n : forall v,
  typeOf (wrapPointers n v) = PtrN n (typeOf v).
Proof.
  induction n as [|n IH]; intros v; simpl; [done|].
  rewrite IH. simpl. clear. induction n; simpl; [done | by f_equal].
Qed.

Lemma derefN_wrapPointers n : forall v,
  derefN n (wrapPointers n v) = Some v.
Proof.
  induction n as [|n IH]; intros v; [done|].
  assert (Hs : forall m w, derefN (S m) w = match derefN m w with
                                            | Some (VPtr _ (Some x)) => Some x
                                            | _ => None
                                            end).
  { induction m as [|m IHm]; intros w; [destruct w as [| | | |? [?|]| | | | | |]; done|].
    destruct w as [| | | |? [x|]| | | | | |]; try done.
    change (derefN (S (S m)) (VPtr t (Some x))) with (derefN (S m) x).
    rewrite IHm. done. }
  rewrite Hs. simpl. rewrite IH. done.
Qed.

Lemma typeOf_zeroAs t u : typeOf (zeroAs t u) = t.
Proof.
  revert t. induction u; intros t0; simpl; try done.
  all: try (destruct b; done).
  all: try apply IHu.
Qed.

Lemma typeOf_Zero t : typeOf (Zero t) = t.
Proof. apply typeOf_zeroAs. Qed.

(** The value-receiver adapter: the result has the type that was looked
    up, and under its pointers lies the zero value of the base type. *)
Lemma valueTextUnmarshaler_result base n raw :
  Implements P base internal.unmarshalTyp = true ->
  Kind_of base <> KInterface ->
  UnmarshalTextValue P base raw = None ->
  exists v,
    internal.valueTextUnmarshaler P base n raw = Ok (Some v, None) /\
    typeOf v = PtrN n base /\ derefN n v = Some (Zero base).
Proof.
  intros Himpl Hk Hun. unfold internal.valueTextUnmarshaler.
  rewrite Himpl, bool_decide_eq_false_2 by done. simpl. rewrite Hun.
  exists (wrapPointers n (Zero base)).
  split; [destruct n; done|].
  rewrite typeOf_wrapPointers, typeOf_Zero, derefN_wrapPointers. done.
Qed.

(** The pointer-receiver adapter: the result has the type that was looked
    up, and under its pointers lies what [UnmarshalText] decoded. *)
Lemma ptrTextUnmarshaler_result base n raw target :
  Implements P (TPtr base) internal.unmarshalTyp = true ->
  UnmarshalTextPtr P base raw (Zero base) = (target, None) ->
  typeOf target = base ->
  exists v,
    internal.ptrTextUnmarshaler P base n raw = Ok (Some v, None) /\
    typeOf v = PtrN n base /\ derefN n v = Some target.
Proof.
  intros Himpl Hun Ht. unfold internal.ptrTextUnmarshaler.
  rewrite Himpl. simpl. rewrite Hun.
  destruct n as [|[|n]].
  - exists target. done.
  - exists (VPtr (TPtr base) (Some target)). done.
  - exists (wrapPointers (S n) (VPtr (TPtr base) (Some target))).
    split; [done|]. split.
    + rewrite typeOf_wrapPointers. simpl.
      clear. induction n; simpl; [done | by f_equal].
    + subst base.
      change (wrapPointers (S n) (VPtr (TPtr (typeOf target)) (Some target)))
        with (wrapPointers (S (S n)) target).
      apply derefN_wrapPointers.
Qed.

Lemma retag_same t v : typeOf v = t -> retag t v = v.
Proof. intros <-. destruct v; reflexivity. Qed.

Lemma Convert_same (v : value) typ :
  typeOf v = typ -> Kind_of typ <> KInterface ->
  Convert (IntSize P) (Implements P) (Some v) typ = Ok v.
Proof.
  intros Ht Hk. unfold Convert. rewrite bool_decide_eq_false_2 by done.
  rewrite Ht, rtype_eqb_refl, retag_same by done. reflexivity.
Qed.

Lemma Kind_PtrN_S n base : Kind_of (PtrN (S n) base) = KPointer.
Proof. reflexivity. Qed.

Local Arguments Convert : simpl never.

(** [setValue] on a place of pointer kind, when a parser is found for the
    element type and the variable is set to a non-empty text the parser
    accepts. *)
Lemma setValue_parsed_pointer fuel elemT v p f prefix s g d val :
  env.getEnv p (env.key f) = Some s -> s <> EmptyString ->
  internal.GetParseFunc P reg elemT = Ok (Some g, d, true) ->
  g s = Ok (Some val, None) ->
  typeOf val = elemT -> Kind_of elemT <> KInterface ->
  env.setValue P reg (S fuel) (TPtr elemT) v p f prefix =
    Ok {| env.dval := VPtr (TPtr elemT) (Some val); env.derrs := [];
          env.dlog := if env.onSet p
                      then [(env.keyWithPrefix p (env.key f), val, false)]
                      else [] |}.
Proof.
  intros Henv Hs Hg Hrun Ht Hk. simpl. rewrite Henv.
  assert (String.eqb s "" = false) as -> by (apply String.eqb_neq; exact Hs).
  simpl. rewrite Hg. simpl. rewrite Hrun. simpl.
  rewrite Convert_same by done. reflexivity.
Qed.

Lemma GetParseFunc_text typ g :
  internal.registryLookup reg typ = None ->
  internal.handleTextUnmarshaler P typ = Some g ->
  internal.GetParseFunc P reg typ = Ok (Some g, O, true).
Proof.
  intros H1 H2. unfold internal.GetParseFunc.
  rewrite getParseFuncLoop_eq, H1, H2. reflexivity.
Qed.

(** A field declared at pointer depth [n] over a text-decodable base type
    whose parser yields [decoded] under [n] pointers: the field ends up
    with a value of its declared type that holds [decoded] under [n]
    pointers. *)
Lemma setStructField_text_decodable fuel base n tags v p prefix params raw
    (g : nat -> parserFunc) decoded :
  Kind_of base <> KPointer -> Kind_of base <> KInterface ->
  fieldExported tags = true -> fieldType tags = PtrN n base ->
  env.parseFieldParams P tags prefix = Ok params ->
  env.ignored params = false ->
  env.getEnv p (env.key params) = Some raw -> raw <> EmptyString ->
  (forall k, internal.registryLookup reg (PtrN k base) = None) ->
  (forall k, internal.handleTextUnmarshaler P (PtrN k base) = Some (g k)) ->
  (forall k, exists w, g k raw = Ok (Some w, None) /\
                       typeOf w = PtrN k base /\ derefN k w = Some decoded) ->
  exists d,
    env.setStructField P reg (S fuel) v tags p prefix = Ok d /\
    env.derrs d = [] /\
    typeOf (env.dval d) = PtrN n base /\
    derefN n (env.dval d) = Some decoded.
Proof.
  intros Hkp Hki Hexp Hty Hparams Hign Henv Hraw Hreg Htext Hrun.
  assert (Hbase : forall fuel' v0, exists d,
    env.setValue P reg (S fuel') base v0 p params prefix = Ok d /\
    env.derrs d = [] /\ typeOf (env.dval d) = base /\
    env.dval d = decoded).
  { intros fuel' v0. destruct (Hrun O) as (w & Hw & Htw & Hdw).
    simpl in Htw, Hdw. inversion Hdw; subst w.
    eexists. split.
    - rewrite (setValue_parsed P reg fuel' base v0 p params prefix raw false
                 (g O) O (Some decoded) None); try done.
      + rewrite Convert_same by done. reflexivity.
      + apply resolveText_set; done.
      + apply GetParseFunc_text; [apply (Hreg O) | apply (Htext O)].
    - done. }
  assert (Hptr : forall fuel' m v0, exists d,
    env.setValue P reg (S fuel') (PtrN (S m) base) v0 p params prefix = Ok d /\
    env.derrs d = [] /\ typeOf (env.dval d) = PtrN (S m) base /\
    derefN (S m) (env.dval d) = Some decoded).
  { intros fuel' m v0. destruct (Hrun m) as (w & Hw & Htw & Hdw).
    eexists. split.
    - apply (setValue_parsed_pointer fuel' (PtrN m base) v0 p params prefix
               raw (g m) O w); try done.
      + apply GetParseFunc_text; [apply (Hreg m) | apply (Htext m)].
      + destruct m; [done | discriminate].
    - done. }
  unfold env.setStructField, env.setStructFieldWith.
  rewrite Hexp, Hparams. cbn [negb rbind]. rewrite Hign, Hty.
  destruct n as [|m].
  - cbn [PtrN]. rewrite bool_decide_eq_false_2 by done. cbn [andb].
    destruct (Hbase fuel v) as (d & Hd & He & Ht & Hv).
    exists d. rewrite Hv in *. done.
  - rewrite (bool_decide_eq_true_2 _ (Kind_PtrN_S m base)). cbn [andb].
    destruct (bool_decide (env.ptrTarget v = None)).
    + cbn [PtrN Elem rbind].
      destruct (bool_decide (Kind_of (PtrN m base) = KStruct)) eqn:Hst.
      * apply bool_decide_eq_true in Hst.
        destruct m; [|discriminate]. cbn [PtrN] in *.
        destruct (Hbase fuel (Zero base)) as (d & Hd & He & Ht & Hv).
        rewrite Hd. cbn [rbind]. eexists. split; [reflexivity|]. cbn.
        rewrite Hv. done.
      * apply (Hptr fuel m).
    + apply (Hptr fuel m).
Qed.

(** C8 (as amended). A field declared at pointer depth [n] over a
    text-decodable base type, decoded from a text its [UnmarshalText]
    accepts: the lookup synthesizes the adapter for depth [n], and the field
    ends up with a value of its declared type, [n] pointers over a value of
    the base type. When only the pointer to the base type implements the
    interface, the adapter at depth 0 returns the pointer's target, the
    value under the [n] pointers is the one [UnmarshalText] decoded, and any
    serialization that inverts [UnmarshalText] gives back the raw text. *)
Theorem C8_text_decodable_field_gets_its_declared_pointer_depth
    (fuel : nat) (base : rtype) (n : nat) (tags : StructField) (v : value)
    (p : env.parseParams) (prefix : string) (params : env.fieldParams)
    (raw : string) :
  Kind_of base <> KPointer -> Kind_of base <> KInterface ->
  fieldExported tags = true -> fieldType tags = PtrN n base ->
  env.parseFieldParams P tags prefix = Ok params ->
  env.ignored params = false ->
  env.getEnv p (env.key params) = Some raw -> raw <> EmptyString ->
  (forall k, internal.registryLookup reg (PtrN k base) = None) ->
  (* the base type implements the interface itself *)
  (Implements P base internal.unmarshalTyp = true ->
   UnmarshalTextValue P base raw = None ->
   internal.handleTextUnmarshaler P (PtrN n base)
     = Some (internal.valueTextUnmarshaler P base n) /\
   exists d,
     env.setStructField P reg (S fuel) v tags p prefix = Ok d /\
     env.derrs d = [] /\
     typeOf (env.dval d) = PtrN n base /\
     exists w, derefN n (env.dval d) = Some w /\ typeOf w = base)
  /\
  (* only the pointer to the base type implements it *)
  (Implements P base internal.unmarshalTyp = false ->
   Implements P (TPtr base) internal.unmarshalTyp = true ->
   forall target,
   UnmarshalTextPtr P base raw (Zero base) = (target, None) ->
   typeOf target = base ->
   internal.handleTextUnmarshaler P (PtrN n base)
     = Some (internal.ptrTextUnmarshaler P base n) /\
   internal.ptrTextUnmarshaler P base O raw = Ok (Some target, None) /\
   exists d,
     env.setStructField P reg (S fuel) v tags p prefix = Ok d /\
     env.derrs d = [] /\
     typeOf (env.dval d) = PtrN n base /\
     derefN n (env.dval d) = Some target /\
     forall MarshalText : value -> string,
       MarshalText target = raw ->
       exists w, derefN n (env.dval d) = Some w /\ MarshalText w = raw).
Proof.
  intros Hkp Hki Hexp Hty Hparams Hign Henv Hraw Hreg. split.
  - intros Himpl Hun.
    assert (Htext : forall k, internal.handleTextUnmarshaler P (PtrN k base)
                              = Some (internal.valueTextUnmarshaler P base k)).
    { intros k. unfold internal.handleTextUnmarshaler.
      rewrite unpackPointers_PtrN, Himpl by done. reflexivity. }
    split; [apply Htext|].
    destruct (setStructField_text_decodable fuel base n tags v p prefix params
                raw (internal.valueTextUnmarshaler P base) (Zero base))
      as (d & Hd & He & Htd & Hdd); try done.
    { intros k. apply valueTextUnmarshaler_result; done. }
    exists d. repeat split; try done.
    exists (Zero base). split; [done | apply typeOf_Zero].
  - intros Hno Himpl target Hun Ht.
    assert (Htext : forall k, internal.handleTextUnmarshaler P (PtrN k base)
                              = Some (internal.ptrTextUnmarshaler P base k)).
    { intros k. unfold internal.handleTextUnmarshaler.
      rewrite unpackPointers_PtrN, Hno, Himpl by done. reflexivity. }
    split; [apply Htext|]. split.
    { unfold internal.ptrTextUnmarshaler. rewrite Himpl. simpl.
      rewrite Hun. reflexivity. }
    destruct (setStructField_text_decodable fuel base n tags v p prefix params
                raw (internal.ptrTextUnmarshaler P base) target)
      as (d & Hd & He & Htd & Hdd); try done.
    { intros k. apply ptrTextUnmarshaler_result; done. }
    exists d. repeat split; try done.
    intros MarshalText Hm. exists target. done.
Qed.
End Adapter.

(* ===================================================================== *)
(** * Resolution order of the parser lookup *)
(* ===================================================================== *)

Section Resolution.
Context (P : Program) (reg : internal.Registry).

(** Step 1 wins over everything else. *)
Lemma GetParseFunc_registry typ f :
  internal.registryLookup reg typ = Some f ->
  internal.GetParseFunc P reg typ = Ok (f, O, true).
Proof.
  intros H. unfold internal.GetParseFunc.
  rewrite getParseFuncLoop_eq, H. reflexivity.
Qed.

(** No step matches and the type is no pointer: not found. *)
Lemma GetParseFunc_not_found typ :
  Kind_of typ <> KPointer ->
  internal.registryLookup reg typ = None ->
  internal.handleTextUnmarshaler P typ = None ->
  internal.defaultBuiltInParsers P (Kind_of typ) = None ->
  internal.GetParseFunc P reg typ = Ok (None, O, false).
Proof.
  intros Hk H1 H2 H3. unfold internal.GetParseFunc.
  rewrite getParseFuncLoop_eq, H1, H2, H3.
  rewrite bool_decide_eq_false_2 by exact Hk. reflexivity.
Qed.

(** No step matches a pointer type: one level is stripped, the depth
    goes up by one, and the steps are tried again. *)
Lemma GetParseFunc_strips_pointer typ e :
  Kind_of typ = KPointer -> Elem typ = Ok e ->
  internal.registryLookup reg typ = None ->
  internal.handleTextUnmarshaler P typ = None ->
  internal.GetParseFunc P reg typ = internal.getParseFuncLoop P reg typ e 1.
Proof.
  intros Hk He H1 H2. unfold internal.GetParseFunc.
  rewrite getParseFuncLoop_eq, H1, H2, Hk, He. reflexivity.
Qed.

Lemma Elem_struct base :
  Kind_of base = KStruct -> Elem base = Panic "reflect: Elem of invalid type".
Proof.
  induction base; simpl; intros H; try discriminate; auto.
  all: try (destruct b; discriminate).
Qed.

Lemma handleTextUnmarshaler_none base n :
  Kind_of base <> KPointer ->
  Implements P base internal.unmarshalTyp = false ->
  Implements P (TPtr base) internal.unmarshalTyp = false ->
  internal.handleTextUnmarshaler P (PtrN n base) = None.
Proof.
  intros Hk H1 H2. unfold internal.handleTextUnmarshaler.
  rewrite unpackPointers_PtrN, H1, H2 by exact Hk. reflexivity.
Qed.

(** C2. The lookup of a pointer to a struct type for which no step matches
    at any depth does not return "not found": after the pointer has been
    stripped, the loop still tests the kind of the type it was called with,
    strips once more, and [Elem] panics on the struct type. *)
Theorem C2_GetParseFunc_pointer_to_unparsable_struct_panics (base : rtype) :
  Kind_of base = KStruct ->
  internal.registryLookup reg (TPtr base) = None ->
  internal.registryLookup reg base = None ->
  Implements P base internal.unmarshalTyp = false ->
  Implements P (TPtr base) internal.unmarshalTyp = false ->
  internal.GetParseFunc P reg (TPtr base)
    = Panic "reflect: Elem of invalid type".
Proof.
  intros Hk Hr1 Hr0 Hi0 Hi1.
  assert (Hnp : Kind_of base <> KPointer) by (rewrite Hk; discriminate).
  rewrite (GetParseFunc_strips_pointer (TPtr base) base); try done.
  - pose proof (handleTextUnmarshaler_none base 0 Hnp Hi0 Hi1) as Ht.
    cbn [PtrN] in Ht.
    rewrite getParseFuncLoop_eq, Hr0, Ht, Hk.
    simpl. rewrite Elem_struct by done. reflexivity.
  - apply (handleTextUnmarshaler_none base 1); done.
Qed.
End Resolution.

(* ===================================================================== *)
(** * The structural decoder *)
(* ===================================================================== *)

Section Decoder.
Local Arguments Convert : simpl never.

Context (P : Program) (reg : internal.Registry).

Lemma setStructLoop_all_fields fieldFn p prefix fs : forall vs ds,
  fieldResults fieldFn p prefix fs vs ds ->
  env.setStructLoop fieldFn p prefix fs vs
  = Ok (map env.dval ds, concat (map env.derrs ds), concat (map env.dlog ds)).
Proof.
  induction fs as [|f fs IH]; intros vs [|d ds] H; simpl in H; try done.
  destruct H as [Hd Hrest]. simpl. rewrite Hd. simpl.
  rewrite (IH _ _ Hrest). reflexivity.
Qed.

Lemma aggregate_Join errs :
  match errs with
  | [] => None
  | [e] => Some e
  | _ => errors.Join (map Some errs)
  end = aggregate errs.
Proof.
  destruct errs as [|e1 [|e2 es]]; try done.
  rewrite Join_map_Some. done.
Qed.

Lemma parseInternal_all_fields
    (t : rtype) (ref : value) (opts : env.parseParams) (prefix : string)
    (ds : list env.decoded) :
  Kind_of (typeOf ref) = KStruct ->
  fieldResults (env.setStructField P reg (S (env.structDepth (typeOf ref))))
    opts prefix (fieldsOf (typeOf ref))
    (match ref with VStruct _ vs => vs | _ => [] end) ds ->
  List.length ds = List.length (fieldsOf (typeOf ref)) /\
  env.parseInternal P reg (Some (VPtr t (Some ref))) opts prefix
  = Ok (Some (VPtr t (Some (VStruct (typeOf ref) (map env.dval ds)))),
        aggregate (concat (map env.derrs ds)),
        concat (map env.dlog ds)).
Proof.
  intros Hk Hds. split.
  - revert Hds. generalize (match ref with VStruct _ vs => vs | _ => [] end).
    generalize (fieldsOf (typeOf ref)).
    intros fs. revert ds. induction fs as [|f fs IH]; intros [|d ds] vs H;
      simpl in H; try done.
    destruct H as [_ H]. simpl. f_equal. eapply IH. exact H.
  - unfold env.parseInternal. rewrite bool_decide_eq_true_2 by exact Hk.
    cbn [negb]. unfold env.setStruct, env.setStructWith.
    rewrite (setStructLoop_all_fields _ _ _ _ _ _ Hds). cbn [rbind].
    cbn [env.derrs env.dval env.dlog]. rewrite aggregate_Join. reflexivity.
Qed.

(** C3. A field whose variable is absent or empty and that declares no
    default gets the value-not-set error and nothing else happens, also
    when the field is a nested record: its fields are not visited. *)
Theorem C3_nested_record_without_own_variable_is_not_entered
    (fuel : nat) (typ : rtype) (v : value) (p : env.parseParams)
    (f : env.fieldParams) (prefix : string) :
  Kind_of typ = KStruct ->
  internal.GetParseFunc P reg typ = Ok (None, O, false) ->
  resolveText p f = None ->
  env.setValue P reg (S fuel) typ v p f prefix
  = Ok {| env.dval := v;
          env.derrs := [env.errField (env.keyWithPrefix p (env.key f)) typ
                          (Some (sentinelError ErrValueNotSet))];
          env.dlog := [] |}.
Proof. intros _ _ H. apply setValue_unset. exact H. Qed.

(** C7. When every field of the record has been decoded, with whatever
    errors, [parseInternal] returns: no field stops the walk, the errors of
    all fields are kept in field order, and they are aggregated as nil
    (none), the error itself (one), or their join (more than one). *)
Theorem C7_parseInternal_collects_and_aggregates_field_errors
    (t : rtype) (ref : value) (opts : env.parseParams) (prefix : string)
    (ds : list env.decoded) :
  Kind_of (typeOf ref) = KStruct ->
  fieldResults (env.setStructField P reg (S (env.structDepth (typeOf ref))))
    opts prefix (fieldsOf (typeOf ref))
    (match ref with VStruct _ vs => vs | _ => [] end) ds ->
  List.length ds = List.length (fieldsOf (typeOf ref)) /\
  env.parseInternal P reg (Some (VPtr t (Some ref))) opts prefix
  = Ok (Some (VPtr t (Some (VStruct (typeOf ref) (map env.dval ds)))),
        aggregate (concat (map env.derrs ds)),
        concat (map env.dlog ds)).
Proof. apply parseInternal_all_fields. Qed.


(** A field of kind string decodes to its text. *)
Lemma setValue_string fuel typ v p f prefix raw isDefault :
  Kind_of typ = KString ->
  internal.registryLookup reg typ = None ->
  internal.handleTextUnmarshaler P typ = None ->
  resolveText p f = Some (raw, isDefault) ->
  env.setValue P reg (S fuel) typ v p f prefix =
    Ok {| env.dval := VString typ raw; env.derrs := [];
          env.dlog := if env.onSet p
                      then [(env.keyWithPrefix p (env.key f), VString typ raw,
                             isDefault)]
                      else [] |}.
Proof.
  intros Hk Hreg Htext Hres.
  rewrite (setValue_parsed P reg fuel typ v p f prefix raw isDefault
             (fun v => Ok (Some (VString (TBasic BString) v), None)) O
             (Some (VString (TBasic BString) raw)) None);
    [ | rewrite Hk; discriminate | done
      | apply GetParseFunc_builtin; [done | done | rewrite Hk; reflexivity]
      | reflexivity ].
  unfold Convert. simpl typeOf. rewrite Hk. simpl.
  rewrite (Kind_basic_underlying typ BString Hk). simpl. reflexivity.
Qed.

Lemma no_text_unmarshaler (b : basic) :
  Implements P (TBasic b) internal.unmarshalTyp = false ->
  Implements P (TPtr (TBasic b)) internal.unmarshalTyp = false ->
  internal.handleTextUnmarshaler P (TBasic b) = None.
Proof.
  intros H1 H2. unfold internal.handleTextUnmarshaler. simpl.
  rewrite H1, H2. reflexivity.
Qed.
End Decoder.
Lemma C3_witness :
  env.setValue example.program example.registry 2 example.Inner
    (Zero example.Inner) (example.withEnvironment example.numberSet)
    (example.fieldNamed "FOO") EmptyString
  = Ok {| env.dval := Zero example.Inner;
          env.derrs := [FieldError "FOO" example.Inner
                          (Some (sentinelError ErrValueNotSet))];
          env.dlog := [] |}.
Proof.
  apply (C3_nested_record_without_own_variable_is_not_entered
           example.program example.registry 1 example.Inner);
    reflexivity.
Defined.

(** The nested record of TestParsesEnvInnerFails with NUMBER set: the
    decoder asks for FOO and leaves Number at zero. *)
Example Parse_nested_record_reports_its_own_key :
  env.Parse example.program example.registry (Some (New example.Outer))
    (example.withEnvironment example.numberSet)
  = Ok (Some (New example.Outer),
        Some (FieldError "FOO" example.Inner
                (Some (sentinelError ErrValueNotSet))),
        []).
Proof. vm_compute. reflexivity. Qed.

(* ===================================================================== *)
(** * The fuel of the decoder *)
(* ===================================================================== *)

Section Fuel.
Context (P : Program) (reg : internal.Registry).

Lemma structDepth_Elem typ e :
  Elem typ = Ok e -> (env.structDepth e <= env.structDepth typ)%nat.
Proof.
  induction typ; simpl; intros H; try discriminate; auto;
    inversion H; subst; lia.
Qed.

Lemma structDepth_underlying typ :
  env.structDepth (underlying typ) = env.structDepth typ.
Proof. induction typ; simpl; auto. Qed.

Lemma structDepth_field typ f :
  In f (fieldsOf typ) ->
  (env.structDepth (fieldType f) < env.structDepth typ)%nat.
Proof.
  unfold fieldsOf. rewrite <- (structDepth_underlying typ).
  destruct (underlying typ) as [| | | | | | |fs| |]; try (intros []).
  simpl. induction fs as [|g fs IH]; [intros []|].
  intros [<- | Hin]; destruct g as [n e t tag]; simpl.
  - lia.
  - specialize (IH Hin). simpl in IH. lia.
Qed.

Lemma setStructLoop_ext fieldFn1 fieldFn2 p prefix fs : forall vs,
  (forall v f pre, In f fs -> fieldFn1 v f p pre = fieldFn2 v f p pre) ->
  env.setStructLoop fieldFn1 p prefix fs vs
  = env.setStructLoop fieldFn2 p prefix fs vs.
Proof.
  induction fs as [|f fs IH]; intros vs H; simpl; [done|].
  rewrite (H _ f _ (or_introl eq_refl)).
  destruct (fieldFn2 _ f p _); simpl; [|done].
  rewrite IH; [done|]. intros v g pre Hg. apply H. right. exact Hg.
Qed.

Lemma setStructFieldWith_ext valueFn1 valueFn2 v tags p prefix :
  (forall t w f pre,
     (env.structDepth t <= env.structDepth (fieldType tags))%nat ->
     valueFn1 t w p f pre = valueFn2 t w p f pre) ->
  env.setStructFieldWith P valueFn1 v tags p prefix
  = env.setStructFieldWith P valueFn2 v tags p prefix.
Proof.
  intros H. unfold env.setStructFieldWith.
  destruct (negb (fieldExported tags)); [done|].
  destruct (env.parseFieldParams P tags prefix) as [params|]; simpl; [|done].
  destruct (env.ignored params); [done|].
  destruct (_ && _).
  - destruct (Elem (fieldType tags)) as [elemT|] eqn:He; simpl; [|done].
    destruct (bool_decide (Kind_of elemT = KStruct)).
    + rewrite (H elemT) by (apply structDepth_Elem; exact He). done.
    + apply H. lia.
  - apply H. lia.
Qed.

(** Beyond the number of struct levels of the type, the fuel has no
    influence on what [setValue] returns. *)
Lemma setValue_fuel fuel1 : forall fuel2 typ v p f prefix,
  (env.structDepth typ < fuel1)%nat -> (env.structDepth typ < fuel2)%nat ->
  env.setValue P reg fuel1 typ v p f prefix
  = env.setValue P reg fuel2 typ v p f prefix.
Proof.
  induction fuel1 as [|fuel1 IH]; intros fuel2 typ v p f prefix H1 H2; [lia|].
  destruct fuel2 as [|fuel2]; [lia|].
  cbn [env.setValue].
  destruct (_ && negb (env.defaultSet f)); [done|].
  assert (Hstruct : forall typ1 v1,
    (env.structDepth typ1 <= env.structDepth typ)%nat ->
    env.setStructWith (env.setStructFieldWith P (env.setValue P reg fuel1))
      typ1 v1 p prefix
    = env.setStructWith (env.setStructFieldWith P (env.setValue P reg fuel2))
        typ1 v1 p prefix).
  { intros typ1 v1 Hle. unfold env.setStructWith.
    rewrite (setStructLoop_ext _
               (env.setStructFieldWith P (env.setValue P reg fuel2))); [done|].
    intros w g pre Hg. apply setStructFieldWith_ext.
    intros t w' f' pre' Ht. pose proof (structDepth_field typ1 g Hg).
    apply IH; lia. }
  destruct (bool_decide (Kind_of typ = KPointer)).
  - destruct (Elem typ) as [elemT|] eqn:He; simpl; [|done].
    destruct (internal.GetParseFunc P reg elemT) as [[[pf d] ok]|]; simpl; [|done].
    destruct ok; [done|].
    destruct (Kind_of elemT); try done.
    rewrite Hstruct by (apply structDepth_Elem; exact He). done.
  - simpl.
    destruct (internal.GetParseFunc P reg typ) as [[[pf d] ok]|]; simpl; [|done].
    destruct ok; [done|].
    destruct (Kind_of typ); try done.
    rewrite Hstruct by lia. done.
Qed.

(** [parseInternal] gives [setStruct] enough fuel: more fuel changes
    nothing. *)
Lemma setStruct_fuel typ v p prefix extra :
  env.setStruct P reg (S (env.structDepth typ) + extra) typ v p prefix
  = env.setStruct P reg (S (env.structDepth typ)) typ v p prefix.
Proof.
  unfold env.setStruct, env.setStructWith, env.setStructField.
  rewrite (setStructLoop_ext _
             (env.setStructFieldWith P
                (env.setValue P reg (S (env.structDepth typ))))); [done|].
  intros w g pre Hg. apply setStructFieldWith_ext.
  intros t w' f' pre' Ht. pose proof (structDepth_field typ g Hg).
  apply setValue_fuel; lia.
Qed.
End Fuel.

(* ===================================================================== *)
(** * Fields of kind int and uint *)
(* ===================================================================== *)

Lemma setValue_decimal32
    (P : Program) (reg : internal.Registry) (fuel : nat) (signed : bool)
    (typ : rtype) (v : value) (p : env.parseParams) (f : env.fieldParams)
    (prefix s : string) :
  IntSize P = 32 \/ IntSize P = 64 ->
  Kind_of typ = (if signed then KInt else KUint) ->
  internal.registryLookup reg typ = None ->
  internal.handleTextUnmarshaler P typ = None ->
  env.getEnv p (env.key f) = Some s ->
  decimal.isDecimal signed s = true ->
  env.setValue P reg (S fuel) typ v p f prefix =
    let n := decimal.valueOf signed s in
    if decimal.fits32 signed n then
      Ok {| env.dval := VInt typ n; env.derrs := [];
            env.dlog := if env.onSet p
                        then [(env.keyWithPrefix p (env.key f), VInt typ n, false)]
                        else [] |}
    else
      Ok {| env.dval := v;
            env.derrs :=
              [env.errField (env.keyWithPrefix p (env.key f)) typ
                 (Some (NumError (if signed then "ParseInt" else "ParseUint")
                          s ErrRange))];
            env.dlog := [] |}.
Proof.
  intros Hsz Hk Hreg Htext Henv Hdec.
  unfold decimal.isDecimal, decimal.valueOf, decimal.fits32 in *.
  destruct signed; cbv iota zeta in Hdec, Hk |- *.
  - pose proof (ParseInt_spec s 32 ltac:(lia) Hdec) as Hspec.
    cbv zeta in Hspec. change (32 - 1) with 31 in Hspec.
    assert (Hg : internal.GetParseFunc P reg typ
                 = Ok (Some (internal.parseIntAs P BInt 32), O, true)).
    { apply GetParseFunc_builtin; [done | done | rewrite Hk; reflexivity]. }
    set (n := decimal.signedValue s) in *.
    destruct ((- 2 ^ 31 <=? n) && (n <=? 2 ^ 31 - 1)) eqn:Hfit.
    + rewrite (setValue_parsed P reg fuel typ v p f prefix s false (internal.parseIntAs P BInt 32) O
                 (Some (internal.basicValue P BInt n)) None);
        [ | rewrite Hk; discriminate | by apply resolveText_set; [|apply isSigned_nonempty] | done
          | unfold internal.parseIntAs; rewrite Hspec; reflexivity ].
      apply andb_true_iff in Hfit as [H1 H2].
      unfold internal.basicValue, wrapTo. simpl.
      rewrite wrapSigned_small by (simpl; lia).
      unfold Convert. simpl typeOf. rewrite Hk. simpl.
      rewrite (Kind_basic_underlying typ BInt Hk). simpl. reflexivity.
    + rewrite (setValue_parsed P reg fuel typ v p f prefix s false (internal.parseIntAs P BInt 32) O
                 (Some (internal.basicValue P BInt
                          (if n <? 0 then - 2 ^ 31 else 2 ^ 31 - 1)))
                 (Some (strconv.rangeError "ParseInt" s)));
        [ reflexivity | rewrite Hk; discriminate
          | by apply resolveText_set; [|apply isSigned_nonempty] | done
          | unfold internal.parseIntAs; rewrite Hspec; reflexivity ].
  - pose proof (ParseUint_spec s 32 ltac:(lia) Hdec) as Hspec.
    assert (Hg : internal.GetParseFunc P reg typ
                 = Ok (Some (internal.parseUintAs P BUint 32), O, true)).
    { apply GetParseFunc_builtin; [done | done | rewrite Hk; reflexivity]. }
    assert (Hnn : 0 <= decimal.unsignedValue s).
    { apply (valueFrom_ge s 0 ltac:(lia)). destruct s; [done|]. exact Hdec. }
    set (n := decimal.unsignedValue s) in *.
    destruct (Z.leb_spec 0 n); [|lia]. cbv iota beta delta [andb].
    destruct (Z.leb_spec n (2 ^ 32 - 1)) as [Hfit|Hfit].
    + rewrite (setValue_parsed P reg fuel typ v p f prefix s false (internal.parseUintAs P BUint 32) O
                 (Some (internal.basicValue P BUint n)) None);
        [ | rewrite Hk; discriminate | by apply resolveText_set; [|apply isUnsigned_nonempty] | done
          | unfold internal.parseUintAs; rewrite Hspec; reflexivity ].
      unfold internal.basicValue, wrapTo. simpl.
      rewrite wrapUnsigned_small by (simpl; lia).
      unfold Convert. simpl typeOf. rewrite Hk. simpl.
      rewrite (Kind_basic_underlying typ BUint Hk). simpl. reflexivity.
    + rewrite (setValue_parsed P reg fuel typ v p f prefix s false (internal.parseUintAs P BUint 32) O
                 (Some (internal.basicValue P BUint (2 ^ 32 - 1)))
                 (Some (strconv.rangeError "ParseUint" s)));
        [ reflexivity | rewrite Hk; discriminate
          | by apply resolveText_set; [|apply isUnsigned_nonempty] | done
          | unfold internal.parseUintAs; rewrite Hspec; reflexivity ].
Qed.


(** C9. The record with [Port int `env:"PORT"`] and [Host string
    `env:"HOST" default:"0.0.0.0"`], in a program where neither [int] nor
    [string] decodes itself from text: from PORT=3000 and HOST=localhost
    the decoder yields Port=3000 and Host="localhost"; with HOST absent it
    yields Host="0.0.0.0" and calls the observer for HOST with the
    is-default flag set. *)
Theorem C9_port_and_host_example (P : Program) :
  IntSize P = 32 \/ IntSize P = 64 ->
  (forall b, In b [BInt; BString] ->
     Implements P (TBasic b) internal.unmarshalTyp = false /\
     Implements P (TPtr (TBasic b)) internal.unmarshalTyp = false) ->
  let record host :=
    Some (VPtr (TPtr example.Config)
            (Some (VStruct example.Config
                     [VInt (TBasic BInt) 3000;
                      VString (TBasic BString) host]))) in
  env.Parse P (internal.envRegistry P) (Some (New example.Config))
    (example.withEnvironment example.bothSet)
  = Ok (record "localhost", None,
        [("PORT", VInt (TBasic BInt) 3000, false);
         ("HOST", VString (TBasic BString) "localhost", false)])
  /\
  env.Parse P (internal.envRegistry P) (Some (New example.Config))
    (example.withEnvironment example.hostAbsent)
  = Ok (record "0.0.0.0", None,
        [("PORT", VInt (TBasic BInt) 3000, false);
         ("HOST", VString (TBasic BString) "0.0.0.0", true)]).
Proof.
  intros Hsz Himpl record.
  destruct (Himpl BInt ltac:(simpl; auto)) as [Hi0 Hi1].
  destruct (Himpl BString ltac:(simpl; auto)) as [Hs0 Hs1].
  assert (Hport : forall e v,
    e !! "PORT" = Some "3000" ->
    env.setStructField P (internal.envRegistry P) 2 v
      (mkStructField "Port" true (TBasic BInt) [("env", "PORT")])
      (example.withEnvironment e) EmptyString
    = Ok {| env.dval := VInt (TBasic BInt) 3000; env.derrs := [];
            env.dlog := [("PORT", VInt (TBasic BInt) 3000, false)] |}).
  { intros e v He. unfold env.setStructField, env.setStructFieldWith.
    cbn [fieldExported fieldType negb].
    change (env.parseFieldParams P _ _) with (Ok (example.fieldNamed "PORT")).
    cbn [rbind example.fieldNamed env.ignored Kind_of basicKind].
    rewrite bool_decide_eq_false_2 by discriminate. cbn [andb].
    rewrite (setValue_decimal32 P (internal.envRegistry P) 1 true (TBasic BInt)
               v _ _ EmptyString "3000"); try done.
    apply no_text_unmarshaler; done. }
  assert (Hhost : forall e v raw isDefault,
    resolveText (example.withEnvironment e)
      {| env.key := "HOST"; env.DefaultValue := "0.0.0.0";
         env.separator := ","; env.kvSeparator := ":";
         env.defaultSet := true; env.ignored := false |}
      = Some (raw, isDefault) ->
    env.setStructField P (internal.envRegistry P) 2 v
      (mkStructField "Host" true (TBasic BString)
         [("env", "HOST"); ("default", "0.0.0.0")])
      (example.withEnvironment e) EmptyString
    = Ok {| env.dval := VString (TBasic BString) raw; env.derrs := [];
            env.dlog := [("HOST", VString (TBasic BString) raw, isDefault)] |}).
  { intros e v raw isDefault Hres.
    unfold env.setStructField, env.setStructFieldWith.
    cbn [fieldExported fieldType negb].
    change (env.parseFieldParams P _ _)
      with (Ok {| env.key := "HOST"; env.DefaultValue := "0.0.0.0";
                  env.separator := ","; env.kvSeparator := ":";
                  env.defaultSet := true; env.ignored := false |}).
    cbn [rbind env.ignored Kind_of basicKind].
    rewrite bool_decide_eq_false_2 by discriminate. cbn [andb].
    rewrite (setValue_string P (internal.envRegistry P) 1 (TBasic BString) v
               _ _ EmptyString raw isDefault); try done.
    apply no_text_unmarshaler; done. }
  split.
  - apply (parseInternal_all_fields P (internal.envRegistry P)
             (TPtr example.Config) (Zero example.Config)
             (example.withEnvironment example.bothSet) EmptyString
             [ {| env.dval := VInt (TBasic BInt) 3000; env.derrs := [];
                  env.dlog := [("PORT", VInt (TBasic BInt) 3000, false)] |};
               {| env.dval := VString (TBasic BString) "localhost";
                  env.derrs := [];
                  env.dlog := [("HOST", VString (TBasic BString) "localhost",
                                false)] |} ]);
      [reflexivity|].
    split; [apply Hport; reflexivity|].
    split; [apply Hhost; reflexivity | exact I].
  - apply (parseInternal_all_fields P (internal.envRegistry P)
             (TPtr example.Config) (Zero example.Config)
             (example.withEnvironment example.hostAbsent) EmptyString
             [ {| env.dval := VInt (TBasic BInt) 3000; env.derrs := [];
                  env.dlog := [("PORT", VInt (TBasic BInt) 3000, false)] |};
               {| env.dval := VString (TBasic BString) "0.0.0.0";
                  env.derrs := [];
                  env.dlog := [("HOST", VString (TBasic BString) "0.0.0.0",
                                true)] |} ]);
      [reflexivity|].
    split; [apply Hport; reflexivity|].
    split; [apply Hhost; reflexivity | exact I].
Qed.

(* ===================================================================== *)
(** * The properties on concrete inputs *)
(* ===================================================================== *)



Lemma C2_witness :
  internal.GetParseFunc example.program example.registry (TPtr example.Plain)
    = Panic "reflect: Elem of invalid type".
Proof.
  apply (C2_GetParseFunc_pointer_to_unparsable_struct_panics
           example.program example.registry example.Plain); reflexivity.
Defined.

Lemma C4_witness :
  scheduler.exec (scheduler.RunJobs 2) example.schedule
    = Some example.afterSchedule /\
  exists rs,
    List.length rs = 2%nat /\
    scheduler.goroutines example.afterSchedule = map scheduler.Finished rs /\
    Permutation (scheduler.errs example.afterSchedule)
      (omap scheduler.omitContextErr rs) /\
    Some (joinError [example.boom])
      = match scheduler.errs example.afterSchedule with
        | [] => None
        | e :: l => Some (joinError (e :: l))
        end /\
    (Some (joinError [example.boom]) = None <->
     forall r, In r rs -> scheduler.omitContextErr r = None).
Proof.
  split; [reflexivity|].
  apply (proj1 (C4_RunJobs_waits_for_all_and_joins_non_context_errors 2)
           example.schedule example.afterSchedule
           (Some (joinError [example.boom]))); reflexivity.
Defined.



(** The per-entry failures of a map field are all reported together. *)
Example setMap_collects_entry_errors :
  env.setMap example.program example.registry example.stringIntMap
    (Zero example.stringIntMap) "a:1,b:x,c:3,d:y"
    (example.fieldNamed "LIMITS") (example.withEnvironment ∅)
  = Ok {| env.dval := Zero example.stringIntMap;
          env.derrs :=
            [FieldError "LIMITS" example.stringIntMap
               (Some (joinError
                        [wrapError "value %q: %w" ["x"]
                           (NumError "ParseInt" "x" ErrSyntax);
                         wrapError "value %q: %w" ["y"]
                           (NumError "ParseInt" "y" ErrSyntax)]))];
          env.dlog := [] |}.
Proof. vm_compute. reflexivity. Qed.

Lemma C7_witness :
  env.parseInternal example.program example.registry
    (Some (New example.Required)) (example.withEnvironment ∅) EmptyString
  = Ok (Some (New example.Required),
        Some (joinError
                [FieldError "NAME" (TBasic BString)
                   (Some (sentinelError ErrValueNotSet));
                 FieldError "COUNT" (TBasic BInt)
                   (Some (sentinelError ErrValueNotSet))]),
        []).
Proof.
  apply (C7_parseInternal_collects_and_aggregates_field_errors
           example.program example.registry (TPtr example.Required)
           (Zero example.Required) (example.withEnvironment ∅) EmptyString
           [ {| env.dval := VString (TBasic BString) EmptyString;
                env.derrs := [FieldError "NAME" (TBasic BString)
                                (Some (sentinelError ErrValueNotSet))];
                env.dlog := [] |};
             {| env.dval := VInt (TBasic BInt) 0;
                env.derrs := [FieldError "COUNT" (TBasic BInt)
                                (Some (sentinelError ErrValueNotSet))];
                env.dlog := [] |} ]).
  - reflexivity.
  - simpl. repeat split; vm_compute; reflexivity.
Defined.

(** C8 as stated fails where the base type itself implements the
    interface: [Label] is text-decodable, the texts "abc" and "xyz" are both
    accepted, and both leave the same value in the field, so that no
    serialization gives back the text that was decoded. *)
Lemma C8_counterexample_value_receiver_loses_the_text :
  internal.handleTextUnmarshaler example.program example.Label <> None /\
  exists d,
    env.setStructField example.program example.registry 1
      (Zero example.Label) example.labelField
      (example.withEnvironment (<["LABEL" := "abc"]> ∅)) EmptyString = Ok d /\
    env.setStructField example.program example.registry 1
      (Zero example.Label) example.labelField
      (example.withEnvironment (<["LABEL" := "xyz"]> ∅)) EmptyString = Ok d /\
    env.derrs d = [] /\
    ~ exists MarshalText : value -> string,
        MarshalText (env.dval d) = "abc" /\ MarshalText (env.dval d) = "xyz".
Proof.
  split; [vm_compute; discriminate|].
  eexists. split; [vm_compute; reflexivity|].
  split; [vm_compute; reflexivity|].
  split; [reflexivity|].
  intros (m & H1 & H2). rewrite H1 in H2. discriminate.
Qed.

Lemma C8_witness :
  exists d,
    env.setStructField example.program example.registry 1
      (Zero (PtrN 2 example.LogLevel)) (example.levelField 2)
      (example.withEnvironment (<["LEVEL" := "debug"]> ∅)) EmptyString = Ok d /\
    env.derrs d = [] /\
    typeOf (env.dval d) = PtrN 2 example.LogLevel /\
    derefN 2 (env.dval d) = Some (VInt example.LogLevel (-1)).
Proof.
  destruct (proj2 (C8_text_decodable_field_gets_its_declared_pointer_depth
                     example.program example.registry O example.LogLevel 2
                     (example.levelField 2) (Zero (PtrN 2 example.LogLevel))
                     (example.withEnvironment (<["LEVEL" := "debug"]> ∅))
                     EmptyString (example.fieldNamed "LEVEL") "debug"
                     ltac:(discriminate) ltac:(discriminate)
                     eq_refl eq_refl eq_refl eq_refl eq_refl
                     ltac:(discriminate)
                     ltac:(intros [|[|k]]; reflexivity))
              eq_refl eq_refl (VInt example.LogLevel (-1)) eq_refl eq_refl)
    as (_ & _ & d & Hd & He & Ht & Hv & _).
  exists d. repeat split; assumption.
Defined.

Lemma C9_witness :
  env.Parse example.program example.registry (Some (New example.Config))
    (example.withEnvironment example.hostAbsent)
  = Ok (Some (VPtr (TPtr example.Config)
                (Some (VStruct example.Config
                         [VInt (TBasic BInt) 3000;
                          VString (TBasic BString) "0.0.0.0"]))),
        None,
        [("PORT", VInt (TBasic BInt) 3000, false);
         ("HOST", VString (TBasic BString) "0.0.0.0", true)]).
Proof.
  apply (proj2 (C9_port_and_host_example example.program
                  ltac:(right; reflexivity)
                  ltac:(intros b [<- | [<- | []]]; split; reflexivity))).
Defined.


(* ===================================================================== *)
(** * The decoder: edges and invariants *)
(* ===================================================================== *)

Section DecoderEdges.
Local Arguments Convert : simpl never.
Context (P : Program) (reg : internal.Registry).


(** A field whose decoding panics makes the walk over the struct panic. *)
Lemma setStructLoop_panics fieldFn p prefix fs f : forall vs,
  In f fs ->
  (forall v, isPanic (fieldFn v f p (env.structTagPrefix prefix f)) = true) ->
  isPanic (env.setStructLoop fieldFn p prefix fs vs) = true.
Proof.
  induction fs as [|g fs IH]; intros vs Hin Hp; [destruct Hin|].
  cbn [env.setStructLoop].
  destruct Hin as [<- | Hin].
  - specialize (Hp (match vs with v :: _ => v | [] => Zero (fieldType g) end)).
    destruct (fieldFn _ g p _); [discriminate | reflexivity].
  - destruct (fieldFn _ g p _); [|reflexivity]. cbn [rbind].
    specialize (IH (tail vs) Hin Hp).
    destruct (env.setStructLoop fieldFn p prefix fs (tail vs)) as [[[? ?] ?]|];
      [discriminate | reflexivity].
Qed.

Lemma parseFieldParams_option field prefix o :
  In o (snd (env.tagOption (TagGet (fieldTag field) env.tagName))) ->
  o <> EmptyString ->
  env.parseFieldParams P field prefix = Panic "unsupported tag option".
Proof.
  intros Hin Hne. unfold env.parseFieldParams.
  destruct (env.tagOption _) as [key tags]. cbn [snd] in Hin.
  destruct (forallb (String.eqb "") tags) eqn:Hall; [|reflexivity].
  rewrite forallb_forall in Hall. specialize (Hall o Hin).
  apply String.eqb_eq in Hall. congruence.
Qed.

(** X2. An exported field whose [env] tag carries a non-empty option
    after a comma (as in [`env:"PORT,required"`]) makes [Parse] panic,
    whatever the environment holds: no option is supported. *)
Theorem Parse_panics_on_tag_option t ref p f o :
  Kind_of (typeOf ref) = KStruct ->
  In f (fieldsOf (typeOf ref)) ->
  fieldExported f = true ->
  In o (snd (env.tagOption (TagGet (fieldTag f) env.tagName))) ->
  o <> EmptyString ->
  isPanic (env.Parse P reg (Some (VPtr t (Some ref))) p) = true.
Proof.
  intros Hk Hin Hexp Ho Hne.
  unfold env.Parse, env.parseInternal.
  rewrite bool_decide_eq_true_2 by exact Hk. cbn [negb].
  unfold env.setStruct, env.setStructWith.
  pose proof (setStructLoop_panics
                (env.setStructField P reg (S (env.structDepth (typeOf ref))))
                p EmptyString (fieldsOf (typeOf ref)) f
                (match ref with VStruct _ vs => vs | _ => [] end) Hin) as Hp.
  destruct (env.setStructLoop _ p EmptyString _ _) as [[[? ?] ?]|];
    [|reflexivity].
  exfalso. enough (false = true) by discriminate. apply Hp.
  intros v. unfold env.setStructField, env.setStructFieldWith.
  rewrite Hexp. cbn [negb].
  rewrite (parseFieldParams_option f _ o Ho Hne). reflexivity.
Qed.

(** X3. [setStructField] leaves a field that is not exported, and a field
    tagged [`env:"-"`], as it is: no error, no observer call, whatever the
    type of the field, the prefix and the environment. *)
Theorem setStructField_skips_unexported_and_dash fuel v tags p prefix :
  fieldExported tags = false \/ TagGet (fieldTag tags) env.tagName = "-" ->
  env.setStructField P reg fuel v tags p prefix = Ok (env.unchanged v).
Proof.
  unfold env.setStructField, env.setStructFieldWith.
  destruct (fieldExported tags); intros [H | H]; try discriminate;
    try reflexivity.
  cbn [negb]. unfold env.parseFieldParams. rewrite H.
  reflexivity.
Qed.






Lemma Parse_not_struct_pointer v p :
  (forall t ref, v = Some (VPtr t (Some ref)) ->
                 Kind_of (typeOf ref) <> KStruct) ->
  env.Parse P reg v p = Ok (v, Some (sentinelError ErrNotStructPtr), []).
Proof.
  intros H. unfold env.Parse, env.parseInternal.
  destruct v as [[| | | |t [ref|]| | | | | |]|]; try reflexivity.
  rewrite bool_decide_eq_false_2 by (eapply H; reflexivity). reflexivity.
Qed.

Lemma ParseAs_not_struct T p :
  Kind_of T <> KStruct ->
  env.ParseAs P reg T p = Ok (Zero T, Some (sentinelError ErrNotStructPtr), []).
Proof.
  intros H. unfold env.ParseAs.
  rewrite Parse_not_struct_pointer; [reflexivity|].
  intros t ref [= <- <-]. rewrite typeOf_Zero. exact H.
Qed.

End DecoderEdges.

Section DecoderPointers.
Local Arguments Convert : simpl never.
Context (P : Program) (reg : internal.Registry).

Lemma Kind_PtrN_O_or_pointer n base :
  Kind_of (PtrN n base) = KPointer \/ n = O.
Proof. destruct n; [right | left]; reflexivity. Qed.

(** The loop of [GetParseFunc] on [n] pointers over a type of a built-in
    kind: one level is stripped per round and counted. *)
Lemma getParseFuncLoop_builtin base g inner : forall n d,
  Kind_of base <> KPointer ->
  (n = O \/ Kind_of inner = KPointer) ->
  (forall k, (k <= n)%nat -> internal.registryLookup reg (PtrN k base) = None) ->
  Implements P base internal.unmarshalTyp = false ->
  Implements P (TPtr base) internal.unmarshalTyp = false ->
  internal.defaultBuiltInParsers P (Kind_of base) = Some g ->
  internal.getParseFuncLoop P reg inner (PtrN n base) d
  = Ok (Some g, (d + n)%nat, true).
Proof.
  induction n as [|n IH]; intros d Hk Hin Hreg Hi0 Hi1 Hg.
  - rewrite getParseFuncLoop_eq. rewrite (Hreg O) by lia.
    rewrite (handleTextUnmarshaler_none P base O) by done.
    cbn [PtrN]. rewrite Hg. rewrite Nat.add_0_r. reflexivity.
  - rewrite getParseFuncLoop_eq. rewrite (Hreg (S n)) by lia.
    rewrite (handleTextUnmarshaler_none P base (S n)) by done.
    cbn [PtrN Kind_of internal.defaultBuiltInParsers Elem rbind].
    destruct Hin as [Hin | Hin]; [discriminate|].
    rewrite bool_decide_eq_true_2 by exact Hin. cbn [negb].
    rewrite IH; try done.
    + do 3 f_equal. lia.
    + right. exact Hin.
    + intros k Hle. apply Hreg. lia.
Qed.

Lemma GetParseFunc_pointer_depth base g n :
  Kind_of base <> KPointer ->
  (forall k, (k <= n)%nat -> internal.registryLookup reg (PtrN k base) = None) ->
  Implements P base internal.unmarshalTyp = false ->
  Implements P (TPtr base) internal.unmarshalTyp = false ->
  internal.defaultBuiltInParsers P (Kind_of base) = Some g ->
  internal.GetParseFunc P reg (PtrN n base) = Ok (Some g, n, true).
Proof.
  intros Hk Hreg Hi0 Hi1 Hg. unfold internal.GetParseFunc.
  rewrite (getParseFuncLoop_builtin base g (PtrN n base) n O); try done.
  destruct (Kind_PtrN_O_or_pointer n base); [right | left]; assumption.
Qed.

(** One step of [setValue] for a field that has a text to decode. *)
Lemma setValue_text fuel typ v p f prefix raw isDefault :
  resolveText p f = Some (raw, isDefault) ->
  env.setValue P reg (S fuel) typ v p f prefix =
  (let* '(typ1, v1, store) :=
     if bool_decide (Kind_of typ = KPointer) then
       let* elemT := Elem typ in
       Ok (elemT, default (Zero elemT) (env.ptrTarget v),
           fun t => VPtr typ (Some t))
     else Ok (typ, v, fun t => t) in
   let* '(parserFunc, ptrDepth, ok) := internal.GetParseFunc P reg typ1 in
   if ok then
     let* '(val, err) := callParser parserFunc raw in
     match err with
     | Some err =>
       Ok {| env.dval := store v1;
             env.derrs := [env.errField (env.keyWithPrefix p (env.key f)) typ1
                             (Some err)];
             env.dlog := [] |}
     | None =>
       let* value := Convert (IntSize P) (Implements P) val typ1 in
       Ok {| env.dval := store value;
             env.derrs := [];
             env.dlog := if env.onSet p
                         then [(env.keyWithPrefix p (env.key f), value, isDefault)]
                         else [] |}
     end
   else
     let* d :=
       match Kind_of typ1 with
       | KStruct =>
         env.setStructWith
           (env.setStructFieldWith P (env.setValue P reg fuel)) typ1 v1 p prefix
       | KSlice => env.setSlice P reg typ1 v1 raw f p
       | KMap => env.setMap P reg typ1 v1 raw f p
       | _ => Panic "no parser found"
       end in
     Ok {| env.dval := store (env.dval d); env.derrs := env.derrs d;
           env.dlog := env.dlog d |}).
Proof.
  unfold resolveText. intros Hres. cbn [env.setValue].
  destruct (env.getEnv p (env.key f)) as [[|c s]|];
    destruct (env.defaultSet f); cbn in Hres |- *;
    inversion Hres; subst; reflexivity.
Qed.

End DecoderPointers.


Section DecoderPointers2.
Local Arguments Convert : simpl never.
Context (P : Program) (reg : internal.Registry).

(** X6. A field of type [*T], [T] no pointer type, that has a text to
    decode is decoded as a field of type [T] would be, into the target of
    the pointer (a fresh zero value when the pointer is nil), and the
    outcome is stored behind the pointer. *)
Theorem pointer_field_decodes_its_target fuel T v tags p prefix params raw isDefault :
  Kind_of T <> KPointer ->
  fieldExported tags = true -> fieldType tags = TPtr T ->
  env.parseFieldParams P tags prefix = Ok params ->
  env.ignored params = false ->
  resolveText p params = Some (raw, isDefault) ->
  env.setStructField P reg (S fuel) v tags p prefix =
    let* d := env.setValue P reg (S fuel) T
                (default (Zero T) (env.ptrTarget v)) p params prefix in
    Ok (storedBehind (TPtr T) d).
Proof.
  intros HT Hexp Hty Hparams Hign Hres.
  assert (Hptr : forall w,
    env.setValue P reg (S fuel) (TPtr T) w p params prefix =
    let* d := env.setValue P reg (S fuel) T
                (default (Zero T) (env.ptrTarget w)) p params prefix in
    Ok (storedBehind (TPtr T) d)).
  { intros w. rewrite !(setValue_text P reg fuel _ _ _ _ _ raw isDefault Hres).
    cbn [Kind_of Elem]. rewrite bool_decide_eq_true_2 by reflexivity.
    rewrite bool_decide_eq_false_2 by exact HT. cbn [rbind].
    unfold storedBehind.
    destruct (internal.GetParseFunc P reg T) as [[[pf d] ok]|];
      cbn [rbind]; [|reflexivity].
    destruct ok.
    - destruct (callParser pf raw) as [[val err]|]; cbn [rbind]; [|reflexivity].
      destruct err; [reflexivity|].
      destruct (Convert _ _ val T); reflexivity.
    - match goal with |- context [rbind ?x _] => destruct x end; reflexivity. }

  unfold env.setStructField, env.setStructFieldWith.
  rewrite Hexp, Hparams. cbn [negb rbind]. rewrite Hign, Hty.
  cbn [Kind_of]. rewrite bool_decide_eq_true_2 by reflexivity. cbn [andb].
  destruct (bool_decide (env.ptrTarget v = None)) eqn:Hnil; [|apply Hptr].
  apply bool_decide_eq_true in Hnil. rewrite Hnil. cbn [Elem rbind default].
  destruct (bool_decide (Kind_of T = KStruct)).
  - reflexivity.
  - rewrite Hptr. reflexivity.
Qed.

(** The built-in parser of a kind returns a value of the predeclared type of
    that kind, also when it reports an error. *)
Lemma defaultBuiltInParsers_type b g raw :
  internal.defaultBuiltInParsers P (basicKind b) = Some g ->
  exists val err, g raw = Ok (Some val, err) /\ typeOf val = TBasic b.
Proof.
  destruct b; cbn [basicKind internal.defaultBuiltInParsers];
    intros [= <-];
    unfold internal.parseIntAs, internal.parseUintAs, internal.basicValue;
    try (destruct (strconv.ParseInt raw _); eauto; fail);
    try (destruct (strconv.ParseUint raw _); eauto; fail);
    try (destruct (strconv.ParseBool raw); eauto; fail);
    try (destruct (strconv_ParseFloat P raw _); eauto; fail);
    eauto.
Qed.

Lemma Convert_to_pointer val typ :
  Kind_of (typeOf val) <> KPointer -> Kind_of typ = KPointer ->
  Convert (IntSize P) (Implements P) (Some val) typ
  = Panic "reflect.Value.Convert: value of type cannot be converted".
Proof.
  intros Hs Ht. unfold Convert.
  rewrite bool_decide_eq_false_2 by (rewrite Ht; discriminate).
  assert (Hu : rtype_eqb (underlying (typeOf val)) (underlying typ) = false).
  { destruct (rtype_eqb _ _) eqn:Heq; [|reflexivity]. exfalso.
    clear -Hs Ht Heq.
    assert (Hku : forall t, Kind_of (underlying t) = Kind_of t)
      by (induction t; simpl; auto).
    assert (Hpt : exists e, underlying typ = TPtr e).
    { specialize (Hku typ). rewrite Ht in Hku.
      assert (Hn : forall t, underlying (underlying t) = underlying t)
        by (induction t; simpl; auto).
      destruct (underlying typ) eqn:Hut; try discriminate; eauto.
      - destruct b; discriminate.
      - specialize (Hn typ). rewrite Hut in Hn. simpl in Hn.
        exfalso. clear -Hut. revert Hut. induction typ; simpl; try discriminate; auto. }
    destruct Hpt as [e He]. rewrite He in Heq.
    specialize (Hku (typeOf val)).
    destruct (underlying (typeOf val)); simpl in Heq; try discriminate.
    simpl in Hku. congruence. }
  rewrite Hu. rewrite Ht.
  destruct (typeOf val) eqn:Hsrc; destruct typ; destruct val;
    simpl in *; try reflexivity; try congruence.
Qed.

End DecoderPointers2.


Section DecoderPointers3.
Local Arguments Convert : simpl never.
Context (P : Program) (reg : internal.Registry).

Lemma Kind_basic_not_pointer b : basicKind b <> KPointer.
Proof. destruct b; discriminate. Qed.

(** X7. A field with two or more levels of pointers over a type of a
    built-in kind panics when the built-in parser accepts its text: the
    lookup returns the parser of the kind with the pointer depth,
    [setValue] ignores the depth and converts the parsed value to the
    pointer type. *)
Theorem double_pointer_field_panics fuel b g n v tags p prefix params raw
    isDefault val :
  (forall k, (k <= S n)%nat ->
             internal.registryLookup reg (PtrN k (TBasic b)) = None) ->
  Implements P (TBasic b) internal.unmarshalTyp = false ->
  Implements P (TPtr (TBasic b)) internal.unmarshalTyp = false ->
  internal.defaultBuiltInParsers P (basicKind b) = Some g ->
  fieldExported tags = true ->
  fieldType tags = PtrN (S (S n)) (TBasic b) ->
  env.parseFieldParams P tags prefix = Ok params ->
  env.ignored params = false ->
  resolveText p params = Some (raw, isDefault) ->
  g raw = Ok (val, None) ->
  env.setStructField P reg (S fuel) v tags p prefix
  = Panic "reflect.Value.Convert: value of type cannot be converted".
Proof.
  intros Hreg Hi0 Hi1 Hg Hexp Hty Hparams Hign Hres Hrun.
  destruct (defaultBuiltInParsers_type P b g raw Hg) as (val' & err & Hrun' & Htv).
  rewrite Hrun in Hrun'. inversion Hrun'; subst val err; clear Hrun'.
  assert (Hlook : internal.GetParseFunc P reg (PtrN (S n) (TBasic b))
                  = Ok (Some g, S n, true)).
  { apply GetParseFunc_pointer_depth; try done. apply Kind_basic_not_pointer. }
  assert (Hval : forall w,
    env.setValue P reg (S fuel) (PtrN (S (S n)) (TBasic b)) w p params prefix
    = Panic "reflect.Value.Convert: value of type cannot be converted").
  { intros w. rewrite (setValue_text P reg fuel _ _ _ _ _ raw isDefault Hres).
    cbn [PtrN Kind_of Elem]. rewrite bool_decide_eq_true_2 by reflexivity.
    cbn [rbind]. change (TPtr (PtrN n (TBasic b))) with (PtrN (S n) (TBasic b)).
    rewrite Hlook. cbn [rbind callParser]. rewrite Hrun. cbn [rbind].
    rewrite Convert_to_pointer; [reflexivity | | reflexivity].
    rewrite Htv. apply Kind_basic_not_pointer. }
  unfold env.setStructField, env.setStructFieldWith.
  rewrite Hexp, Hparams. cbn [negb rbind]. rewrite Hign, Hty.
  rewrite (bool_decide_eq_true_2 _ (Kind_PtrN_S (S n) (TBasic b))). cbn [andb].
  destruct (bool_decide (env.ptrTarget v = None)); [|apply Hval].
  cbn [PtrN Elem rbind Kind_of]. rewrite bool_decide_eq_false_2 by discriminate.
  apply Hval.
Qed.

(** The element loop of [setSlice] when every part is accepted. *)
Lemma setSliceLoop_success pf depth itemType parts : forall rs pre zs,
  (List.length parts <= List.length zs)%nat ->
  Forall2 (fun part r =>
             callParser pf part = Ok (Some r, None) /\
             AssignableTo (Implements P) (typeOf (wrapPointers depth r)) itemType
             = true) parts rs ->
  env.setSliceLoop P pf depth itemType (List.length pre) parts []
    (pre ++ zs)%list
  = Ok ([], (pre ++ map (wrapPointers depth) rs
               ++ drop (List.length parts) zs)%list).
Proof.
  induction parts as [|part parts IH]; intros rs pre zs Hlen H;
    inversion H as [|? r ? rs' [Hrun Hassign] Hrest]; subst.
  - cbn. rewrite drop_0. reflexivity.
  - cbn [env.setSliceLoop]. rewrite Hrun. cbn [rbind]. rewrite Hassign.
    destruct zs as [|z zs]; [simpl in Hlen; lia|].
    rewrite insert_app_r_alt by lia. rewrite Nat.sub_diag.
    change (<[O := wrapPointers depth r]> (z :: zs))
      with (wrapPointers depth r :: zs).

    specialize (IH rs' (pre ++ [wrapPointers depth r])%list zs).
    rewrite length_app in IH. cbn [List.length] in IH.
    replace (List.length pre + 1)%nat with (S (List.length pre)) in IH by lia.
    rewrite <- app_assoc in IH. cbn [app] in IH.
    rewrite IH; [|simpl in Hlen; lia | exact Hrest].
    rewrite <- app_assoc. reflexivity.
Qed.

(** A sequence field whose parts are all accepted: the field becomes the
    sequence of the parsed values, in the order of the parts, each behind
    as many pointers as the lookup stripped. *)
Lemma setSlice_success typ itemType field value f p pf depth rs :
  Kind_of typ = KSlice ->
  Elem typ = Ok itemType ->
  internal.GetParseFunc P reg itemType = Ok (pf, depth, true) ->
  Forall2 (fun part r =>
             callParser pf part = Ok (Some r, None) /\
             AssignableTo (Implements P) (typeOf (wrapPointers depth r)) itemType
             = true) (strings.Split value (env.separator f)) rs ->
  env.setSlice P reg typ field value f p
  = Ok {| env.dval := VSlice typ (Some (map (wrapPointers depth) rs));
          env.derrs := []; env.dlog := [] |}.
Proof.
  intros Hk He Hg Hparts. unfold env.setSlice.
  rewrite Hk, He. cbn [bool_decide negb rbind].
  rewrite bool_decide_eq_true_2 by reflexivity. cbn [negb].
  rewrite Hg. cbn [rbind negb].
  pose proof (setSliceLoop_success pf depth itemType
                (strings.Split value (env.separator f)) rs []
                (repeat (Zero itemType)
                   (List.length (strings.Split value (env.separator f))))
                ltac:(rewrite repeat_length; lia) Hparts) as Hloop.
  cbn [List.length app] in Hloop. rewrite Hloop.
  cbn [rbind]. rewrite drop_ge by (rewrite repeat_length; lia).
  rewrite app_nil_r. reflexivity.

Qed.

(** X8. A field of type [[]*...*T] with [n] pointers over a predeclared
    type [T] of a built-in kind: when the built-in parser accepts every
    part of the text, the field becomes the sequence of the parsed values
    in the order of the parts, each behind [n] fresh pointers, without
    error and without observer call. *)
Theorem setSlice_restores_pointers b g n field value f p rs :
  (forall k, (k <= n)%nat ->
             internal.registryLookup reg (PtrN k (TBasic b)) = None) ->
  Implements P (TBasic b) internal.unmarshalTyp = false ->
  Implements P (TPtr (TBasic b)) internal.unmarshalTyp = false ->
  internal.defaultBuiltInParsers P (basicKind b) = Some g ->
  Forall2 (fun part r => g part = Ok (r, None))
    (strings.Split value (env.separator f)) rs ->
  exists vals,
    rs = map Some vals /\
    Forall (fun val => typeOf val = TBasic b) vals /\
    env.setSlice P reg (TSlice (PtrN n (TBasic b))) field value f p
    = Ok {| env.dval := VSlice (TSlice (PtrN n (TBasic b)))
                          (Some (map (wrapPointers n) vals));
            env.derrs := []; env.dlog := [] |}.
Proof.
  intros Hreg Hi0 Hi1 Hg Hparts.
  assert (Hvals : exists vals, rs = map Some vals /\
            Forall (fun val => typeOf val = TBasic b) vals /\
            Forall2 (fun part r => g part = Ok (Some r, None))
              (strings.Split value (env.separator f)) vals).
  { revert Hparts. generalize (strings.Split value (env.separator f)).
    intros parts. revert rs. induction parts as [|part parts IH];
      intros rs H; inversion H as [|? r ? rs' Hrun Hrest]; subst.
    - exists []. repeat split; constructor.
    - destruct (IH _ Hrest) as (vals & -> & Hty & Hall).
      destruct (defaultBuiltInParsers_type P b g part Hg) as (val & err & Hv & Ht).
      rewrite Hrun in Hv. inversion Hv; subst.
      exists (val :: vals). repeat split; constructor; assumption. }
  destruct Hvals as (vals & -> & Hty & Hall).
  exists vals. split; [reflexivity|]. split; [exact Hty|].
  apply (setSlice_success _ (PtrN n (TBasic b)) _ _ _ _ (Some g) n);
    [reflexivity | reflexivity | | ].
  - apply GetParseFunc_pointer_depth; try done. apply Kind_basic_not_pointer.
  - clear -Hty Hall. revert Hty Hall.
    generalize (strings.Split value (env.separator f)). intros parts.
    revert parts. induction vals as [|val vals IH]; intros parts Hty Hall;
      inversion Hall; subst; constructor.
    + split; [assumption|]. rewrite typeOf_wrapPointers.
      apply Forall_cons in Hty as [Ht _]. rewrite Ht. unfold AssignableTo.
      rewrite rtype_eqb_refl. reflexivity.
    + apply IH; [apply Forall_cons in Hty as [_ Hty]; exact Hty | assumption].

Qed.

End DecoderPointers3.


Section DecoderInvariants.
Local Arguments Convert : simpl never.
Context (P : Program) (reg : internal.Registry).

(** What [setSlice] and [setMap] return: no observer call, and at most one
    error, under the key of the field. *)
Lemma setSlice_shape typ field value f p d :
  env.setSlice P reg typ field value f p = Ok d ->
  env.dlog d = [] /\
  (env.derrs d = [] \/
   exists e, env.derrs d = [env.errField (env.keyWithPrefix p (env.key f)) typ e]).
Proof.
  unfold env.setSlice. intros H.
  destruct (negb _); [discriminate|].
  destruct (Elem typ) as [itemType|]; cbn [rbind] in H; [|discriminate].
  destruct (internal.GetParseFunc P reg itemType) as [[[pf depth] ok]|];
    cbn [rbind] in H; [|discriminate].
  destruct (negb ok); [discriminate|].
  destruct (env.setSliceLoop _ _ _ _ _ _ _ _) as [[errs result]|];
    cbn [rbind] in H; [|discriminate].
  destruct errs as [|e1 [|e2 es]]; inversion H; subst; cbn; eauto.
Qed.

Lemma setMap_shape typ field value f p d :
  env.setMap P reg typ field value f p = Ok d ->
  env.dlog d = [] /\
  (env.derrs d = [] \/
   exists e, env.derrs d = [env.errField (env.keyWithPrefix p (env.key f)) typ e]).
Proof.
  unfold env.setMap. intros H.
  destruct (Key typ) as [keyType|]; cbn [rbind] in H; [|discriminate].
  destruct (Elem typ) as [elemType|]; cbn [rbind] in H; [|discriminate].
  destruct (internal.GetParseFunc P reg keyType) as [[[kpf kd] ok]|];
    cbn [rbind] in H; [|discriminate].
  destruct (negb ok); [discriminate|].
  destruct (internal.GetParseFunc P reg elemType) as [[[epf ed] ok']|];
    cbn [rbind] in H; [|discriminate].
  destruct (negb ok'); [discriminate|].
  destruct (env.setMapLoop _ _ _ _ _ _ _ _ _) as [[part|[errs result]]|];
    cbn [rbind] in H; [| |discriminate].
  - inversion H; subst; cbn; eauto.
  - destruct errs as [|e1 [|e2 es]]; inversion H; subst; cbn; eauto.
Qed.

(** X9. The observer is never called for a sequence or map field that is
    decoded element by element (no parser is found for the type of the
    field itself), not even when the field is decoded without error. *)
Theorem observer_not_called_for_sequences_and_maps fuel typ v p f prefix pf depth d :
  Kind_of typ = KSlice \/ Kind_of typ = KMap ->
  internal.GetParseFunc P reg typ = Ok (pf, depth, false) ->
  env.setValue P reg (S fuel) typ v p f prefix = Ok d ->
  env.dlog d = [].
Proof.
  intros Hk Hg H. cbn [env.setValue] in H.
  destruct (_ && negb (env.defaultSet f)); [inversion H; reflexivity|].
  rewrite bool_decide_eq_false_2 in H by (destruct Hk as [-> | ->]; discriminate).
  cbn [rbind] in H. rewrite Hg in H. cbn [rbind] in H.
  destruct Hk as [Hk | Hk]; rewrite Hk in H.
  - destruct (env.setSlice _ _ _ _ _ _ _) as [d'|] eqn:Hs; cbn [rbind] in H;
      [|discriminate].
    inversion H; subst. cbn. apply (setSlice_shape _ _ _ _ _ _ Hs).
  - destruct (env.setMap _ _ _ _ _ _ _) as [d'|] eqn:Hs; cbn [rbind] in H;
      [|discriminate].
    inversion H; subst. cbn. apply (setMap_shape _ _ _ _ _ _ Hs).
Qed.

End DecoderInvariants.


Lemma HasPrefix_append s t : strings.HasPrefix (String.append s t) s = true.
Proof.
  induction s as [|c s IH]; [destruct t; reflexivity|].
  change (String.append (String c s) t) with (String c (String.append s t)).
  cbn [strings.HasPrefix]. rewrite Ascii.eqb_refl. exact IH.
Qed.

Lemma HasPrefix_append_same a s t :
  strings.HasPrefix (String.append a s) (String.append a t)
  = strings.HasPrefix s t.
Proof.
  induction a as [|c a IH]; [reflexivity|].
  change (String.append (String c a) s) with (String c (String.append a s)).
  change (String.append (String c a) t) with (String c (String.append a t)).
  cbn [strings.HasPrefix]. rewrite Ascii.eqb_refl. exact IH.
Qed.

Lemma HasPrefix_weaken k : forall s t,
  strings.HasPrefix k (String.append s t) = true -> strings.HasPrefix k s = true.
Proof.
  induction k as [|c k IH]; intros [|a s] t H; try reflexivity.
  - change (String.append (String a s) t) with (String a (String.append s t)) in H.
    discriminate.
  - change (String.append (String a s) t) with (String a (String.append s t)) in H.
    cbn [strings.HasPrefix] in H |- *.
    destruct (Ascii.eqb a c); [|discriminate]. eapply IH. exact H.
Qed.

Lemma append_assoc_ (a b c : string) :
  String.append (String.append a b) c = String.append a (String.append b c).
Proof.
  induction a as [|x a IH]; [reflexivity|].
  change (String.append (String x a) b) with (String x (String.append a b)).
  change (String.append (String x (String.append a b)) c)
    with (String x (String.append (String.append a b) c)).
  rewrite IH. reflexivity.
Qed.

Lemma KeysUnder_weaken pre ext d :
  KeysUnder (String.append pre ext) d -> KeysUnder pre d.
Proof.
  intros [He Hl]. split.
  - eapply Forall_impl; [exact He|]. intros [] H; try discriminate.
    cbn in *. eapply HasPrefix_weaken. exact H.
  - eapply Forall_impl; [exact Hl|]. intros [[k v] b] H.
    unfold taggedUnder in *. cbn in *. eapply HasPrefix_weaken. exact H.
Qed.

Section DecoderKeys.
Local Arguments Convert : simpl never.
Context (P : Program) (reg : internal.Registry).

Lemma parseFieldParams_key tags prefix params :
  env.parseFieldParams P tags prefix = Ok params ->
  env.ignored params = false ->
  strings.HasPrefix (env.key params) prefix = true.
Proof.
  unfold env.parseFieldParams.
  destruct (env.tagOption _) as [key tags'].
  destruct (forallb _ tags'); [|discriminate].
  intros [= <-]. cbn [env.ignored env.key].
  destruct (negb (String.eqb _ "-")) eqn:Hd.
  - intros _. apply HasPrefix_append.
  - apply negb_false_iff in Hd. rewrite Hd. discriminate.
Qed.

Lemma setStructLoop_keys fieldFn p prefix pre fs : forall vs vs' errs log,
  (forall v f d, fieldFn v f p (env.structTagPrefix prefix f) = Ok d ->
                 KeysUnder pre d) ->
  env.setStructLoop fieldFn p prefix fs vs = Ok (vs', errs, log) ->
  Forall (fun e => keyedUnder pre e = true) errs /\
  Forall (fun ev => taggedUnder pre ev = true) log.
Proof.
  induction fs as [|g fs IH]; intros vs vs' errs log Hf H;
    cbn [env.setStructLoop] in H.
  - inversion H; subst. split; constructor.
  - destruct (fieldFn _ g p _) as [d|] eqn:Hd; cbn [rbind] in H; [|discriminate].
    destruct (env.setStructLoop fieldFn p prefix fs (tail vs))
      as [[[vs1 errs1] log1]|] eqn:Hrest; cbn [rbind] in H; [|discriminate].
    inversion H; subst; clear H.
    destruct (Hf _ _ _ Hd) as [He Hl].
    destruct (IH _ _ _ _ Hf Hrest) as [He' Hl'].
    split; apply Forall_app; split; assumption.
Qed.

Lemma setStructFieldWith_keys valueFn v tags p prefix pre d :
  (forall t w f d, strings.HasPrefix (env.key f) prefix = true ->
                   valueFn t w p f prefix = Ok d -> KeysUnder pre d) ->
  env.setStructFieldWith P valueFn v tags p prefix = Ok d ->
  KeysUnder pre d.
Proof.
  intros Hv. unfold env.setStructFieldWith.
  destruct (negb (fieldExported tags));
    [intros [= <-]; split; constructor|].
  destruct (env.parseFieldParams P tags prefix) as [params|] eqn:Hp;
    cbn [rbind]; [|discriminate].
  destruct (env.ignored params) eqn:Hign;
    [intros [= <-]; split; constructor|].
  pose proof (parseFieldParams_key _ _ _ Hp Hign) as Hkey.
  destruct (_ && _).
  - destruct (Elem (fieldType tags)) as [elemT|]; cbn [rbind]; [|discriminate].
    destruct (bool_decide (Kind_of elemT = KStruct)).
    + destruct (valueFn elemT _ p params prefix) as [d'|] eqn:Hd';
        cbn [rbind]; [|discriminate].
      intros [= <-]. apply (Hv _ _ _ _ Hkey) in Hd'. exact Hd'.
    + apply Hv. exact Hkey.
  - apply Hv. exact Hkey.
Qed.

Lemma keyedUnder_field p f prefix typ e :
  strings.HasPrefix (env.key f) prefix = true ->
  keyedUnder (String.append (env.prefix p) prefix)
    (env.errField (env.keyWithPrefix p (env.key f)) typ e) = true.
Proof.
  intros H. cbn. unfold env.keyWithPrefix. rewrite HasPrefix_append_same. exact H.
Qed.

(** Every error and every observer call of [setValue] for a field whose
    key begins with [prefix] carries a key that begins with the prefix of
    the options followed by [prefix]. *)
Lemma setValue_keys fuel : forall typ v p f prefix d,
  strings.HasPrefix (env.key f) prefix = true ->
  env.setValue P reg fuel typ v p f prefix = Ok d ->
  KeysUnder (String.append (env.prefix p) prefix) d.
Proof.
  induction fuel as [|fuel IH]; intros typ v p f prefix d Hkey H;
    [discriminate|].
  cbn [env.setValue] in H.
  destruct (_ && negb (env.defaultSet f)).
  { inversion H; subst. split; cbn; repeat constructor.
    apply keyedUnder_field. exact Hkey. }
  match type of H with
  | rbind ?m _ = _ => destruct m as [[[typ1 v1] store]|]; cbn [rbind] in H;
                      [|discriminate]
  end.
  destruct (internal.GetParseFunc P reg typ1) as [[[pf depth] ok]|];
    cbn [rbind] in H; [|discriminate].
  destruct ok.
  - destruct (callParser pf _) as [[val err]|]; cbn [rbind] in H; [|discriminate].
    destruct err as [err|].
    + inversion H; subst. split; cbn; repeat constructor.
      apply keyedUnder_field. exact Hkey.
    + destruct (Convert _ _ val typ1) as [value|]; cbn [rbind] in H;
        [|discriminate].
      inversion H; subst. split; cbn; [constructor|].
      destruct (env.onSet p); repeat constructor.
      unfold taggedUnder, env.keyWithPrefix. cbn.
      rewrite HasPrefix_append_same. exact Hkey.
  - match type of H with
    | rbind ?m _ = _ => destruct m as [d'|] eqn:Hd; cbn [rbind] in H;
                        [|discriminate]
    end.
    inversion H; subst; clear H. unfold KeysUnder. cbn [env.derrs env.dlog].
    destruct (Kind_of typ1); try discriminate.
    + (* map *)
      destruct (setMap_shape _ _ _ _ _ _ _ _ Hd) as [-> [-> | [e ->]]];
        split; repeat constructor; apply keyedUnder_field; exact Hkey.
    + (* slice *)
      destruct (setSlice_shape _ _ _ _ _ _ _ _ Hd) as [-> [-> | [e ->]]];
        split; repeat constructor; apply keyedUnder_field; exact Hkey.
    + (* struct *)
      unfold env.setStructWith in Hd.
      destruct (env.setStructLoop _ p prefix _ _) as [[[vs errs] log]|] eqn:Hloop;
        cbn [rbind] in Hd; [|discriminate].
      inversion Hd; subst; clear Hd. cbn [env.derrs env.dlog].
      eapply setStructLoop_keys; [|exact Hloop].
      intros w g d Hg.
      eapply setStructFieldWith_keys; [|exact Hg].
      intros t w' f' d' Hk' Hv.
      apply IH in Hv; [|exact Hk'].
      unfold env.structTagPrefix in Hv. rewrite <- append_assoc_ in Hv.
      eapply KeysUnder_weaken. exact Hv.
Qed.

Lemma setStruct_keys fuel typ v p prefix d :
  env.setStruct P reg fuel typ v p prefix = Ok d ->
  KeysUnder (String.append (env.prefix p) prefix) d.
Proof.
  unfold env.setStruct, env.setStructWith. intros Hd.
  destruct (env.setStructLoop _ p prefix _ _) as [[[vs errs] log]|] eqn:Hloop;
    cbn [rbind] in Hd; [|discriminate].
  inversion Hd; subst; clear Hd. unfold KeysUnder. cbn [env.derrs env.dlog].
  eapply setStructLoop_keys; [|exact Hloop].
  intros w g d Hg.
  eapply setStructFieldWith_keys; [|exact Hg].
  intros t w' f' d' Hk' Hv.
  apply setValue_keys in Hv; [|exact Hk'].
  unfold env.structTagPrefix in Hv. rewrite <- append_assoc_ in Hv.
  eapply KeysUnder_weaken. exact Hv.
Qed.

(** X10. When [parseInternal] returns, either the argument was no pointer
    to a struct, or every field error (the error itself or the joined
    errors) is a [FieldError] whose key begins with the prefix of the
    options followed by the prefix argument, and so does the tag of every
    observer call, at every depth of nesting. *)
Theorem parseInternal_keys_carry_the_prefixes v opts prefix v' err log :
  env.parseInternal P reg v opts prefix = Ok (v', err, log) ->
  (err = Some (sentinelError ErrNotStructPtr) /\ log = []) \/
  (Forall (fun e => keyedUnder (String.append (env.prefix opts) prefix) e = true)
     (fieldErrors err) /\
   Forall (fun ev => taggedUnder (String.append (env.prefix opts) prefix) ev = true)
     log).
Proof.
  unfold env.parseInternal. intros H.
  destruct v as [[| | | |t [ref|]| | | | | |]|]; try (inversion H; subst; left; done).
  destruct (negb _); [inversion H; subst; left; done|].
  destruct (env.setStruct _ _ _ _ _ _ _) as [d|] eqn:Hd; cbn [rbind] in H;
    [|discriminate].
  inversion H; subst; clear H. right.
  destruct (setStruct_keys _ _ _ _ _ _ Hd) as [He Hl]. split; [|exact Hl].
  rewrite aggregate_Join.
  destruct (env.derrs d) as [|e1 [|e2 es]]; cbn; [constructor | | exact He].
  apply Forall_cons in He as [He _].
  destruct e1; try discriminate. cbn. repeat constructor. exact He.
Qed.

End DecoderKeys.


Section EmptyVariables.
Local Arguments Convert : simpl never.
Context (P : Program) (reg : internal.Registry).

Lemma getEnv_withoutEmpty p k :
  env.getEnv (withoutEmpty p) k =
  match env.getEnv p k with
  | Some EmptyString => None
  | found => found
  end.
Proof.
  unfold env.getEnv, withoutEmpty. cbn [env.environment env.prefix].
  destruct (env.environment p !! String.append (env.prefix p) k) as [s|] eqn:H.
  - destruct s as [|c s].
    + apply map_lookup_filter_None. right. intros v Hv. rewrite H in Hv.
      inversion Hv; subst. cbn. intros Hne. apply Hne. reflexivity.
    + apply map_lookup_filter_Some. split; [exact H | discriminate].
  - apply map_lookup_filter_None. left. exact H.
Qed.

Lemma setStructLoop_ext2 fieldFn1 fieldFn2 p1 p2 prefix fs : forall vs,
  (forall v f pre, In f fs -> fieldFn1 v f p1 pre = fieldFn2 v f p2 pre) ->
  env.setStructLoop fieldFn1 p1 prefix fs vs
  = env.setStructLoop fieldFn2 p2 prefix fs vs.
Proof.
  induction fs as [|f fs IH]; intros vs H; simpl; [done|].
  rewrite (H _ f _ (or_introl eq_refl)).
  destruct (fieldFn2 _ f p2 _); simpl; [|done].
  rewrite IH; [done|]. intros v g pre Hg. apply H. right. exact Hg.
Qed.

Lemma setStructFieldWith_ext2 valueFn1 valueFn2 v tags p1 p2 prefix :
  (forall t w f pre, valueFn1 t w p1 f pre = valueFn2 t w p2 f pre) ->
  env.setStructFieldWith P valueFn1 v tags p1 prefix
  = env.setStructFieldWith P valueFn2 v tags p2 prefix.
Proof.
  intros H. unfold env.setStructFieldWith.
  destruct (negb (fieldExported tags)); [done|].
  destruct (env.parseFieldParams P tags prefix) as [params|]; simpl; [|done].
  destruct (env.ignored params); [done|].
  destruct (_ && _).
  - destruct (Elem (fieldType tags)) as [elemT|] eqn:He; simpl; [|done].
    destruct (bool_decide (Kind_of elemT = KStruct)).
    + rewrite (H elemT). done.
    + apply H.
  - apply H.
Qed.

(** A variable that is set to the empty text is to [setValue] what an
    absent variable is. *)
Lemma setValue_withoutEmpty fuel : forall typ v p f prefix,
  env.setValue P reg fuel typ v (withoutEmpty p) f prefix
  = env.setValue P reg fuel typ v p f prefix.
Proof.
  induction fuel as [|fuel IH]; intros typ v p f prefix; [reflexivity|].
  cbn [env.setValue]. rewrite getEnv_withoutEmpty.
  assert (Hstruct : forall typ1 v1,
    env.setStructWith (env.setStructFieldWith P (env.setValue P reg fuel))
      typ1 v1 (withoutEmpty p) prefix
    = env.setStructWith (env.setStructFieldWith P (env.setValue P reg fuel))
        typ1 v1 p prefix).
  { intros typ1 v1. unfold env.setStructWith.
    rewrite (setStructLoop_ext2 _
               (env.setStructFieldWith P (env.setValue P reg fuel))
               (withoutEmpty p) p); [done|].
    intros w g pre _. apply setStructFieldWith_ext2.
    intros t w' f' pre'. apply IH. }
  destruct (env.getEnv p (env.key f)) as [[|c s]|]; cbn [String.eqb];
    (destruct (_ && negb (env.defaultSet f)); [reflexivity|]);
    (match goal with
     | |- rbind ?m _ = _ =>
       destruct m as [[[typ1 v1] store]|]; cbn [rbind]; [|reflexivity]
     end);
    (destruct (internal.GetParseFunc P reg typ1) as [[[pf depth] ok]|];
       cbn [rbind]; [|reflexivity]);
    (destruct ok; [reflexivity|]);
    rewrite Hstruct; reflexivity.

Qed.

(** X4. [Parse] does not tell a variable that is set to the empty text
    from an absent one: removing the empty variables from the environment
    changes neither the decoded record, nor the error, nor the observer
    calls. *)
Theorem Parse_treats_empty_as_absent v p :
  env.Parse P reg v (withoutEmpty p) = env.Parse P reg v p.
Proof.
  unfold env.Parse, env.parseInternal.
  destruct v as [[| | | |t [ref|]| | | | | |]|]; try reflexivity.
  destruct (negb _); [reflexivity|].
  unfold env.setStruct, env.setStructWith, env.setStructField.
  rewrite (setStructLoop_ext2 _
             (env.setStructFieldWith P
                (env.setValue P reg (S (env.structDepth (typeOf ref)))))
             (withoutEmpty p) p); [done|].
  intros w g pre _. apply setStructFieldWith_ext2.
  intros t0 w' f' pre'. apply setValue_withoutEmpty.
Qed.

End EmptyVariables.


Section RegistryExtras.
Local Arguments Convert : simpl never.
Context (P : Program) (reg : internal.Registry).

Lemma registryLookup_app typ f t :
  internal.registryLookup (reg ++ [(typ, f)])%list t =
  match internal.registryLookup reg t with
  | Some r => Some r
  | None => if rtype_eqb typ t then Some f else None
  end.
Proof.
  induction reg as [|[t0 f0] reg' IH]; cbn [app internal.registryLookup].
  - reflexivity.
  - destruct (rtype_eqb t0 t); [reflexivity | exact IH].
Qed.

(** X12. Registering a parser for a type that has none yet succeeds;
    afterwards [GetParseFunc] returns that parser for the type at depth 0,
    a second registration for the type panics, and the entries of all
    other types are as before. *)
Theorem RegisterEnvParser_then_GetParseFunc typ f :
  internal.registryLookup reg typ = None ->
  exists reg',
    internal.RegisterEnvParser reg typ f = Ok reg' /\
    internal.GetParseFunc P reg' typ = Ok (Some f, O, true) /\
    (forall g, internal.RegisterEnvParser reg' typ g
               = Panic "parser already registered") /\
    (forall t, rtype_eqb typ t = false ->
               internal.registryLookup reg' t = internal.registryLookup reg t).
Proof.
  intros Hnone. exists (reg ++ [(typ, Some f)])%list.
  assert (Hl : internal.registryLookup (reg ++ [(typ, Some f)])%list typ
               = Some (Some f)).
  { rewrite registryLookup_app, Hnone, rtype_eqb_refl. reflexivity. }
  split; [unfold internal.RegisterEnvParser; rewrite Hnone; reflexivity|].
  split; [apply GetParseFunc_registry; exact Hl|].
  split.
  - intros g. unfold internal.RegisterEnvParser. rewrite Hl. reflexivity.
  - intros t Ht. rewrite registryLookup_app, Ht.
    destruct (internal.registryLookup reg t); reflexivity.
Qed.

Lemma valueTextUnmarshaler_error base n raw cause :
  Implements P base internal.unmarshalTyp = true ->
  Kind_of base <> KInterface ->
  UnmarshalTextValue P base raw = Some cause ->
  internal.valueTextUnmarshaler P base n raw
  = Ok (None, Some (UnmarshalFuncError base cause)).
Proof.
  intros Himpl Hk Hun. unfold internal.valueTextUnmarshaler.
  rewrite Himpl, bool_decide_eq_false_2 by done. cbn [andb negb].
  rewrite Hun. unfold internal.ErrUnmarshalFunc. rewrite typeOf_Zero. reflexivity.
Qed.

Lemma ptrTextUnmarshaler_error base n raw target cause :
  Implements P (TPtr base) internal.unmarshalTyp = true ->
  UnmarshalTextPtr P base raw (Zero base) = (target, Some cause) ->
  internal.ptrTextUnmarshaler P base n raw
  = Ok (None, Some (UnmarshalFuncError (TPtr base) cause)).
Proof.
  intros Himpl Hun. unfold internal.ptrTextUnmarshaler.
  rewrite Himpl. cbn [negb]. rewrite Hun. reflexivity.
Qed.

(** X14. A field of a text-decodable type whose [UnmarshalText] rejects
    the text: the field is left as it was, the observer is not called, and
    the field error holds the cause inside an [UnmarshalFuncError] that
    names the receiver type; as that error type has no [Unwrap] method,
    [errors.Is] finds no sentinel behind the field error, not even the
    cause. *)
Theorem rejected_text_is_reported_without_unwrap fuel base v p f prefix raw isDefault cause :
  Kind_of base <> KPointer -> Kind_of base <> KInterface ->
  internal.registryLookup reg base = None ->
  resolveText p f = Some (raw, isDefault) ->
  (Implements P base internal.unmarshalTyp = true /\
   UnmarshalTextValue P base raw = Some cause)
  \/ (Implements P base internal.unmarshalTyp = false /\
      Implements P (TPtr base) internal.unmarshalTyp = true /\
      exists target,
        UnmarshalTextPtr P base raw (Zero base) = (target, Some cause)) ->
  exists T,
    (T = base \/ T = TPtr base) /\
    env.setValue P reg (S fuel) base v p f prefix
    = Ok {| env.dval := v;
            env.derrs := [FieldError (env.keyWithPrefix p (env.key f)) base
                            (Some (UnmarshalFuncError T cause))];
            env.dlog := [] |} /\
    forall target,
      errors.Is (FieldError (env.keyWithPrefix p (env.key f)) base
                   (Some (UnmarshalFuncError T cause))) target = false.
Proof.
  intros Hkp Hki Hreg Hres [[Himpl Hun] | (Hno & Himpl & target & Hun)].
  - exists base. split; [left; reflexivity|]. split; [|reflexivity].
    rewrite (setValue_parsed P reg fuel base v p f prefix raw isDefault
               (internal.valueTextUnmarshaler P base O) O None
               (Some (UnmarshalFuncError base cause))); try done.
    + apply GetParseFunc_text; [exact Hreg|].
      unfold internal.handleTextUnmarshaler.
      rewrite unpackPointers_base, Himpl by exact Hkp. reflexivity.
    + apply valueTextUnmarshaler_error; done.
  - exists (TPtr base). split; [right; reflexivity|]. split; [|reflexivity].
    rewrite (setValue_parsed P reg fuel base v p f prefix raw isDefault
               (internal.ptrTextUnmarshaler P base O) O None
               (Some (UnmarshalFuncError (TPtr base) cause))); try done.
    + apply GetParseFunc_text; [exact Hreg|].
      unfold internal.handleTextUnmarshaler.
      rewrite unpackPointers_base, Hno, Himpl by exact Hkp. reflexivity.
    + eapply ptrTextUnmarshaler_error; eauto.
Qed.

End RegistryExtras.


Section NilParsers.
Local Arguments Convert : simpl never.
Context (P : Program) (reg : internal.Registry).

(** X15. A type that is registered with a nil parser (as [fs.File] is) is
    reported as found by [GetParseFunc], and [setValue] panics on the call
    of the nil function when the field has a text to decode. *)
Theorem nil_parser_panics fuel typ v p f prefix raw isDefault :
  Kind_of typ <> KPointer ->
  internal.registryLookup reg typ = Some None ->
  resolveText p f = Some (raw, isDefault) ->
  internal.GetParseFunc P reg typ = Ok (None, O, true) /\
  env.setValue P reg (S fuel) typ v p f prefix
  = Panic "invalid memory address or nil pointer dereference".
Proof.
  intros Hk Hreg Hres.
  pose proof (GetParseFunc_registry P reg typ None Hreg) as Hg.
  split; [exact Hg|].
  rewrite (setValue_text P reg fuel _ _ _ _ _ raw isDefault Hres).
  rewrite bool_decide_eq_false_2 by exact Hk. cbn [rbind].
  rewrite Hg. reflexivity.
Qed.

End NilParsers.

Lemma envRegistry_nil_parsers P :
  internal.registryLookup (internal.envRegistry P) std_parsers.fs_File = Some None /\
  internal.registryLookup (internal.envRegistry P) (TPtr std_parsers.os_File)
  = Some None.
Proof. split; reflexivity. Qed.

(** X11. [Parse] returns [ErrNotStructPtr] for everything that is no
    non-nil pointer to a struct (nil, a value that is no pointer, a nil
    pointer, a pointer to something else), leaves the argument as it is
    and calls no observer; [ParseAs] for a type that is no struct returns
    the zero value with the same error. *)
Theorem Parse_rejects_what_is_no_struct_pointer
    (P : Program) (reg : internal.Registry) (p : env.parseParams) :
  (forall v,
     (forall t ref, v = Some (VPtr t (Some ref)) ->
                    Kind_of (typeOf ref) <> KStruct) ->
     env.Parse P reg v p = Ok (v, Some (sentinelError ErrNotStructPtr), []))
  /\
  (forall T,
     Kind_of T <> KStruct ->
     env.ParseAs P reg T p
     = Ok (Zero T, Some (sentinelError ErrNotStructPtr), [])).
Proof.
  split.
  - intros v H. apply Parse_not_struct_pointer. exact H.
  - intros T H. apply ParseAs_not_struct. exact H.
Qed.

(** X13. For [n] pointers over a type of a built-in kind that no step
    matches before the built-in table, [GetParseFunc] returns the parser of
    the kind and the depth [n]. *)
Theorem GetParseFunc_counts_pointer_depth
    (P : Program) (reg : internal.Registry) (base : rtype) (g : parserFunc)
    (n : nat) :
  Kind_of base <> KPointer ->
  (forall k, (k <= n)%nat -> internal.registryLookup reg (PtrN k base) = None) ->
  Implements P base internal.unmarshalTyp = false ->
  Implements P (TPtr base) internal.unmarshalTyp = false ->
  internal.defaultBuiltInParsers P (Kind_of base) = Some g ->
  internal.GetParseFunc P reg (PtrN n base) = Ok (Some g, n, true).
Proof. apply GetParseFunc_pointer_depth. Qed.

(* ===================================================================== *)
(** * The names of variables *)
(* ===================================================================== *)

Section NameShape.
Local Arguments String.append : simpl nomatch.


Lemma app_nil_r_ s : String.append s EmptyString = s.
Proof.
  induction s as [|a s IH]; [reflexivity|].
  change (String.append (String a s) EmptyString)
    with (String a (String.append s EmptyString)).
  rewrite IH. reflexivity.
Qed.

Lemma starts_append b x :
  startsWithUnderscore (String.append b x) =
  match b with
  | EmptyString => startsWithUnderscore x
  | _ => startsWithUnderscore b
  end.
Proof. destruct b; reflexivity. Qed.

Lemma ends_append b x :
  x <> EmptyString ->
  endsWithUnderscore (String.append b x) = endsWithUnderscore x.
Proof.
  intros Hx. induction b as [|a b IH]; [reflexivity|].
  change (String.append (String a b) x) with (String a (String.append b x)).
  cbn [endsWithUnderscore]. rewrite IH.
  destruct (String.append b x) eqn:Hbx; [|reflexivity].
  destruct b; [|discriminate]. cbn in Hbx. contradiction.
Qed.

Lemma double_append b x :
  hasDoubleUnderscore (String.append b x) =
  hasDoubleUnderscore b || hasDoubleUnderscore x
  || (endsWithUnderscore b && startsWithUnderscore x).
Proof.
  induction b as [|a b IH].
  - cbn. destruct (hasDoubleUnderscore x); reflexivity.
  - change (String.append (String a b) x) with (String a (String.append b x)).
    cbn [hasDoubleUnderscore endsWithUnderscore]. rewrite IH, starts_append.
    destruct b as [|a' b].
    + cbn. destruct (isUnderscore a), (startsWithUnderscore x),
        (hasDoubleUnderscore x); reflexivity.
    + cbn [startsWithUnderscore].
      destruct (isUnderscore a), (isUnderscore a'),
        (hasDoubleUnderscore (String a' b)), (hasDoubleUnderscore x),
        (endsWithUnderscore (String a' b)), (startsWithUnderscore x);
        reflexivity.
Qed.

Lemma hasUnderscore_shape x :
  hasUnderscore x = false ->
  startsWithUnderscore x = false /\ endsWithUnderscore x = false /\
  hasDoubleUnderscore x = false.
Proof.
  induction x as [|a x IH]; [done|]. cbn [hasUnderscore].
  intros H. apply orb_false_iff in H as [Ha Hx].
  destruct (IH Hx) as (Hs & He & Hd).
  cbn [startsWithUnderscore endsWithUnderscore hasDoubleUnderscore].
  rewrite Hd. cbn. repeat split; try done.
  - destruct x; [exact Ha | exact He].
  - rewrite Ha. reflexivity.

Qed.

Lemma byteZ_Zbyte z : utf8.byteZ (utf8.Zbyte z) = z mod 256.
Proof.
  unfold utf8.byteZ, utf8.Zbyte.
  assert (H : 0 <= z mod 256 < 256) by (apply Z.mod_pos_bound; lia).
  rewrite N_ascii_embedding.
  - apply Z2N.id. lia.
  - change 256%N with (Z.to_N 256). apply Z2N.inj_lt; lia.
Qed.

Lemma Zbyte_underscore z : isUnderscore (utf8.Zbyte z) = true -> z mod 256 = 95.
Proof.
  unfold isUnderscore. intros H. apply Ascii.eqb_eq in H.
  rewrite <- byteZ_Zbyte, H. reflexivity.
Qed.

Lemma Zbyte_high a x :
  Z.testbit a 7 = true -> isUnderscore (utf8.Zbyte (Z.lor a x)) = false.
Proof.
  intros Ha. destruct (isUnderscore _) eqn:H; [|reflexivity].
  apply Zbyte_underscore in H.
  assert (Hb : Z.testbit (Z.lor a x mod 2 ^ 8) 7 = true).
  { rewrite Z.mod_pow2_bits_low by lia. rewrite Z.lor_spec, Ha. reflexivity. }
  change (2 ^ 8) with 256 in Hb. rewrite H in Hb. discriminate.
Qed.

Lemma EncodeRune_no_underscore r :
  r <> 95 ->
  hasUnderscore (utf8.EncodeRune r) = false /\ utf8.EncodeRune r <> EmptyString.
Proof.
  intros Hr. unfold utf8.EncodeRune, utf8.encode3.
  repeat match goal with
  | |- context [if ?b then _ else _] => destruct b eqn:?
  end; (split; [|discriminate]); cbn [hasUnderscore];
    rewrite ?Zbyte_high by reflexivity; try reflexivity.
  rewrite orb_false_r.
  destruct (isUnderscore (utf8.Zbyte r)) eqn:H; [|reflexivity].
  apply Zbyte_underscore in H.
  apply andb_true_iff in Heqb as [H0 H1].
  apply Z.leb_le in H0, H1. rewrite Z.mod_small in H by lia. contradiction.
Qed.

Context (P : Program).

Lemma wellFormed_sep b prevClass :
  wellFormed b prevClass ->
  (0 <? String.length b)%nat && negb (prevClass =? env.clUnderscore) = true ->
  wellFormed (String.append b "_") env.clUnderscore.
Proof.
  intros (Hs & Hd & He) H. apply andb_true_iff in H as [Hlen Hp].
  apply negb_true_iff, Z.eqb_neq in Hp.
  repeat split.
  - rewrite starts_append. destruct b; [discriminate | exact Hs].
  - rewrite double_append, Hd. cbn.
    destruct (endsWithUnderscore b); [|reflexivity]. exfalso. auto.
Qed.

Lemma wellFormed_rune b prevClass r c :
  r <> 95 -> c <> env.clUnderscore ->
  wellFormed b prevClass ->
  wellFormed (String.append b (utf8.EncodeRune r)) c.
Proof.
  intros Hr Hc (Hs & Hd & He).
  destruct (EncodeRune_no_underscore r Hr) as [Hu Hne].
  destruct (hasUnderscore_shape _ Hu) as (Hs' & He' & Hd').
  repeat split.
  - rewrite starts_append. destruct b; [exact Hs' | exact Hs].
  - rewrite double_append, Hd, Hd', Hs'. cbn. apply andb_false_r.
  - rewrite ends_append by exact Hne. rewrite He'. discriminate.
Qed.


Lemma toEnvNameLoop_wellFormed fuel :
  (forall r, r <> 95 -> unicode_ToUpper P r <> 95) ->
  forall rest b prevClass,
  wellFormed b prevClass ->
  exists c, wellFormed (env.toEnvNameLoop P fuel rest b prevClass) c.
Proof.
  intros ToUpper_not_underscore.
  induction fuel as [|fuel IH]; intros rest b prevClass Hwf.
  - exists prevClass. destruct rest; exact Hwf.
  - destruct rest as [|a tail]; [exists prevClass; exact Hwf|].
    cbn [env.toEnvNameLoop].
    destruct (utf8.DecodeRuneInString (String a tail)) as [r w].
    destruct ((env.classOf P r =? env.clUnderscore)
              || (env.classOf P r =? env.clNone)) eqn:Hsep.
    + destruct ((0 <? String.length b)%nat && negb (prevClass =? env.clUnderscore))
        eqn:Hb.
      * apply IH. apply (wellFormed_sep b prevClass Hwf Hb).
      * apply IH. exact Hwf.
    + apply orb_false_iff in Hsep as [Hnu Hnn].
      apply Z.eqb_neq in Hnu.
      assert (Hr : r <> 95).
      { intros ->. apply Hnu. unfold env.classOf. reflexivity. }
      match goal with
      | |- context [if ?needSep then String.append b "_" else b] =>
        set (sep := needSep)
      end.
      assert (Hb1 : exists p1, wellFormed (if sep then String.append b "_" else b) p1).
      { destruct sep eqn:Hsp; [|eauto].
        exists env.clUnderscore. apply (wellFormed_sep b prevClass Hwf).
        subst sep. apply andb_true_iff in Hsp as [Hsp _]. exact Hsp. }
      destruct Hb1 as [p1 Hb1].
      apply IH.
      destruct (env.is_ (env.classOf P r) env.clDigit).
      * eapply wellFormed_rune; eauto.
      * eapply wellFormed_rune; eauto.
Qed.

(** X1. With a [unicode.ToUpper] that maps no other rune to the
    underscore, the name [toEnvName] builds from any text never begins with
    an underscore and never holds two underscores in a row. *)
Theorem toEnvName_shape s :
  (forall r, r <> 95 -> unicode_ToUpper P r <> 95) ->
  startsWithUnderscore (env.toEnvName P s) = false /\
  hasDoubleUnderscore (env.toEnvName P s) = false.
Proof.
  intros ToUpper_not_underscore. unfold env.toEnvName.
  destruct (toEnvNameLoop_wellFormed (String.length s) ToUpper_not_underscore
              s EmptyString env.clNone)
    as (c & Hs & Hd & _).

  - repeat split. discriminate.
  - split; assumption.
Qed.

End NameShape.

(* ===================================================================== *)
(** * The environment map of [Run] *)
(* ===================================================================== *)

Section Environ.
Import runtime.

Lemma splitLoop_no_limit_left sep s :
  strings.splitLoop sep (Some O) O s = (s, []).
Proof.
  induction s as [|c s IH]; [done|].
  cbn [strings.splitLoop]. rewrite IH. done.
Qed.

(** A text whose first part holds no separator byte is cut behind it. *)
Lemma SplitN_first_byte (a : ascii) k rest :
  strings.Contains k (String a EmptyString) = false ->
  strings.SplitN (String.append k (String a rest)) (String a EmptyString) 2
  = [k; rest].
Proof.
  intros H. unfold strings.SplitN.
  enough (Hloop : strings.splitLoop (String a EmptyString) (Some 1%nat) O
                    (String.append k (String a rest)) = (k, [rest]))
    by (rewrite Hloop; done).
  induction k as [|c k IH].
  - change (String.append EmptyString (String a rest)) with (String a rest).
    cbn [strings.splitLoop strings.HasPrefix].
    rewrite Ascii.eqb_refl. destruct rest; cbn [strings.HasPrefix];
      cbn [String.length Nat.sub]; rewrite splitLoop_no_limit_left; done.
  - change (strings.Contains (String c k) (String a EmptyString))
      with (strings.HasPrefix (String c k) (String a EmptyString)
            || strings.Contains k (String a EmptyString)) in H.
    apply orb_false_iff in H as [Hp Hc].
    cbn [strings.HasPrefix] in Hp.
    assert (Hne : Ascii.eqb a c = false).
    { destruct (Ascii.eqb a c); [|done]. destruct k; discriminate. }
    change (String.append (String c k) (String a rest))
      with (String c (String.append k (String a rest))).
    cbn [strings.splitLoop strings.HasPrefix]. rewrite Hne.
    rewrite (IH Hc). done.
Qed.

Lemma environ_app l1 l2 :
  environ (l1 ++ l2)
  = fold_left
      (fun environ e =>
         match strings.SplitN e "=" 2 with
         | [k; v] => <[k := v]> environ
         | _ => environ
         end) l2 (environ l1).
Proof. unfold environ. apply fold_left_app. Qed.

(** X16. The map [Run] builds from [os.Environ()]: an entry [k=v] whose
    key holds no [=] binds [k] to [v], whatever [v] holds and whatever the
    earlier entries bound [k] to. *)
Theorem environ_last_entry_wins envRaw k v :
  strings.Contains k "=" = false ->
  environ (envRaw ++ [String.append k (String "=" v)])
  = <[k := v]> (environ envRaw).
Proof.
  intros H. rewrite environ_app. cbn [fold_left].
  rewrite (SplitN_first_byte "=" k v H). done.
Qed.

(** X17. The map [Run] builds from [os.Environ()] is the same with and
    without an entry that holds no [=]. *)
Theorem environ_drops_entries_without_separator l1 e l2 :
  strings.Contains e "=" = false ->
  environ (l1 ++ e :: l2) = environ (l1 ++ l2).
Proof.
  intros H. rewrite !environ_app. cbn [fold_left].
  pose proof (SplitN_without_separator e "=" H) as Hl.
  destruct (strings.SplitN e "=" 2) as [|a [|b [|c l]]]; done.
Qed.

End Environ.

(* ===================================================================== *)
(** * The orchestrator: the other ways [Run] ends *)
(* ===================================================================== *)


Section Orchestrator2.
Import runtime.
Context {World : Type}.
Implicit Types (cfgs : list (EnvParam World)) (tr : list Event).

Lemma omap_fmap_id (rs : list (option error)) :
  omap (fmap (fun e : error => e)) rs = omap id rs.
Proof.
  induction rs as [|[e|] rs IH]; cbn; [done | f_equal; exact IH | exact IH].
Qed.

Lemma omap_id_nil (rs : list (option error)) :
  omap id rs = [] -> rs = repeat None (List.length rs).
Proof.
  induction rs as [|[e|] rs IH]; cbn; [done | discriminate |].
  intros H. f_equal. apply IH. exact H.
Qed.

Lemma omap_wrap_nil_repeat (wrap : error -> error) (rs : list (option error)) :
  omap (fmap wrap) rs = [] -> rs = repeat None (List.length rs).
Proof.
  induction rs as [|[e|] rs IH]; cbn; [done | discriminate |].
  intros H. f_equal. apply IH. exact H.
Qed.

Ltac next_phase H :=
  match type of H with
  | context [forEachParam ?c ?m ?wr ?i ?cf (?w, ?tr) ?er] =>
    let w' := fresh "w" in
    let rs := fresh "rs" in
    let Hl := fresh "Hlen" in
    let Heq := fresh "Heq" in
    destruct (forEachParam_spec c m wr cf i w tr er) as (w' & rs & Hl & Heq);
    rewrite Heq in H; clear Heq
  end.

(** The three ways [Run] ends, with the whole trace and the exit code. *)

Lemma Run_outcomes (m : promhttpWrapper World) cfgs
    (action : World -> ExitCode * World) (w : World) code
    (st : St (World := World)) :
  Run (Some m) cfgs action w = Ok (code, st) ->
  let n := List.length cfgs in
  (exists rs1, List.length rs1 = n /\ omap id rs1 <> [] /\ code = 1 /\
     snd st = ([MetricConfigure] ++ phaseEvents CallConfigure O rs1 ++
               map (Stderr "configuration error: %v") (omap id rs1))%list)
  \/ (exists r2 rs2 errs, List.length rs2 = n /\ errs <> [] /\ code = 1 /\
      (r2 <> None \/ omap id rs2 <> []) /\
      snd st = ([MetricConfigure] ++ phaseEvents CallConfigure O (repeat None n) ++
                [MetricAcquire r2] ++ phaseEvents CallAcquire O rs2 ++
                map (Stderr "acquiring resources: %v") errs)%list)
  \/ (exists r3 rs3 w1, List.length rs3 = n /\
      code = (match shutdownErrors r3 rs3 with
              | [] => fst (action w1)
              | _ => 1
              end) /\
      snd st = ([MetricConfigure] ++ phaseEvents CallConfigure O (repeat None n) ++
                [MetricAcquire None] ++ phaseEvents CallAcquire O (repeat None n) ++
                [CallAction; MetricShutdown r3] ++
                phaseEvents CallShutdown O rs3 ++
                map (Stderr "shutdown error: %v") (shutdownErrors r3 rs3))%list).
Proof.
  intros Hrun n. subst n. unfold Run in Hrun.

  next_phase Hrun. rewrite omap_fmap_id in Hrun. cbn [app] in Hrun.
  destruct (omap id rs) as [|c1 cs1] eqn:Hc1.
  - pose proof (omap_id_nil _ Hc1) as Hrs. rewrite Hlen in Hrs.
    destruct (acquire m w0) as [w2 err2] eqn:Hacq.
    next_phase Hrun.
    destruct (_ ++ omap _ rs0)%list as [|a1 as1] eqn:Ha in Hrun.
    + right. right.
      apply app_eq_nil in Ha as [Ha1 Ha2].
      pose proof (omap_wrap_nil_repeat _ _ Ha2) as Hrs0. rewrite Hlen0 in Hrs0.
      assert (err2 = None) as -> by (destruct err2; [discriminate | done]).
      destruct (action w1) as [code' w4] eqn:Hact.
      destruct (shutdown m w4) as [w5 err5].
      next_phase Hrun. rewrite omap_fmap_id in Hrun.
      exists err5, rs1, w1. split; [exact Hlen1|].
      unfold shutdownErrors. rewrite Hact. cbn [fst].
      destruct (_ ++ omap id rs1)%list as [|s1 ss1] eqn:Hs in Hrun |- *;
        inversion Hrun; subst; cbn [snd].
      * split; [reflexivity|]. cbn [map]. rewrite ?app_nil_r, <- ?app_assoc.
        reflexivity.
      * split; [reflexivity|]. unfold printAll. cbn [snd].
        rewrite <- ?app_assoc. reflexivity.
    + right. left. inversion Hrun; subst. cbn [snd].
      exists err2, rs0, (a1 :: as1). split; [exact Hlen0|].
      split; [discriminate|]. split; [reflexivity|]. split.
      * destruct err2; [left; discriminate|]. right.
        cbn [app] in Ha. intros Hnil.
        assert (Hall : forall r, In r rs0 -> r = None).
        { intros r Hr. rewrite (omap_id_nil _ Hnil) in Hr.
          apply repeat_spec in Hr. exact Hr. }
        clear -Ha Hall. induction rs0 as [|[e|] rs0 IH]; cbn in Ha.
        -- discriminate.
        -- specialize (Hall (Some e) (or_introl eq_refl)). discriminate.
        -- apply IH; [exact Ha|]. intros r Hr. apply Hall. right. exact Hr.
      * rewrite <- ?app_assoc. reflexivity.
  - left. inversion Hrun; subst. cbn [snd].
    exists rs. split; [exact Hlen|]. rewrite Hc1. split; [discriminate|].
    split; [reflexivity|]. unfold printAll. cbn [snd].
    rewrite <- ?app_assoc. reflexivity.
Qed.

End Orchestrator2.


Section Orchestrator3.
Import runtime.
Context {World : Type}.
Implicit Types (cfgs : list (EnvParam World)) (tr : list Event).

Lemma count_configure_phase i0 rs i :
  count (isConfigureOf i) (phaseEvents CallConfigure i0 rs) =
  if bool_decide (i0 <= i < i0 + List.length rs)%nat then 1%nat else O.
Proof.
  revert i0. induction rs as [|r rs IH]; intros i0; simpl.
  - rewrite bool_decide_eq_false_2 by lia. reflexivity.
  - unfold count in *. simpl. destruct (Nat.eqb_spec i i0) as [->|Hne]; simpl.
    + rewrite IH. rewrite bool_decide_eq_false_2 by lia.
      rewrite bool_decide_eq_true_2 by lia. reflexivity.
    + rewrite IH. destruct (bool_decide (S i0 <= i < S i0 + List.length rs)%nat) eqn:Hb.
      * apply bool_decide_eq_true in Hb. rewrite bool_decide_eq_true_2 by lia. done.
      * apply bool_decide_eq_false in Hb. rewrite bool_decide_eq_false_2 by lia. done.
Qed.

Lemma phaseEvents_all_nil call i n k e :
  (forall a b x y, call a x = call b y -> a = b /\ x = y) ->
  ~ In (call k (Some e)) (phaseEvents call i (repeat None n)).
Proof.
  intros Hinj H. apply (phaseEvents_In_inv call) in H; [|exact Hinj].
  apply repeat_spec in H. discriminate.
Qed.

Lemma In_omap_id (rs : list (option error)) e :
  In (Some e) rs -> In e (omap id rs).
Proof.
  induction rs as [|[e0|] rs IH]; cbn; [done | |].
  - intros [[= ->] | H]; [left; done | right; auto].
  - intros [H | H]; [discriminate | auto].
Qed.

(** X18. When the Configure of some parameter returns an error in a run
    of [Run] that returns: the exit code is 1, Configure was still called
    exactly once on every parameter, the error was written to stderr, and
    there was no Acquire (on a parameter or on the metric server), no
    action and no Shutdown. *)
Theorem Run_configure_failure_stops_before_acquire (m : promhttpWrapper World) cfgs
    (action : World -> ExitCode * World) (w : World) (code : ExitCode)
    (st : St (World := World)) (J : nat) (e : error) :
  Run (Some m) cfgs action w = Ok (code, st) ->
  In (CallConfigure J (Some e)) (snd st) ->
  code = 1 /\
  count isAcquire (snd st) = O /\
  count isAction (snd st) = O /\
  count isShutdown (snd st) = O /\
  (forall i, (i < List.length cfgs)%nat ->
             count (isConfigureOf i) (snd st) = 1%nat) /\
  In (Stderr "configuration error: %v" e) (snd st).
Proof.
  intros Hrun Hin.
  destruct (Run_outcomes _ _ _ _ _ _ Hrun)
    as [(rs1 & Hl1 & Hne & -> & Htr)
       | [(r2 & rs2 & errs & Hl2 & Hne & -> & _ & Htr)
         | (r3 & rs3 & w1 & Hl3 & _ & Htr)]];
    rewrite Htr in Hin |- *.
  - split; [done|]. rewrite !count_app.
    rewrite !(count_phase_other isAcquire), !(count_phase_other isAction),
      !(count_phase_other isShutdown),
      !(count_Stderr isAcquire), !(count_Stderr isAction),
      !(count_Stderr isShutdown) by done.
    repeat split; try reflexivity.
    + intros i Hi. rewrite !count_app, count_configure_phase.
      rewrite (count_Stderr (isConfigureOf i)) by done.
      rewrite bool_decide_eq_true_2 by lia. reflexivity.
    + rewrite !in_app_iff. right. right. apply in_map. apply In_omap_id.
      rewrite !in_app_iff in Hin.
      destruct Hin as [[H|[]] | [H | H]]; [discriminate | |].
      * apply (phaseEvents_In_inv CallConfigure) in H; [exact H|].
        intros ???? Heq; inversion Heq; done.
      * apply In_map_Stderr in H as (? & H). discriminate.
  - exfalso. rewrite !in_app_iff in Hin.
    destruct Hin as [[H|[]] | [H | [[H|[]] | [H | H]]]]; try discriminate.
    + revert H. apply phaseEvents_all_nil. intros ???? Heq; inversion Heq; done.
    + apply phaseEvents_In in H as (k & r & H). discriminate.
    + apply In_map_Stderr in H as (? & H). discriminate.
  - exfalso. rewrite !in_app_iff in Hin.
    destruct Hin as [[H|[]] | [H | [[H|[]] | [H | [H | [H | H]]]]]];
      try discriminate.
    + revert H. apply phaseEvents_all_nil. intros ???? Heq; inversion Heq; done.
    + apply phaseEvents_In in H as (k & r & H). discriminate.
    + destruct H as [H|[H|[]]]; discriminate.
    + apply phaseEvents_In in H as (k & r & H). discriminate.
    + apply In_map_Stderr in H as (? & H). discriminate.
Qed.


End Orchestrator3.

(* ===================================================================== *)
(** * The scheduler: cancellation *)
(* ===================================================================== *)


Section Cancellation2.
Import scheduler.











End Cancellation2.

(* ===================================================================== *)
(** * The secret engine *)
(* ===================================================================== *)

Section SecretEngine.
Context {World : Type}
        (url_Parse : string -> secrets.URL * option error)
        (dataurl_DecodeString : string -> string * option error).

(** X21. The first [Close] of a [multiEngine] returns nil, keeps the
    storages and calls [Close] on none of them (the world is unchanged);
    from then on every [GetSecret] returns [io.ErrClosedPipe] without
    reaching a storage, also for the empty address and for data URLs. *)
Theorem multiEngine_first_Close_closes_nothing (order : list string)
    (e : secrets.multiEngine World) (w : World) :
  secrets.closed e = false ->
  exists e',
    secrets.multiEngine_Close order e w = (e', w, None) /\
    secrets.storages e' = secrets.storages e /\
    forall addr w',
      secrets.multiEngine_GetSecret url_Parse dataurl_DecodeString e' addr w'
      = (w', (None, Some (sentinelError secrets.ErrClosedPipe))).
Proof.
  intros H. unfold secrets.multiEngine_Close. rewrite H. cbn [negb].
  eexists. split; [reflexivity|]. split; [reflexivity|].
  intros addr w'. reflexivity.
Qed.

End SecretEngine.

(* ===================================================================== *)
(** * Commit hashes *)
(* ===================================================================== *)


Section CommitHash.
Local Arguments String.append : simpl nomatch.

Lemma string_pair_ind (Q : string -> Prop) :
  Q EmptyString ->
  (forall c, Q (String c EmptyString)) ->
  (forall p q rest, Q rest -> Q (String p (String q rest))) ->
  forall s, Q s.
Proof.
  intros H0 H1 H2. fix IH 1. intros [|p [|q rest]].
  - exact H0.
  - apply H1.
  - apply H2. apply IH.
Qed.

Lemma fromHexChar_digit p a :
  hex.fromHexChar p = Some a -> 0 <= a < 16 /\ hex.digit a = lowerHexChar p.
Proof.
  destruct p as [[] [] [] [] [] [] [] []]; intros H; vm_compute in H;
    try discriminate; injection H as <-; (split; [lia | reflexivity]).
Qed.

Lemma nibbles a b :
  0 <= a < 16 -> 0 <= b < 16 ->
  let v := utf8.Zbyte (Z.lor (Z.shiftl a 4) b) in
  Z.shiftr (utf8.byteZ v) 4 = a /\ Z.land (utf8.byteZ v) 15 = b.
Proof.
  intros Ha Hb.
  assert (Ea : a = 0 \/ a = 1 \/ a = 2 \/ a = 3 \/ a = 4 \/ a = 5 \/ a = 6 \/
               a = 7 \/ a = 8 \/ a = 9 \/ a = 10 \/ a = 11 \/ a = 12 \/
               a = 13 \/ a = 14 \/ a = 15) by lia.
  assert (Eb : b = 0 \/ b = 1 \/ b = 2 \/ b = 3 \/ b = 4 \/ b = 5 \/ b = 6 \/
               b = 7 \/ b = 8 \/ b = 9 \/ b = 10 \/ b = 11 \/ b = 12 \/
               b = 13 \/ b = 14 \/ b = 15) by lia.
  clear Ha Hb.
  repeat (destruct Ea as [-> | Ea]); try subst a;
    repeat (destruct Eb as [-> | Eb]); try subst b; split; reflexivity.
Qed.

(** [hex.DecodeString] succeeds exactly on the texts of an even number of
    hexadecimal digits; encoding what it decoded gives the text back, in
    lower case. *)
Lemma DecodeString_ok : forall h,
  snd (hex.DecodeString h) = None ->
  allHex h = true /\
  String.length h = (2 * String.length (fst (hex.DecodeString h)))%nat /\
  hex.EncodeToString (fst (hex.DecodeString h)) = lowerHex h.
Proof.
  induction h as [|c|p q rest IH] using string_pair_ind.
  - intros _. repeat split.
  - cbn [hex.DecodeString]. destruct (hex.fromHexChar c); discriminate.
  - cbn [hex.DecodeString allHex].
    destruct (hex.fromHexChar p) as [a|] eqn:Hp; [|discriminate].
    destruct (hex.fromHexChar q) as [b|] eqn:Hq; [|discriminate].
    destruct (hex.DecodeString rest) as [data err]. cbn [fst snd] in *.
    intros Herr. destruct (IH Herr) as (Hall & Hlen & Henc).
    destruct (fromHexChar_digit p a Hp) as [Ha Hda].
    destruct (fromHexChar_digit q b Hq) as [Hb Hdb].
    destruct (nibbles a b Ha Hb) as [Hhi Hlo].
    split; [exact Hall|]. split.
    + cbn [String.length]. rewrite Hlen. lia.
    + cbn [hex.EncodeToString lowerHex]. rewrite Hhi, Hlo, Hda, Hdb, Henc.
      reflexivity.
Qed.

Lemma DecodeString_hex : forall h,
  allHex h = true -> Nat.even (String.length h) = true ->
  snd (hex.DecodeString h) = None.
Proof.
  induction h as [|c|p q rest IH] using string_pair_ind.
  - reflexivity.
  - intros _ H. discriminate.
  - cbn [hex.DecodeString allHex String.length Nat.even].
    destruct (hex.fromHexChar p) as [a|]; [|discriminate].
    destruct (hex.fromHexChar q) as [b|]; [|discriminate].
    intros Hall Hev. specialize (IH Hall Hev).
    destruct (hex.DecodeString rest) as [data err]. exact IH.
Qed.

Lemma take_all n s : String.length s = n -> strings.take n s = s.
Proof.
  revert n. induction s as [|c s IH]; intros [|n] H; try discriminate;
    [reflexivity|].
  cbn [strings.take]. rewrite IH; [reflexivity|]. cbn in H. lia.
Qed.

Lemma copyHash_full data :
  String.length data = version.sha1_Size -> version.copyHash data = data.
Proof.
  intros H. unfold version.copyHash. rewrite (take_all _ _ H), H, Nat.sub_diag.
  cbn [repeat string_of_list_ascii].
  induction data as [|c d IH]; [reflexivity|].
  clear. induction (String c d) as [|x s IHs]; [reflexivity|].
  cbn. rewrite IHs. reflexivity.
Qed.

(** X22. [buildCommitHash] reports a commit as valid exactly when the
    text is 40 hexadecimal digits, and then [hex.EncodeToString] of the
    hash is the text in lower case. *)
Theorem buildCommitHash_round_trip h :
  (snd (version.buildCommitHash h) = true <->
   String.length h = 40%nat /\ allHex h = true) /\
  (snd (version.buildCommitHash h) = true ->
   hex.EncodeToString (fst (version.buildCommitHash h)) = lowerHex h).
Proof.
  unfold version.buildCommitHash.
  destruct (hex.DecodeString h) as [data [err|]] eqn:Hd.
  - split; [|discriminate]. split; [discriminate|].
    intros [Hlen Hall].
    pose proof (DecodeString_hex h Hall) as H. rewrite Hlen, Hd in H.
    specialize (H eq_refl). discriminate.
  - pose proof (DecodeString_ok h) as H. rewrite Hd in H. cbn [fst snd] in H.
    destruct (H eq_refl) as (Hall & Hlen & Henc). cbn [fst snd].
    split; [split|].
    + intros Heq. apply Nat.eqb_eq in Heq. unfold version.sha1_Size in Heq.
      split; [lia | exact Hall].
    + intros [Hl _]. apply Nat.eqb_eq. unfold version.sha1_Size. lia.
    + intros Heq. apply Nat.eqb_eq in Heq. rewrite copyHash_full by exact Heq.
      exact Henc.
Qed.

Context (semver_IsValid : string -> bool) {Time : Type} (zeroTime : Time)
        (time_Parse : string -> Time * option error).

(** X23. A version built without a commit is never valid, whatever the
    version and the date: the default commit is no hexadecimal text. *)
Theorem NewVersion_without_commit_is_invalid versionRaw dateRaw :
  version.Valid
    (version.NewVersion semver_IsValid zeroTime time_Parse versionRaw
       EmptyString dateRaw) = false.
Proof.
  unfold version.NewVersion, version.Valid.
  change (String.eqb "" "") with true. cbv iota.
  change (version.buildCommitHash version.DefaultCommit)
    with (version.copyHash "none", false).
  unfold version.buildVersion.
  destruct (version.buildDate _ _ _); cbn.
  apply andb_false_iff. left. apply andb_false_r.
Qed.

End CommitHash.


(* ===================================================================== *)
(** * The further properties at concrete inputs *)
(* ===================================================================== *)


Lemma toEnvName_shape_witness :
  startsWithUnderscore (env.toEnvName example.program "_SSH___Port_") = false /\
  hasDoubleUnderscore (env.toEnvName example.program "_SSH___Port_") = false.
Proof.
  apply (toEnvName_shape example.program "_SSH___Port_").
  intros r Hr. cbn [unicode_ToUpper example.program].
  destruct ((97 <=? r) && (r <=? 122)) eqn:H; [|exact Hr].
  apply andb_true_iff in H as [H1 H2]. apply Z.leb_le in H1, H2. lia.
Defined.

Lemma Parse_panics_on_tag_option_witness :
  isPanic (env.Parse example.program example.registry
             (Some (New sample.WithOption))
             (example.withEnvironment example.bothSet)) = true.
Proof.
  apply (Parse_panics_on_tag_option example.program example.registry
           (TPtr sample.WithOption) (Zero sample.WithOption)
           (example.withEnvironment example.bothSet) sample.optionField
           "required").
  - reflexivity.
  - left. reflexivity.
  - reflexivity.
  - left. reflexivity.
  - discriminate.
Defined.

Lemma setStructField_skips_unexported_and_dash_witness :
  env.setStructField example.program example.registry 1
    (Zero (TChan (TBasic BInt))) sample.dashField
    (example.withEnvironment example.bothSet) "APP_"
  = Ok (env.unchanged (Zero (TChan (TBasic BInt)))).
Proof.
  apply (setStructField_skips_unexported_and_dash example.program
           example.registry 1 (Zero (TChan (TBasic BInt))) sample.dashField
           (example.withEnvironment example.bothSet) "APP_").
  right. reflexivity.
Defined.


Lemma pointer_field_decodes_its_target_witness :
  env.setStructField example.program example.registry 1
    (Zero (TPtr (TBasic BInt))) (sample.portField 1)
    (example.withEnvironment example.bothSet) EmptyString
  = Ok {| env.dval := VPtr (TPtr (TBasic BInt)) (Some (VInt (TBasic BInt) 3000));
          env.derrs := [];
          env.dlog := [("PORT", VInt (TBasic BInt) 3000, false)] |}.
Proof.
  rewrite (pointer_field_decodes_its_target example.program example.registry
             O (TBasic BInt) (Zero (TPtr (TBasic BInt))) (sample.portField 1)
             (example.withEnvironment example.bothSet) EmptyString
             (example.fieldNamed "PORT") "3000" false);
    try reflexivity.
  discriminate.
Defined.

Lemma double_pointer_field_panics_witness :
  env.setStructField example.program example.registry 1
    (Zero (PtrN 2 (TBasic BInt))) (sample.portField 2)
    (example.withEnvironment example.bothSet) EmptyString
  = Panic "reflect.Value.Convert: value of type cannot be converted".
Proof.
  apply (double_pointer_field_panics example.program example.registry O BInt
           (internal.parseIntAs example.program BInt 32) O
           (Zero (PtrN 2 (TBasic BInt))) (sample.portField 2)
           (example.withEnvironment example.bothSet) EmptyString
           (example.fieldNamed "PORT") "3000" false
           (Some (VInt (TBasic BInt) 3000)));
    try reflexivity.
  intros [|[|k]] Hk; reflexivity.
Defined.

Lemma setSlice_restores_pointers_witness :
  exists vals,
    [Some (VInt (TBasic BInt) 80); Some (VInt (TBasic BInt) 443)]
    = map Some vals /\
    Forall (fun val => typeOf val = TBasic BInt) vals /\
    env.setSlice example.program example.registry sample.pointerSlice
      (Zero sample.pointerSlice) "80,443" (example.fieldNamed "PORTS")
      (example.withEnvironment ∅)
    = Ok {| env.dval := VSlice sample.pointerSlice
                          (Some (map (wrapPointers 1) vals));
            env.derrs := []; env.dlog := [] |}.
Proof.
  apply (setSlice_restores_pointers example.program example.registry BInt
           (internal.parseIntAs example.program BInt 32) 1
           (Zero sample.pointerSlice) "80,443" (example.fieldNamed "PORTS")
           (example.withEnvironment ∅)).
  - intros [|[|k]] Hk; reflexivity.
  - reflexivity.
  - reflexivity.
  - reflexivity.
  - repeat constructor.
Defined.

Lemma observer_not_called_for_sequences_and_maps_witness :
  exists d,
    env.setValue example.program example.registry 1 example.intSlice
      (Zero example.intSlice)
      (example.withEnvironment (<["PORTS" := "80,443"]> ∅))
      (example.fieldNamed "PORTS") EmptyString = Ok d /\
    env.derrs d = [] /\ env.dlog d = [].
Proof.
  eexists. split; [vm_compute; reflexivity|]. split; [reflexivity|].
  apply (observer_not_called_for_sequences_and_maps example.program
           example.registry O example.intSlice (Zero example.intSlice)
           (example.withEnvironment (<["PORTS" := "80,443"]> ∅))
           (example.fieldNamed "PORTS") EmptyString None O).
  - left. reflexivity.
  - reflexivity.
  - vm_compute. reflexivity.
Defined.

Lemma Parse_treats_empty_as_absent_witness :
  env.Parse example.program example.registry (Some (New example.Config))
    (withoutEmpty (example.withEnvironment sample.hostEmpty))
  = env.Parse example.program example.registry (Some (New example.Config))
      (example.withEnvironment sample.hostEmpty).
Proof.
  apply (Parse_treats_empty_as_absent example.program example.registry).
Defined.

Lemma parseInternal_keys_carry_the_prefixes_witness :
  Forall (fun e => keyedUnder (String.append "APP_" "DB_") e = true)
    [FieldError "APP_DB_NAME" (TBasic BString)
       (Some (sentinelError ErrValueNotSet))] /\
  Forall (fun ev => taggedUnder (String.append "APP_" "DB_") ev = true)
    [("APP_DB_COUNT", VInt (TBasic BInt) 7, false)].
Proof.
  destruct (env.parseInternal example.program example.registry
              (Some (New example.Required))
              (sample.withPrefix "APP_" (<["APP_DB_COUNT" := "7"]> ∅)) "DB_")
    as [[[v' err] log]|] eqn:H; [|vm_compute in H; discriminate H].
  pose proof (parseInternal_keys_carry_the_prefixes example.program
                example.registry _ _ _ _ _ _ H) as HF.
  vm_compute in H. inversion H; subst; clear H.
  destruct HF as [[He _] | HF]; [discriminate He | exact HF].
Defined.

Lemma Parse_rejects_what_is_no_struct_pointer_witness :
  env.Parse example.program example.registry
    (Some (VInt (TBasic BInt) 7)) (example.withEnvironment example.bothSet)
  = Ok (Some (VInt (TBasic BInt) 7), Some (sentinelError ErrNotStructPtr), [])
  /\
  env.ParseAs example.program example.registry (TBasic BInt)
    (example.withEnvironment example.bothSet)
  = Ok (Zero (TBasic BInt), Some (sentinelError ErrNotStructPtr), []).
Proof.
  destruct (Parse_rejects_what_is_no_struct_pointer example.program
              example.registry (example.withEnvironment example.bothSet))
    as [H1 H2].
  split.
  - apply H1. intros t ref H. discriminate H.
  - apply H2. discriminate.
Defined.

Lemma RegisterEnvParser_then_GetParseFunc_witness :
  exists reg',
    internal.RegisterEnvParser example.registry example.Plain
      (fun _ => Ok (Some (Zero example.Plain), None)) = Ok reg' /\
    internal.GetParseFunc example.program reg' example.Plain
    = Ok (Some (fun _ => Ok (Some (Zero example.Plain), None)), O, true) /\
    (forall g, internal.RegisterEnvParser reg' example.Plain g
               = Panic "parser already registered") /\
    (forall t, rtype_eqb example.Plain t = false ->
               internal.registryLookup reg' t
               = internal.registryLookup example.registry t).
Proof.
  apply (RegisterEnvParser_then_GetParseFunc example.program example.registry
           example.Plain). reflexivity.
Defined.

Lemma GetParseFunc_counts_pointer_depth_witness :
  internal.GetParseFunc example.program example.registry
    (PtrN 3 (TBasic BInt))
  = Ok (Some (internal.parseIntAs example.program BInt 32), 3%nat, true).
Proof.
  apply (GetParseFunc_counts_pointer_depth example.program example.registry
           (TBasic BInt) (internal.parseIntAs example.program BInt 32) 3);
    try reflexivity.
  - discriminate.
  - intros [|[|[|[|k]]]] Hk; reflexivity.
Defined.

Lemma rejected_text_is_reported_without_unwrap_witness :
  exists T,
    (T = example.LogLevel \/ T = TPtr example.LogLevel) /\
    env.setValue example.program example.registry 1 example.LogLevel
      (Zero example.LogLevel)
      (example.withEnvironment (<["LEVEL" := "verbose"]> ∅))
      (example.fieldNamed "LEVEL") EmptyString
    = Ok {| env.dval := Zero example.LogLevel;
            env.derrs :=
              [FieldError "LEVEL" example.LogLevel
                 (Some (UnmarshalFuncError T example.unknownLevel))];
            env.dlog := [] |} /\
    forall target,
      errors.Is (FieldError "LEVEL" example.LogLevel
                   (Some (UnmarshalFuncError T example.unknownLevel)))
        target = false.
Proof.
  apply (rejected_text_is_reported_without_unwrap example.program
           example.registry O example.LogLevel (Zero example.LogLevel)
           (example.withEnvironment (<["LEVEL" := "verbose"]> ∅))
           (example.fieldNamed "LEVEL") EmptyString "verbose" false
           example.unknownLevel);
    try discriminate; try reflexivity.
  right. split; [reflexivity|]. split; [reflexivity|].
  exists (Zero example.LogLevel). reflexivity.
Defined.

Lemma nil_parser_panics_witness :
  internal.GetParseFunc example.program example.registry std_parsers.fs_File
  = Ok (None, O, true) /\
  env.setValue example.program example.registry 1 std_parsers.fs_File
    (Zero std_parsers.fs_File)
    (example.withEnvironment (<["FILE" := "/etc/hosts"]> ∅))
    (example.fieldNamed "FILE") EmptyString
  = Panic "invalid memory address or nil pointer dereference".
Proof.
  apply (nil_parser_panics example.program example.registry O
           std_parsers.fs_File (Zero std_parsers.fs_File)
           (example.withEnvironment (<["FILE" := "/etc/hosts"]> ∅))
           (example.fieldNamed "FILE") EmptyString "/etc/hosts" false);
    first [discriminate | reflexivity].
Defined.

Lemma environ_last_entry_wins_witness :
  runtime.environ (["PATH=/bin"; "A=1"] ++ [String.append "A" (String "=" "x=y")])
  = <["A" := "x=y"]> (runtime.environ ["PATH=/bin"; "A=1"]).
Proof.
  apply (environ_last_entry_wins ["PATH=/bin"; "A=1"] "A" "x=y"). reflexivity.
Defined.

Lemma environ_drops_entries_without_separator_witness :
  runtime.environ (["A=1"] ++ "junk" :: ["B=2"])
  = runtime.environ (["A=1"] ++ ["B=2"]).
Proof.
  apply (environ_drops_entries_without_separator ["A=1"] "junk" ["B=2"]).
  reflexivity.
Defined.

Lemma Run_configure_failure_stops_before_acquire_witness :
  1 = 1 /\
  runtime.count isAcquire
    [runtime.MetricConfigure;
     runtime.CallConfigure 0 None;
     runtime.CallConfigure 1 (Some sample.badAddress);
     runtime.CallConfigure 2 None;
     runtime.Stderr "configuration error: %v" sample.badAddress] = O.
Proof.
  pose proof (Run_configure_failure_stops_before_acquire
                example.metrics
                [example.opening 0; sample.rejecting; example.opening 2]
                example.action [] 1 _ 1%nat sample.badAddress
                ltac:(vm_compute; reflexivity)
                ltac:(simpl; tauto)) as (H1 & H2 & _).
  split; [exact H1 | exact H2].
Defined.



Lemma multiEngine_first_Close_closes_nothing_witness :
  exists e',
    secrets.multiEngine_Close ["vault"] sample.engine [] = (e', [], None) /\
    secrets.storages e' = secrets.storages sample.engine /\
    forall addr w',
      secrets.multiEngine_GetSecret sample.parseURL sample.decodeDataURL e'
        addr w'
      = (w', (None, Some (sentinelError secrets.ErrClosedPipe))).
Proof.
  apply (multiEngine_first_Close_closes_nothing sample.parseURL
           sample.decodeDataURL ["vault"] sample.engine []).
  reflexivity.
Defined.

Lemma buildCommitHash_round_trip_witness :
  hex.EncodeToString
    (fst (version.buildCommitHash "00112233445566778899aAbBcCdDeEfF00112233"))
  = "00112233445566778899aabbccddeeff00112233".
Proof.
  apply (proj2 (buildCommitHash_round_trip
                  "00112233445566778899aAbBcCdDeEfF00112233")).
  reflexivity.
Defined.

Lemma NewVersion_without_commit_is_invalid_witness :
  version.Valid
    (version.NewVersion (fun _ => true) tt (fun _ => (tt, None))
       "v1.2.3" EmptyString "2025-01-01T00:00:00Z") = false.
Proof.
  apply (NewVersion_without_commit_is_invalid (fun _ => true) tt
           (fun _ => (tt, None)) "v1.2.3" "2025-01-01T00:00:00Z").
Defined.
